(** * RiSC-32: the assembler's instruction encoder and the CPU emulator

    A shallow embedding of the assembler's back end
    ([pkg/asm/instruction.go]: the instruction types and their encoders;
    [pkg/asm]'s [AssemblerAsync]), of the CPU ([pkg/vm/vm.go] with
    [pkg/vm/tty.go]: decode, memory access, interrupt entry, interrupt
    poll, execute) and of the interpreter's fetch-execute loop.

    [pkg/vm/vm.go] is embedded in two revisions: [vm], with hardware
    interrupts, IRET, the clock and the TTY, on which the properties are
    stated; and [vm_trap], the one before it, on which those that concern
    [Memory] and [Execute] are proved again.

    Conventions.
    - A Go [uint32] is a [Z]; every Go operation that can leave the range
      [0, 2^32) has its wrap-around written out ([wrap32]).
    - The fixed-size, zero-initialised arrays [GPR], [S] and [M] are finite
      maps from index to word; a cell that was never written reads 0.
    - A Go [error] is a value of an inductive type; [fmt.Errorf("%w: ...")]
      is the constructor [Errorf], and [errors_Is] unwraps it as
      [errors.Is] does.
    - A [*uint32] returned by [Memory] is the name of the cell it points
      to ([ref]), read with [load] and written with [store].
    - What the outside world answers during one instruction (the wall
      clock, the TTY's TCP connection) is an explicit argument of
      [Execute]. The TTY is the repository's [SerialTTY]. Log lines are
      left out. *)

From Stdlib Require Import ZArith Lia Bool List String Ascii.
From stdpp Require Import base option gmap strings.

Local Open Scope Z_scope.

(** ** 32-bit words *)

Definition wrap32 (z : Z) : Z := z mod 2 ^ 32.
Definition wrap64 (z : Z) : Z := z mod 2 ^ 64.

(** [x << k], [x + y] and [^x] on [uint32]. *)
Definition shl32 (x k : Z) : Z := wrap32 (Z.shiftl x k).
Definition add32 (x y : Z) : Z := wrap32 (x + y).
Definition not32 (x : Z) : Z := wrap32 (Z.lnot x).

(** [int32(x)] for a [uint32] [x]: the two's complement reading. *)
Definition to_int32 (x : Z) : Z := if x <? 2 ^ 31 then x else x - 2 ^ 32.

Definition is_uint32 (x : Z) : Prop := 0 <= x < 2 ^ 32.

(** The low [bits] bits of a word, read in two's complement. *)
Definition signed_field (bits w : Z) : Z :=
  let x := w mod 2 ^ bits in
  if x <? 2 ^ (bits - 1) then x else x - 2 ^ bits.

(** A zero-initialised array of words, indexed by [Z]. *)
Definition get (a : gmap Z Z) (i : Z) : Z := default 0 (a !! i).
Definition set (a : gmap Z Z) (i v : Z) : gmap Z Z := <[i := v]> a.

Arguments get : simpl never.
Arguments set : simpl never.

(** ** Go's [strconv.ParseInt(s, 0, 64)]

    [ResolveImmediate] reads literals with the standard library's
    [ParseInt], base 0 and 64 bits: an optional sign, an optional base
    prefix ([0b], [0o], [0x], or a leading [0] for octal), digits, and
    underscores as digit separators. *)
Module strconv.

Inductive NumError := ErrSyntax | ErrRange.

Definition bytes (s : string) : list Z :=
  map (fun c => Z.of_N (N_of_ascii c)) (list_ascii_of_string s).

Definition lower (c : Z) : Z := Z.lor c 32.

Definition maxUint64 : Z := 2 ^ 64 - 1.

(** The digit loop of [ParseUint]. *)
Inductive loop_result :=
| LoopDone (n : Z) (underscores : bool)
| LoopSyntax
| LoopRange.

Fixpoint digits_loop (base : Z) (cs : list Z) (n : Z) (underscores : bool)
  : loop_result :=
  match cs with
  | [] => LoopDone n underscores
  | c :: cs' =>
      if c =? 95 (* '_', and base0 holds at every call *) then
        digits_loop base cs' n true
      else
        let d :=
          if (48 <=? c) && (c <=? 57) then Some (c - 48)
          else if (97 <=? lower c) && (lower c <=? 122)
               then Some (lower c - 97 + 10)
               else None in
        match d with
        | None => LoopSyntax
        | Some d =>
            if base <=? d then LoopSyntax
            else if maxUint64 / base + 1 <=? n then LoopRange
            else
              let n := wrap64 (n * base) in
              let n1 := wrap64 (n + d) in
              if (n1 <? n) || (maxUint64 <? n1) then LoopRange
              else digits_loop base cs' n1 underscores
        end
  end.

(** [underscoreOK]: underscores only between digits or after the prefix. *)
Inductive saw := SawStart | SawDigit | SawUnderscore | SawOther.

Fixpoint underscore_scan (hex : bool) (cs : list Z) (last : saw) : bool :=
  match cs with
  | [] => match last with SawUnderscore => false | _ => true end
  | c :: cs' =>
      if ((48 <=? c) && (c <=? 57))
         || (hex && (97 <=? lower c) && (lower c <=? 102))
      then underscore_scan hex cs' SawDigit
      else if c =? 95 then
        match last with
        | SawDigit => underscore_scan hex cs' SawUnderscore
        | _ => false
        end
      else
        match last with
        | SawUnderscore => false
        | _ => underscore_scan hex cs' SawOther
        end
  end.

Definition underscoreOK (cs : list Z) : bool :=
  let cs :=
    match cs with
    | c :: cs' => if (c =? 45) || (c =? 43) then cs' else cs
    | [] => cs
    end in
  match cs with
  | 48 :: p :: rest =>
      if (lower p =? 98) || (lower p =? 111) || (lower p =? 120)
      then underscore_scan (lower p =? 120) rest SawDigit
      else underscore_scan false cs SawStart
  | _ => underscore_scan false cs SawStart
  end.

(** [ParseUint(s, 0, 64)] on the bytes of [s]: value and error. *)
Definition ParseUint (s : list Z) : Z * option NumError :=
  match s with
  | [] => (0, Some ErrSyntax)
  | c0 :: _ =>
      let '(base, digits) :=
        if c0 =? 48 then
          match s with
          | _ :: p :: _ :: _ =>
              if lower p =? 98 then (2, skipn 2 s)
              else if lower p =? 111 then (8, skipn 2 s)
              else if lower p =? 120 then (16, skipn 2 s)
              else (8, skipn 1 s)
          | _ => (8, skipn 1 s)
          end
        else (10, s) in
      match digits_loop base digits 0 false with
      | LoopSyntax => (0, Some ErrSyntax)
      | LoopRange => (maxUint64, Some ErrRange)
      | LoopDone n underscores =>
          if underscores && negb (underscoreOK s) then (0, Some ErrSyntax)
          else (n, None)
      end
  end.

(** [ParseInt(s, 0, 64)]: [inl] the value or [inr] the error. *)
Definition ParseInt (s : string) : Z + NumError :=
  match bytes s with
  | [] => inr ErrSyntax
  | c0 :: rest =>
      let neg := c0 =? 45 in
      let body := if (c0 =? 43) || (c0 =? 45) then rest else c0 :: rest in
      match ParseUint body with
      | (_, Some ErrSyntax) => inr ErrSyntax
      | (un, _) =>
          let cutoff := 2 ^ 63 in
          if negb neg && (cutoff <=? un) then inr ErrRange
          else if neg && (cutoff <? un) then inr ErrRange
          else inl (if neg then - un else un)
      end
  end.

(** [strconv.FormatInt(i, 10)], which [fmt]'s [%d] prints: the digits
    from the least significant one, written from the end of the buffer,
    then the sign. Twenty digits hold any 64-bit value. *)
Definition digit_char (d : Z) : ascii := ascii_of_N (Z.to_N (48 + d)).

Fixpoint format_digits (fuel : nat) (n : Z) (acc : string) : string :=
  match fuel with
  | O => acc
  | Datatypes.S fuel =>
      let acc := String (digit_char (n mod 10)) acc in
      if n / 10 =? 0 then acc else format_digits fuel (n / 10) acc
  end.

Definition FormatInt (i : Z) : string :=
  if i <? 0 then String "-" (format_digits 20 (- i) EmptyString)
  else format_digits 20 i EmptyString.

End strconv.

(** ** The assembler's instructions and their encoders
    ([pkg/asm/instruction.go]) *)
Module asm.

(** The assembler's opcode table. *)
Definition OpcodeHALT : Z := 0.
Definition OpcodeADD : Z := 1.
Definition OpcodeADDI : Z := 2.
Definition OpcodeNAND : Z := 3.
Definition OpcodeLUI : Z := 4.
Definition OpcodeSW : Z := 5.
Definition OpcodeLW : Z := 6.
Definition OpcodeBEQ : Z := 7.
Definition OpcodeJALR : Z := 8.
Definition OpcodeWSR : Z := 9.
Definition OpcodeRSR : Z := 10.

(** The package's sentinel errors, a wrapped error
    ([fmt.Errorf("%w ...", base, ...)], with the format's text), and the
    panic of [CastToUint32]. *)
Inductive error :=
| ErrCannotEncode
| ErrOutOfRange
| ErrTooManyInstructions
| Errorf (base : error) (text : string)
| Panic (text : string).

Inductive Instruction :=
| InstructionErr (Error : error) (Lineno : Z)
| InstructionADD (Lineno : Z) (MaybeLabel : option string) (RA RB RC : Z)
| InstructionADDI (Lineno : Z) (MaybeLabel : option string) (RA RB : Z)
    (Imm : string)
| InstructionNAND (Lineno : Z) (MaybeLabel : option string) (RA RB RC : Z)
| InstructionLUI (Lineno : Z) (MaybeLabel : option string) (RA : Z)
    (Imm : string)
| InstructionSW (Lineno : Z) (MaybeLabel : option string) (RA RB : Z)
    (Imm : string)
| InstructionLW (Lineno : Z) (MaybeLabel : option string) (RA RB : Z)
    (Imm : string)
| InstructionBEQ (Lineno : Z) (MaybeLabel : option string) (RA RB : Z)
    (Imm : string)
| InstructionJALR (Lineno : Z) (MaybeLabel : option string) (RA RB : Z)
| InstructionHALT (Lineno : Z) (MaybeLabel : option string)
| InstructionLLI (Lineno : Z) (MaybeLabel : option string) (RA : Z)
    (Imm : string)
| InstructionDATA (Lineno : Z) (MaybeLabel : option string) (Value : Z)
| InstructionWSR (Lineno : Z) (MaybeLabel : option string) (RA : Z)
    (Imm : string)
| InstructionRSR (Lineno : Z) (MaybeLabel : option string) (RA : Z)
    (Imm : string).

(** [CastToUint32]: range check for a signed field of [bits] bits, then
    the conversion [uint32(value)]. *)
Definition CastToUint32 (value bits lineno : Z) : Z + error :=
  if (bits <? 1) || (32 <? bits) then inr (Panic "bits value out of range")
  else if (value <? - 2 ^ (bits - 1)) || (2 ^ (bits - 1) - 1 <? value)
  then inr (Errorf ErrOutOfRange "%w for %d-bit range on line %d")
  else inl (wrap32 value).

(** [ResolveImmediate]: a literal, or else a label of the table. *)
Definition ResolveImmediate (labels : gmap string Z) (name : string)
    (bits lineno : Z) : Z + error :=
  match strconv.ParseInt name with
  | inl value => CastToUint32 value bits lineno
  | inr _ =>
      match labels !! name with
      | None => inr (Errorf ErrCannotEncode "%w because label '%s' is missing")
      | Some value => CastToUint32 value bits lineno
      end
  end.

(** [Encode], one case per instruction type, each as its method builds
    the word: [out |= ...] from [out = 0]. *)
Definition Encode (ia : Instruction) (labels : gmap string Z) (pc : Z)
  : Z + error :=
  match ia with
  | InstructionErr _ _ =>
      inr (Errorf ErrCannotEncode "%w because this is an error")
  | InstructionADD _ _ RA RB RC =>
      let out := 0 in
      let out := Z.lor out (shl32 (Z.land OpcodeADD 31) 27) in
      let out := Z.lor out (shl32 (Z.land RA 31) 22) in
      let out := Z.lor out (shl32 (Z.land RB 31) 17) in
      let out := Z.lor out (Z.land RC 31) in
      inl out
  | InstructionADDI Lineno _ RA RB Imm =>
      let out := 0 in
      let out := Z.lor out (shl32 (Z.land OpcodeADDI 31) 27) in
      let out := Z.lor out (shl32 (Z.land RA 31) 22) in
      let out := Z.lor out (shl32 (Z.land RB 31) 17) in
      match ResolveImmediate labels Imm 17 Lineno with
      | inr err => inr err
      | inl imm => inl (Z.lor out (Z.land imm 131071))
      end
  | InstructionNAND _ _ RA RB RC =>
      let out := 0 in
      let out := Z.lor out (shl32 (Z.land OpcodeNAND 31) 27) in
      let out := Z.lor out (shl32 (Z.land RA 31) 22) in
      let out := Z.lor out (shl32 (Z.land RB 31) 17) in
      let out := Z.lor out (Z.land RC 31) in
      inl out
  | InstructionLUI Lineno _ RA Imm =>
      let out := 0 in
      let out := Z.lor out (shl32 (Z.land OpcodeLUI 31) 27) in
      let out := Z.lor out (shl32 (Z.land RA 31) 22) in
      match ResolveImmediate labels Imm 32 Lineno with
      | inr err => inr err
      | inl imm => inl (Z.lor out (Z.shiftr imm 10))
      end
  | InstructionSW Lineno _ RA RB Imm =>
      let out := 0 in
      let out := Z.lor out (shl32 (Z.land OpcodeSW 31) 27) in
      let out := Z.lor out (shl32 (Z.land RA 31) 22) in
      let out := Z.lor out (shl32 (Z.land RB 31) 17) in
      match ResolveImmediate labels Imm 17 Lineno with
      | inr err => inr err
      | inl imm => inl (Z.lor out (Z.land imm 131071))
      end
  | InstructionLW Lineno _ RA RB Imm =>
      let out := 0 in
      let out := Z.lor out (shl32 (Z.land OpcodeLW 31) 27) in
      let out := Z.lor out (shl32 (Z.land RA 31) 22) in
      let out := Z.lor out (shl32 (Z.land RB 31) 17) in
      match ResolveImmediate labels Imm 17 Lineno with
      | inr err => inr err
      | inl imm => inl (Z.lor out (Z.land imm 131071))
      end
  | InstructionBEQ Lineno _ RA RB Imm =>
      let out := 0 in
      let out := Z.lor out (shl32 (Z.land OpcodeBEQ 31) 27) in
      let out := Z.lor out (shl32 (Z.land RA 31) 22) in
      let out := Z.lor out (shl32 (Z.land RB 31) 17) in
      match ResolveImmediate labels Imm 32 Lineno with
      | inr err => inr err
      | inl imm =>
          let target := imm - pc - 1 in
          match CastToUint32 target 17 Lineno with
          | inr err => inr err
          | inl offset => inl (Z.lor out (Z.land offset 131071))
          end
      end
  | InstructionJALR _ _ RA RB =>
      let out := 0 in
      let out := Z.lor out (shl32 (Z.land OpcodeJALR 31) 27) in
      let out := Z.lor out (shl32 (Z.land RA 31) 22) in
      let out := Z.lor out (shl32 (Z.land RB 31) 17) in
      inl out
  | InstructionHALT _ _ =>
      let out := 0 in
      let out := Z.lor out (shl32 (Z.land OpcodeHALT 31) 27) in
      inl out
  | InstructionLLI Lineno _ RA Imm =>
      let out := 0 in
      let out := Z.lor out (shl32 (Z.land OpcodeADDI 31) 27) in
      let out := Z.lor out (shl32 (Z.land RA 31) 22) in
      let out := Z.lor out (shl32 (Z.land RA 31) 17) in
      match ResolveImmediate labels Imm 32 Lineno with
      | inr err => inr err
      | inl imm => inl (Z.lor out (Z.land imm 1023))
      end
  | InstructionDATA _ _ Value => inl Value
  | InstructionWSR Lineno _ RA Imm =>
      let out := 0 in
      let out := Z.lor out (shl32 (Z.land OpcodeWSR 31) 27) in
      let out := Z.lor out (shl32 (Z.land RA 31) 22) in
      match ResolveImmediate labels Imm 32 Lineno with
      | inr err => inr err
      | inl imm => inl (Z.lor out (Z.shiftr imm 10))
      end
  | InstructionRSR Lineno _ RA Imm =>
      let out := 0 in
      let out := Z.lor out (shl32 (Z.land OpcodeRSR 31) 27) in
      let out := Z.lor out (shl32 (Z.land RA 31) 22) in
      match ResolveImmediate labels Imm 32 Lineno with
      | inr err => inr err
      | inl imm => inl (Z.lor out (Z.shiftr imm 10))
      end
  end.

(** The other three methods of the [Instruction] interface. *)
Definition Err (ia : Instruction) : option error :=
  match ia with
  | InstructionErr err _ => Some err
  | _ => None
  end.

Definition Label (ia : Instruction) : option string :=
  match ia with
  | InstructionErr _ _ => None
  | InstructionADD _ MaybeLabel _ _ _
  | InstructionADDI _ MaybeLabel _ _ _
  | InstructionNAND _ MaybeLabel _ _ _
  | InstructionLUI _ MaybeLabel _ _
  | InstructionSW _ MaybeLabel _ _ _
  | InstructionLW _ MaybeLabel _ _ _
  | InstructionBEQ _ MaybeLabel _ _ _
  | InstructionJALR _ MaybeLabel _ _
  | InstructionHALT _ MaybeLabel
  | InstructionLLI _ MaybeLabel _ _
  | InstructionDATA _ MaybeLabel _
  | InstructionWSR _ MaybeLabel _ _
  | InstructionRSR _ MaybeLabel _ _ => MaybeLabel
  end.

Definition Line (ia : Instruction) : Z :=
  match ia with
  | InstructionErr _ Lineno
  | InstructionADD Lineno _ _ _ _
  | InstructionADDI Lineno _ _ _ _
  | InstructionNAND Lineno _ _ _ _
  | InstructionLUI Lineno _ _ _
  | InstructionSW Lineno _ _ _ _
  | InstructionLW Lineno _ _ _ _
  | InstructionBEQ Lineno _ _ _ _
  | InstructionJALR Lineno _ _ _
  | InstructionHALT Lineno _
  | InstructionLLI Lineno _ _ _
  | InstructionDATA Lineno _ _
  | InstructionWSR Lineno _ _ _
  | InstructionRSR Lineno _ _ _ => Lineno
  end.

(** [InstructionOrError], and [AssemblerAsync] on the instructions that
    the parser hands over: the first pass assigns each label the index of
    its instruction and stops at a parse error, the second encodes each
    instruction at its index and goes on after an encoding error. *)
Record InstructionOrError := {
  ioe_Instruction : Z;
  ioe_Error : option error;
  ioe_Lineno : Z;
}.

Fixpoint assign_labels (parsed : list Instruction) (idx : Z)
    (labels : gmap string Z) (instructions : list Instruction)
  : gmap string Z * list Instruction + InstructionOrError :=
  match parsed with
  | [] => inl (labels, instructions)
  | instr :: parsed =>
      match Err instr with
      | Some err =>
          inr {| ioe_Instruction := 0; ioe_Error := Some err;
                 ioe_Lineno := Line instr |}
      | None =>
          let labels :=
            match Label instr with
            | Some name => <[name := idx]> labels
            | None => labels
            end in
          assign_labels parsed (idx + 1) labels (instructions ++ [instr])
      end
  end.

Fixpoint encode_all (labels : gmap string Z) (instructions : list Instruction)
    (pc : Z) : list InstructionOrError :=
  match instructions with
  | [] => []
  | instr :: instructions =>
      if 2 ^ 32 - 1 <? pc then
        [{| ioe_Instruction := 0; ioe_Error := Some ErrTooManyInstructions;
            ioe_Lineno := Line instr |}]
      else
        match Encode instr labels (wrap32 pc) with
        | inr err =>
            {| ioe_Instruction := 0; ioe_Error := Some err;
               ioe_Lineno := Line instr |}
            :: encode_all labels instructions (pc + 1)
        | inl encoded =>
            {| ioe_Instruction := encoded; ioe_Error := None;
               ioe_Lineno := Line instr |}
            :: encode_all labels instructions (pc + 1)
        end
  end.

Definition AssemblerAsync (parsed : list Instruction)
  : list InstructionOrError :=
  match assign_labels parsed 0 ∅ [] with
  | inr failed => [failed]
  | inl (labels, instructions) => encode_all labels instructions 0
  end.

(** [errors.Is(err, target)] for one of the package's sentinels. *)
Fixpoint errors_Is (err target : error) : bool :=
  match err, target with
  | ErrCannotEncode, ErrCannotEncode => true
  | ErrOutOfRange, ErrOutOfRange => true
  | ErrTooManyInstructions, ErrTooManyInstructions => true
  | Errorf base _, _ => errors_Is base target
  | _, _ => false
  end.

(** What an operand denotes to [ResolveImmediate]: the number it spells,
    or else the address of the label it names. *)
Definition denotes (labels : gmap string Z) (name : string) (value : Z)
  : Prop :=
  strconv.ParseInt name = inl value \/
  ((exists err, strconv.ParseInt name = inr err) /\
   labels !! name = Some value).

(** The label table that the first pass of [AssemblerAsync] hands to the
    second. *)
Definition labels_of (parsed : list Instruction) : gmap string Z :=
  match assign_labels parsed 0 ∅ [] with
  | inl (labels, _) => labels
  | inr _ => ∅
  end.

(** The record that the second pass sends for an instruction at [pc]. *)
Definition encoded_at (labels : gmap string Z) (pc : Z) (instr : Instruction)
  : InstructionOrError :=
  match Encode instr labels (wrap32 pc) with
  | inr err =>
      {| ioe_Instruction := 0; ioe_Error := Some err;
         ioe_Lineno := Line instr |}
  | inl encoded =>
      {| ioe_Instruction := encoded; ioe_Error := None;
         ioe_Lineno := Line instr |}
  end.

End asm.

(** ** The CPU ([pkg/vm/vm.go], the revision with interrupts, IRET and
    memory-mapped I/O, and [pkg/vm/tty.go]) *)
Module vm.

(** The CPU's opcode table. *)
Definition OpcodeJALR : Z := 0.
Definition OpcodeADD : Z := 1.
Definition OpcodeADDI : Z := 2.
Definition OpcodeNAND : Z := 3.
Definition OpcodeLUI : Z := 4.
Definition OpcodeSW : Z := 5.
Definition OpcodeLW : Z := 6.
Definition OpcodeBEQ : Z := 7.
Definition OpcodeWSR : Z := 8.
Definition OpcodeRSR : Z := 9.
Definition OpcodeIRET : Z := 10.

Definition MemorySize : Z := Z.shiftl 1 20.
Definition NumRegisters : Z := 32.
Definition NumStatusRegisters : Z := 4.

Definition StatusUserMode : Z := 1.
Definition StatusPaging : Z := 2.
Definition StatusInterrupts : Z := 4.
Definition StatusDebugStepping : Z := 8.
Definition StatusDebugTracing : Z := 16.

Definition MemoryExec : Z := 1.
Definition MemoryWrite : Z := 2.
Definition MemoryRead : Z := 4.

Definition IrqHALT : Z := 0.
Definition IrqClock : Z := 1.
Definition IrqTTY : Z := 2.

Definition MMClockFrequency : Z := Z.lor (Z.shiftl 1 17) 0.
Definition MMTTYStatus : Z := Z.lor (Z.shiftl 1 17) 1.
Definition MMTTYIn : Z := Z.lor (Z.shiftl 1 17) 2.
Definition MMTTYOut : Z := Z.lor (Z.shiftl 1 17) 3.

Definition TTYIn : Z := 1.
Definition TTYOut : Z := 2.

(** The sentinel errors, and [fmt.Errorf("%w: text", base)]. *)
Inductive error :=
| ErrHalted
| ErrNotPermitted
| ErrSIGSEGV
| ErrTTYDetach
| Errorf (base : error) (text : string).

(** [errors.Is(err, target)] for a sentinel [target]: the chain of wrapped
    errors is searched for the sentinel itself. *)
Fixpoint errors_Is (err target : error) : bool :=
  match err, target with
  | ErrHalted, ErrHalted => true
  | ErrNotPermitted, ErrNotPermitted => true
  | ErrSIGSEGV, ErrSIGSEGV => true
  | ErrTTYDetach, ErrTTYDetach => true
  | Errorf base _, _ => errors_Is base target
  | _, _ => false
  end.

(** [SerialTTY] without its connection, whose answers come from [Env]. *)
Record SerialTTY := {
  tty_inr : Z;    (* inr: input register *)
  tty_outr : Z;   (* outr: output register *)
  tty_statr : Z;  (* statr: status register *)
}.

(** The machine. [LTR] is an instant in nanoseconds, 0 being Go's zero
    [time.Time]; [TTY] is [None] for a nil interface. *)
Record VM := {
  CF : Z;
  GPR : gmap Z Z;
  IPC : Z;
  IS0 : Z;
  ISP : Z;
  LTR : Z;
  M : gmap Z Z;
  PC : Z;
  S : gmap Z Z;
  TTY : option SerialTTY;
}.

Definition with_CF (vm : VM) (v : Z) : VM :=
  {| CF := v; GPR := GPR vm; IPC := IPC vm; IS0 := IS0 vm; ISP := ISP vm;
     LTR := LTR vm; M := M vm; PC := PC vm; S := S vm; TTY := TTY vm |}.
Definition with_GPR (vm : VM) (v : gmap Z Z) : VM :=
  {| CF := CF vm; GPR := v; IPC := IPC vm; IS0 := IS0 vm; ISP := ISP vm;
     LTR := LTR vm; M := M vm; PC := PC vm; S := S vm; TTY := TTY vm |}.
Definition with_IPC (vm : VM) (v : Z) : VM :=
  {| CF := CF vm; GPR := GPR vm; IPC := v; IS0 := IS0 vm; ISP := ISP vm;
     LTR := LTR vm; M := M vm; PC := PC vm; S := S vm; TTY := TTY vm |}.
Definition with_IS0 (vm : VM) (v : Z) : VM :=
  {| CF := CF vm; GPR := GPR vm; IPC := IPC vm; IS0 := v; ISP := ISP vm;
     LTR := LTR vm; M := M vm; PC := PC vm; S := S vm; TTY := TTY vm |}.
Definition with_ISP (vm : VM) (v : Z) : VM :=
  {| CF := CF vm; GPR := GPR vm; IPC := IPC vm; IS0 := IS0 vm; ISP := v;
     LTR := LTR vm; M := M vm; PC := PC vm; S := S vm; TTY := TTY vm |}.
Definition with_LTR (vm : VM) (v : Z) : VM :=
  {| CF := CF vm; GPR := GPR vm; IPC := IPC vm; IS0 := IS0 vm; ISP := ISP vm;
     LTR := v; M := M vm; PC := PC vm; S := S vm; TTY := TTY vm |}.
Definition with_M (vm : VM) (v : gmap Z Z) : VM :=
  {| CF := CF vm; GPR := GPR vm; IPC := IPC vm; IS0 := IS0 vm; ISP := ISP vm;
     LTR := LTR vm; M := v; PC := PC vm; S := S vm; TTY := TTY vm |}.
Definition with_PC (vm : VM) (v : Z) : VM :=
  {| CF := CF vm; GPR := GPR vm; IPC := IPC vm; IS0 := IS0 vm; ISP := ISP vm;
     LTR := LTR vm; M := M vm; PC := v; S := S vm; TTY := TTY vm |}.
Definition with_S (vm : VM) (v : gmap Z Z) : VM :=
  {| CF := CF vm; GPR := GPR vm; IPC := IPC vm; IS0 := IS0 vm; ISP := ISP vm;
     LTR := LTR vm; M := M vm; PC := PC vm; S := v; TTY := TTY vm |}.
Definition with_TTY (vm : VM) (v : option SerialTTY) : VM :=
  {| CF := CF vm; GPR := GPR vm; IPC := IPC vm; IS0 := IS0 vm; ISP := ISP vm;
     LTR := LTR vm; M := M vm; PC := PC vm; S := S vm; TTY := v |}.

(** [new(VM)]: everything zero, no TTY. *)
Definition new : VM :=
  {| CF := 0; GPR := ∅; IPC := 0; IS0 := 0; ISP := 0; LTR := 0; M := ∅;
     PC := 0; S := ∅; TTY := None |}.

(** What the world answers while one instruction executes: the reading of
    [time.Now()] (nanoseconds since the zero instant), the outcome of
    [conn.Write] ([None], or the error's text) and of [conn.Read] (the
    byte, or the error's text). *)
Record Env := {
  now : Z;
  conn_write : option string;
  conn_read : Z + string;
}.

(** The [*uint32] that [Memory] returns: which cell it points to. *)
Inductive ref :=
| RefCF
| RefTTYStatus
| RefTTYIn
| RefTTYOut
| RefM (off : Z).

Definition load (vm : VM) (r : ref) : Z :=
  match r with
  | RefCF => CF vm
  | RefTTYStatus => from_option tty_statr 0 (TTY vm)
  | RefTTYIn => from_option tty_inr 0 (TTY vm)
  | RefTTYOut => from_option tty_outr 0 (TTY vm)
  | RefM off => get (M vm) off
  end.

Definition store (vm : VM) (r : ref) (v : Z) : VM :=
  match r with
  | RefCF => with_CF vm v
  | RefTTYStatus =>
      with_TTY vm
        ((fun t => {| tty_inr := tty_inr t; tty_outr := tty_outr t;
                      tty_statr := v |}) <$> TTY vm)
  | RefTTYIn =>
      with_TTY vm
        ((fun t => {| tty_inr := v; tty_outr := tty_outr t;
                      tty_statr := tty_statr t |}) <$> TTY vm)
  | RefTTYOut =>
      with_TTY vm
        ((fun t => {| tty_inr := tty_inr t; tty_outr := v;
                      tty_statr := tty_statr t |}) <$> TTY vm)
  | RefM off => with_M vm (set (M vm) off v)
  end.

(** [StatusDebug] *)
Definition StatusDebug (vm : VM) : Z :=
  Z.land (get (S vm) 0) (Z.lor StatusDebugTracing StatusDebugStepping).

Definition attached (vm : VM) : bool :=
  match TTY vm with Some _ => true | None => false end.

(** [Memory]: memory-mapped registers first, then paging, then the bound. *)
Definition Memory (vm : VM) (off flags : Z) : ref + error :=
  if off =? MMClockFrequency then inl RefCF
  else if attached vm && (off =? MMTTYStatus) then inl RefTTYStatus
  else if attached vm && (off =? MMTTYIn) then inl RefTTYIn
  else if attached vm && (off =? MMTTYOut) then inl RefTTYOut
  else
    let paged : Z + error :=
      if negb (Z.land (get (S vm) 0) StatusPaging =? 0) then
        if negb (Z.land (get (S vm) 1) 1023 =? 0) then
          inr (Errorf ErrSIGSEGV "invalid page table base address")
        else
          let pageid := Z.shiftr off 10 in
          let pageoff := add32 (get (S vm) 1) pageid in
          if MemorySize <=? pageoff then
            inr (Errorf ErrSIGSEGV "page entry above physical memory")
          else
            let pageinfo := get (M vm) pageoff in
            let pageflags := Z.land pageinfo 127 in
            if negb (Z.land pageflags flags =? flags) then
              inr (Errorf ErrNotPermitted "memory flags mismatch")
            else
              let membase := Z.land pageinfo 4294966272 in
              let memoff := Z.land off 1023 in
              inl (add32 membase memoff)
      else inl off in
    match paged with
    | inr err => inr err
    | inl off => if MemorySize <=? off then inr ErrSIGSEGV else inl (RefM off)
    end.

(** [Fetch] *)
Definition Fetch (vm : VM) : VM * (Z + error) :=
  match Memory vm (PC vm) (Z.lor MemoryRead MemoryExec) with
  | inr err => (vm, inr err)
  | inl ci => let vm' := with_PC vm (add32 (PC vm) 1) in (vm', inl (load vm' ci))
  end.

(** [SignExtend17] and the field decoders. *)
Definition SignExtend17 (v : Z) : Z :=
  if negb (Z.land v 65536 =? 0) then Z.lor v 4294836224 else v.

Definition DecodeOpcode (ci : Z) : Z := Z.land (Z.shiftr ci 27) 31.
Definition DecodeRA (ci : Z) : Z := Z.land (Z.shiftr ci 22) 31.
Definition DecodeRB (ci : Z) : Z := Z.land (Z.shiftr ci 17) 31.
Definition DecodeRC (ci : Z) : Z := Z.land ci 31.
Definition DecodeImm17 (ci : Z) : Z := SignExtend17 (Z.land ci 131071).
Definition DecodeImm22 (ci : Z) : Z := Z.land ci 4194303.

Definition Decode (ci : Z) : Z * Z * Z * Z * Z * Z :=
  (DecodeOpcode ci, DecodeRA ci, DecodeRB ci, DecodeRC ci,
   DecodeImm17 ci, DecodeImm22 ci).

(** [Interrupt]: the two alignment checks come before any write, the
    bound on the vector's address after the state is saved. *)
Definition Interrupt (vm : VM) (code : Z) : VM * option error :=
  if negb (Z.land (get (S vm) 2) 1023 =? 0) then
    (vm, Some (Errorf ErrSIGSEGV "invalid interrupt table base address"))
  else if negb (Z.land (get (S vm) 3) 1023 =? 0) then
    (vm, Some (Errorf ErrSIGSEGV "invalid interrupt stack base address"))
  else
    let code := if 16 <=? code then IrqHALT else code in
    let vm := with_IS0 vm (get (S vm) 0) in
    let vm := with_ISP vm (get (GPR vm) 29) in
    let vm := with_IPC vm (PC vm) in
    let vm := with_GPR vm (set (GPR vm) 29 (get (S vm) 3)) in
    let vm :=
      with_S vm
        (set (S vm) 0
           (Z.ldiff (get (S vm) 0)
              (Z.lor (Z.lor StatusUserMode StatusInterrupts) StatusPaging))) in
    let off := add32 (get (S vm) 2) code in
    if MemorySize <=? off then (vm, Some ErrSIGSEGV)
    else (with_PC vm (get (M vm) off), None).

(** [strings.HasSuffix] *)
Definition HasSuffix (s suffix : string) : bool :=
  let n := String.length s in
  let m := String.length suffix in
  (m <=? n)%nat && String.eqb (substring (n - m) m s) suffix.

(** [SerialTTY.InterruptPending]: send the pending byte, receive one if
    the input register is free, and report whether either flag is set. *)
Definition InterruptPending (tty : SerialTTY) (env : Env)
  : SerialTTY * bool * option error :=
  let io_error (tty : SerialTTY) (text : string) :=
    if HasSuffix text "i/o timeout" then (tty, false, None)
    else (tty, false, Some (Errorf ErrTTYDetach text)) in
  let receive (tty : SerialTTY) :=
    if Z.land (tty_statr tty) TTYIn =? 0 then
      match conn_read env with
      | inr text => io_error tty text
      | inl c =>
          let tty :=
            {| tty_inr := c; tty_outr := tty_outr tty;
               tty_statr := Z.lor (tty_statr tty) TTYIn |} in
          (tty, negb (Z.land (tty_statr tty) (Z.lor TTYIn TTYOut) =? 0), None)
      end
    else (tty, negb (Z.land (tty_statr tty) (Z.lor TTYIn TTYOut) =? 0), None) in
  if negb (Z.land (tty_statr tty) TTYOut =? 0) then
    match conn_write env with
    | Some text => io_error tty text
    | None =>
        receive {| tty_inr := tty_inr tty; tty_outr := tty_outr tty;
                   tty_statr := Z.ldiff (tty_statr tty) TTYOut |}
    end
  else receive tty.

(** [time.Time.Sub], saturating like [time.Duration], and
    [Duration.Milliseconds]. *)
Definition Sub (t u : Z) : Z := Z.max (- 2 ^ 63) (Z.min (2 ^ 63 - 1) (t - u)).
Definition Milliseconds (d : Z) : Z := Z.quot d 1000000.

(** [MaybeInterrupt], block by block. The clock block: the state with
    [LTR] updated, and whether the clock fires. *)
Definition poll_clock (vm : VM) (env : Env) : VM * bool :=
  if 0 <? CF vm then
    let vm := if LTR vm =? 0 then with_LTR vm (now env) else vm in
    if CF vm <=? Milliseconds (Sub (now env) (LTR vm))
    then (with_LTR vm (now env), true)
    else (vm, false)
  else (vm, false).

(** The TTY block: the state with the device polled, and its answer. *)
Definition poll_tty (vm : VM) (env : Env) : VM * bool * option error :=
  match TTY vm with
  | Some tty =>
      let '(tty, ok, err) := InterruptPending tty env in
      (with_TTY vm (Some tty), ok, err)
  | None => (vm, false, None)
  end.

(** [MaybeInterrupt]: nothing with interrupts disabled; else the clock
    first, then the TTY. *)
Definition MaybeInterrupt (vm : VM) (env : Env) : VM * option error :=
  if Z.land (get (S vm) 0) StatusInterrupts =? 0 then (vm, None)
  else
    let '(vm, fired) := poll_clock vm env in
    if fired then Interrupt vm IrqClock
    else
      let '(vm, ok, err) := poll_tty vm env in
      match err with
      | Some err => (vm, Some err)
      | None => if ok then Interrupt vm IrqTTY else (vm, None)
      end.

(** What the poll of [MaybeInterrupt] comes to in a state: nothing, an
    interrupt request to deliver, or the TTY's error. *)
Inductive poll :=
| Quiet
| Raise (irq : Z)
| Fail (err : error).

Definition poll_outcome (vm : VM) (env : Env) : poll :=
  if Z.land (get (S vm) 0) StatusInterrupts =? 0 then Quiet
  else
    let '(vm, fired) := poll_clock vm env in
    if fired then Raise IrqClock
    else
      let '(_, ok, err) := poll_tty vm env in
      match err with
      | Some err => Fail err
      | None => if ok then Raise IrqTTY else Quiet
      end.

Definition raises (p : poll) : bool :=
  match p with Raise _ => true | _ => false end.

(** The switch of [Execute] on the opcode: the state it leaves, and the
    error of a case that returns early ([None] when control reaches the
    poll after the switch). *)
Definition Execute_switch (vm : VM) (ci : Z) : VM * option error :=
  let '(opcode, ra, rb, rc, imm17, imm22) := Decode ci in
  if opcode =? OpcodeJALR then
    if negb (ra =? 0) || negb (rb =? 0) then
      let vm := with_GPR vm (set (GPR vm) ra (PC vm)) in
      let vm := with_PC vm (get (GPR vm) rb) in
      (vm, None)
    else if Z.land (get (S vm) 0) StatusInterrupts =? 0 then
      (vm, Some ErrHalted)
    else Interrupt vm imm17
  else if opcode =? OpcodeADD then
    (with_GPR vm (set (GPR vm) ra (add32 (get (GPR vm) rb) (get (GPR vm) rc))),
     None)
  else if opcode =? OpcodeADDI then
    (with_GPR vm (set (GPR vm) ra (add32 (get (GPR vm) rb) imm17)), None)
  else if opcode =? OpcodeNAND then
    (with_GPR vm
       (set (GPR vm) ra (not32 (Z.land (get (GPR vm) rb) (get (GPR vm) rc)))),
     None)
  else if opcode =? OpcodeLUI then
    (with_GPR vm (set (GPR vm) ra (shl32 imm22 10)), None)
  else if (opcode =? OpcodeSW) || (opcode =? OpcodeLW) then
    let off := add32 (get (GPR vm) rb) imm17 in
    let flags := 0 in
    let flags :=
      if opcode =? OpcodeSW then Z.lor flags MemoryWrite
      else if opcode =? OpcodeLW then Z.lor flags MemoryRead
      else flags in
    match Memory vm off flags with
    | inr err => (vm, Some err)
    | inl mptr =>
        if opcode =? OpcodeSW then (store vm mptr (get (GPR vm) ra), None)
        else if opcode =? OpcodeLW
             then (with_GPR vm (set (GPR vm) ra (load vm mptr)), None)
             else (vm, None)
    end
  else if opcode =? OpcodeBEQ then
    if get (GPR vm) ra =? get (GPR vm) rb
    then (with_PC vm (add32 (PC vm) imm17), None)
    else (vm, None)
  else if (opcode =? OpcodeWSR) || (opcode =? OpcodeRSR) then
    if negb (Z.land (get (S vm) 0) StatusUserMode =? 0) then
      (vm, Some ErrNotPermitted)
    else if NumStatusRegisters <=? imm22 then (vm, Some ErrNotPermitted)
    else if opcode =? OpcodeWSR
    then (with_S vm (set (S vm) imm22 (get (GPR vm) ra)), None)
    else if opcode =? OpcodeRSR
    then (with_GPR vm (set (GPR vm) ra (get (S vm) imm22)), None)
    else (vm, None)
  else if opcode =? OpcodeIRET then
    if negb (Z.land (get (S vm) 0) StatusUserMode =? 0) then
      (vm, Some ErrNotPermitted)
    else
      let vm := with_S vm (set (S vm) 0 (IS0 vm)) in
      let vm := with_GPR vm (set (GPR vm) 29 (ISP vm)) in
      let vm := with_PC vm (IPC vm) in
      (vm, None)
  else (vm, None).

(** [Execute]: the switch, then [return vm.MaybeInterrupt()]; the deferred
    [vm.GPR[0] = 0] runs last, on every return. *)
Definition Execute (vm : VM) (ci : Z) (env : Env) : VM * option error :=
  let '(vm, err) :=
    match Execute_switch vm ci with
    | (vm, Some err) => (vm, Some err)
    | (vm, None) => MaybeInterrupt vm env
    end in
  (with_GPR vm (set (GPR vm) 0 0), err).

(** An address that [Memory] serves from a device register: the clock's
    always, the TTY's three when a TTY is attached. *)
Definition is_mmio (vm : VM) (off : Z) : bool :=
  (off =? MMClockFrequency)
  || (attached vm
      && ((off =? MMTTYStatus) || (off =? MMTTYIn) || (off =? MMTTYOut))).

(** Two states that differ at most in [LTR] and in the TTY, the two
    things that a poll which delivers nothing may touch. *)
Definition same_core (a b : VM) : Prop :=
  CF a = CF b /\ GPR a = GPR b /\ IPC a = IPC b /\ IS0 a = IS0 b /\
  ISP a = ISP b /\ M a = M b /\ PC a = PC b /\ S a = S b.

(** [Disassemble] *)
Definition Disassemble (ci : Z) : string :=
  let '(opcode, ra, rb, rc, imm17, imm22) := Decode ci in
  let d := strconv.FormatInt in
  if opcode =? OpcodeADD then "add r" +:+ d ra +:+ " r" +:+ d rb +:+ " r" +:+ d rc
  else if opcode =? OpcodeADDI
  then "addi r" +:+ d ra +:+ " r" +:+ d rb +:+ " " +:+ d (to_int32 imm17)
  else if opcode =? OpcodeNAND
  then "nand r" +:+ d ra +:+ " r" +:+ d rb +:+ " r" +:+ d rc
  else if opcode =? OpcodeLUI then "lui r" +:+ d ra +:+ " " +:+ d imm22
  else if opcode =? OpcodeSW
  then "sw r" +:+ d ra +:+ " r" +:+ d rb +:+ " " +:+ d (to_int32 imm17)
  else if opcode =? OpcodeLW
  then "lw r" +:+ d ra +:+ " r" +:+ d rb +:+ " " +:+ d (to_int32 imm17)
  else if opcode =? OpcodeBEQ
  then "beq r" +:+ d ra +:+ " r" +:+ d rb +:+ " " +:+ d (to_int32 imm17)
  else if opcode =? OpcodeJALR
  then "jalr r" +:+ d ra +:+ " r" +:+ d rb +:+ " " +:+ d (to_int32 imm17)
  else if opcode =? OpcodeWSR then "wsr r" +:+ d ra +:+ " " +:+ d imm22
  else if opcode =? OpcodeRSR then "rsr r" +:+ d ra +:+ " " +:+ d imm22
  else if opcode =? OpcodeIRET then "iret"
  else "<unknown instruction: " +:+ d ci +:+ ">".

End vm.

(** ** The interpreter's loop ([cmd/interp]): load the assembled words
    from address 0 (a program longer than the memory array stops the
    loader with Go's index panic), then fetch and execute until an error;
    [ErrHalted] ends the run normally, any other error is fatal. [envs i]
    is what the world answers during the [i]-th instruction. *)
Module interp.

Fixpoint load_words (out : list asm.InstructionOrError) (addr : Z)
    (machine : vm.VM) : vm.VM + asm.error :=
  match out with
  | [] => inl machine
  | instr :: out =>
      match asm.ioe_Error instr with
      | Some err => inr err
      | None =>
          if vm.MemorySize <=? addr
          then inr (asm.Panic "index out of range")
          else
            load_words out (add32 addr 1)
              (vm.with_M machine
                 (set (vm.M machine) addr (asm.ioe_Instruction instr)))
      end
  end.

Inductive outcome :=
| Halted
| Fatal (err : vm.error)
| Running.

Fixpoint run (fuel : nat) (step : nat) (envs : nat -> vm.Env)
    (machine : vm.VM) : vm.VM * outcome :=
  match fuel with
  | O => (machine, Running)
  | Datatypes.S fuel =>
      match vm.Fetch machine with
      | (machine, inr err) => (machine, Fatal err)
      | (machine, inl ci) =>
          match vm.Execute machine ci (envs step) with
          | (machine, Some err) =>
              if vm.errors_Is err vm.ErrHalted then (machine, Halted)
              else (machine, Fatal err)
          | (machine, None) => run fuel (Datatypes.S step) envs machine
          end
      end
  end.

End interp.

(** ** The CPU before hardware interrupts (the revision of [pkg/vm/vm.go]
    in which the only interrupt is the software trap of JALR)

    The opcode table stops at RSR, there is no clock and no TTY, and the
    trap saves the state in [r26] and [r27] and swaps [r29] with S[3].
    [Decode] and the error values are those of the later revision. *)
Module vm_trap.

Definition OpcodeJALR : Z := 0.
Definition OpcodeADD : Z := 1.
Definition OpcodeADDI : Z := 2.
Definition OpcodeNAND : Z := 3.
Definition OpcodeLUI : Z := 4.
Definition OpcodeSW : Z := 5.
Definition OpcodeLW : Z := 6.
Definition OpcodeBEQ : Z := 7.
Definition OpcodeWSR : Z := 8.
Definition OpcodeRSR : Z := 9.

Definition MemorySize : Z := Z.shiftl 1 20.
Definition NumStatusRegisters : Z := 4.

Definition StatusUserMode : Z := 1.
Definition StatusPaging : Z := 2.
Definition StatusInterrupts : Z := 4.

Definition MemoryExec : Z := 1.
Definition MemoryWrite : Z := 2.
Definition MemoryRead : Z := 4.

Record VM := {
  GPR : gmap Z Z;
  M : gmap Z Z;
  PC : Z;
  S : gmap Z Z;
}.

Definition with_GPR (vm : VM) (v : gmap Z Z) : VM :=
  {| GPR := v; M := M vm; PC := PC vm; S := S vm |}.
Definition with_M (vm : VM) (v : gmap Z Z) : VM :=
  {| GPR := GPR vm; M := v; PC := PC vm; S := S vm |}.
Definition with_PC (vm : VM) (v : Z) : VM :=
  {| GPR := GPR vm; M := M vm; PC := v; S := S vm |}.
Definition with_S (vm : VM) (v : gmap Z Z) : VM :=
  {| GPR := GPR vm; M := M vm; PC := PC vm; S := v |}.

(** [Memory]: paging, then the bound; the result is the cell's address. *)
Definition Memory (vm : VM) (off flags : Z) : Z + vm.error :=
  let paged : Z + vm.error :=
    if negb (Z.land (get (S vm) 0) StatusPaging =? 0) then
      if negb (Z.land (get (S vm) 1) 1023 =? 0) then
        inr (vm.Errorf vm.ErrSIGSEGV "invalid page table base address")
      else
        let pageid := Z.shiftr off 10 in
        let pageoff := add32 (get (S vm) 1) pageid in
        if MemorySize <=? pageoff then
          inr (vm.Errorf vm.ErrSIGSEGV "page entry above physical memory")
        else
          let pageinfo := get (M vm) pageoff in
          let pageflags := Z.land pageinfo 127 in
          if negb (Z.land pageflags flags =? flags) then
            inr (vm.Errorf vm.ErrNotPermitted "memory flags mismatch")
          else
            let membase := Z.land pageinfo 4294966272 in
            let memoff := Z.land off 1023 in
            inl (add32 membase memoff)
    else inl off in
  match paged with
  | inr err => inr err
  | inl off => if MemorySize <=? off then inr vm.ErrSIGSEGV else inl off
  end.

(** [Fetch] *)
Definition Fetch (vm : VM) : VM * (Z + vm.error) :=
  match Memory vm (PC vm) (Z.lor MemoryRead MemoryExec) with
  | inr err => (vm, inr err)
  | inl ci =>
      let vm' := with_PC vm (add32 (PC vm) 1) in (vm', inl (get (M vm') ci))
  end.

(** The switch of [Execute]; every case that does not return an error
    ends in [return nil]. *)
Definition Execute_switch (vm : VM) (ci : Z) : VM * option vm.error :=
  let '(opcode, ra, rb, rc, imm17, imm22) := vm.Decode ci in
  if opcode =? OpcodeJALR then
    if negb (ra =? 0) || negb (rb =? 0) then
      let vm := with_GPR vm (set (GPR vm) ra (PC vm)) in
      let vm := with_PC vm (get (GPR vm) rb) in
      (vm, None)
    else if Z.land (get (S vm) 0) StatusInterrupts =? 0 then
      (vm, Some vm.ErrHalted)
    else if negb (Z.land (get (S vm) 2) 1023 =? 0) then
      (vm, Some (vm.Errorf vm.ErrSIGSEGV
                   "invalid interrupt table base address"))
    else if negb (Z.land (get (S vm) 3) 1023 =? 0) then
      (vm, Some (vm.Errorf vm.ErrSIGSEGV
                   "invalid interrupt stack base address"))
    else
      let imm17 := if (imm17 <? 0) || (16 <=? imm17) then 0 else imm17 in
      let vm := with_GPR vm (set (GPR vm) 26 (get (S vm) 0)) in
      let vm := with_GPR vm (set (GPR vm) 27 (PC vm)) in
      let '(s3, r29) := (get (GPR vm) 29, get (S vm) 3) in
      let vm := with_S vm (set (S vm) 3 s3) in
      let vm := with_GPR vm (set (GPR vm) 29 r29) in
      let vm :=
        with_S vm
          (set (S vm) 0
             (Z.ldiff (get (S vm) 0)
                (Z.lor (Z.lor StatusUserMode StatusInterrupts) StatusPaging))) in
      let off := add32 (get (S vm) 2) imm17 in
      if MemorySize <=? off then (vm, Some vm.ErrSIGSEGV)
      else (with_PC vm (get (M vm) off), None)
  else if opcode =? OpcodeADD then
    (with_GPR vm (set (GPR vm) ra (add32 (get (GPR vm) rb) (get (GPR vm) rc))),
     None)
  else if opcode =? OpcodeADDI then
    (with_GPR vm (set (GPR vm) ra (add32 (get (GPR vm) rb) imm17)), None)
  else if opcode =? OpcodeNAND then
    (with_GPR vm
       (set (GPR vm) ra (not32 (Z.land (get (GPR vm) rb) (get (GPR vm) rc)))),
     None)
  else if opcode =? OpcodeLUI then
    (with_GPR vm (set (GPR vm) ra (shl32 imm22 10)), None)
  else if (opcode =? OpcodeSW) || (opcode =? OpcodeLW) then
    let off := add32 (get (GPR vm) rb) imm17 in
    let flags := 0 in
    let flags :=
      if opcode =? OpcodeSW then Z.lor flags MemoryWrite
      else if opcode =? OpcodeLW then Z.lor flags MemoryRead
      else flags in
    match Memory vm off flags with
    | inr err => (vm, Some err)
    | inl mptr =>
        if opcode =? OpcodeSW
        then (with_M vm (set (M vm) mptr (get (GPR vm) ra)), None)
        else if opcode =? OpcodeLW
             then (with_GPR vm (set (GPR vm) ra (get (M vm) mptr)), None)
             else (vm, None)
    end
  else if opcode =? OpcodeBEQ then
    if get (GPR vm) ra =? get (GPR vm) rb
    then (with_PC vm (add32 (PC vm) imm17), None)
    else (vm, None)
  else if (opcode =? OpcodeWSR) || (opcode =? OpcodeRSR) then
    if negb (Z.land (get (S vm) 0) StatusUserMode =? 0) then
      (vm, Some vm.ErrNotPermitted)
    else if NumStatusRegisters <=? imm22 then (vm, Some vm.ErrNotPermitted)
    else if opcode =? OpcodeWSR
    then (with_S vm (set (S vm) imm22 (get (GPR vm) ra)), None)
    else if opcode =? OpcodeRSR
    then (with_GPR vm (set (GPR vm) ra (get (S vm) imm22)), None)
    else (vm, None)
  else (vm, None).

(** [Execute]: the switch, then the deferred [vm.GPR[0] = 0]. *)
Definition Execute (vm : VM) (ci : Z) : VM * option vm.error :=
  let '(vm, err) := Execute_switch vm ci in
  (with_GPR vm (set (GPR vm) 0 0), err).

End vm_trap.

(** ** Decoding a word and assembling it again

    [Reassemble ci] is the assembler's instruction for the operation and
    the fields that the CPU decodes from [ci]: the mnemonic by the CPU's
    opcode table, registers by number, and immediates as [Disassemble]
    prints them (a 17-bit immediate as the decimal of [int32(imm17)], a
    22-bit one as its decimal). The assembler has no instruction type for
    [iret]. [Reencode] then runs the encoder. *)
Definition valid_instruction (ci : Z) : bool :=
  vm.DecodeOpcode ci <=? vm.OpcodeIRET.

Definition Reassemble (ci : Z) : option asm.Instruction :=
  let '(opcode, ra, rb, rc, imm17, imm22) := vm.Decode ci in
  let d := strconv.FormatInt in
  if opcode =? vm.OpcodeJALR then Some (asm.InstructionJALR 0 None ra rb)
  else if opcode =? vm.OpcodeADD then Some (asm.InstructionADD 0 None ra rb rc)
  else if opcode =? vm.OpcodeADDI
  then Some (asm.InstructionADDI 0 None ra rb (d (to_int32 imm17)))
  else if opcode =? vm.OpcodeNAND
  then Some (asm.InstructionNAND 0 None ra rb rc)
  else if opcode =? vm.OpcodeLUI then Some (asm.InstructionLUI 0 None ra (d imm22))
  else if opcode =? vm.OpcodeSW
  then Some (asm.InstructionSW 0 None ra rb (d (to_int32 imm17)))
  else if opcode =? vm.OpcodeLW
  then Some (asm.InstructionLW 0 None ra rb (d (to_int32 imm17)))
  else if opcode =? vm.OpcodeBEQ
  then Some (asm.InstructionBEQ 0 None ra rb (d (to_int32 imm17)))
  else if opcode =? vm.OpcodeWSR then Some (asm.InstructionWSR 0 None ra (d imm22))
  else if opcode =? vm.OpcodeRSR then Some (asm.InstructionRSR 0 None ra (d imm22))
  else None.

Definition Reencode (ci : Z) (labels : gmap string Z) (pc : Z)
  : option (Z + asm.error) :=
  (fun ia => asm.Encode ia labels pc) <$> Reassemble ci.

(** ** Programs and machines to run the statements on *)

(** [addi r1 r0 6; addi r2 r0 7; add r3 r1 r2; halt] *)
Definition sum_program : list asm.Instruction :=
  [asm.InstructionADDI 1 None 1 0 "6";
   asm.InstructionADDI 2 None 2 0 "7";
   asm.InstructionADD 3 None 3 1 2;
   asm.InstructionHALT 4 None].

(** A call: [addi r1 r0 _main; jalr r31 r1; halt; _main: addi r2 r0 7;
    jalr r0 r31]. *)
Definition call_program : list asm.Instruction :=
  [asm.InstructionADDI 1 None 1 0 "_main";
   asm.InstructionJALR 2 None 31 1;
   asm.InstructionHALT 3 None;
   asm.InstructionADDI 4 (Some "_main"%string) 2 0 "7";
   asm.InstructionJALR 5 None 0 31].

(** A kernel set up as in the repository's interrupt examples: the vector
    table at 1024 with the handler of interrupt 1 at 4096, where an [iret]
    sits; the interrupt stack at 2048; user mode with interrupts enabled;
    a clock of 2000 ms that last fired 1 ms ago, and a TTY with nothing to
    send. *)
Definition entry_state : vm.VM :=
  {| vm.CF := 2000; vm.GPR := set ∅ 29 999; vm.IPC := 0; vm.IS0 := 0;
     vm.ISP := 0; vm.LTR := 999000000;
     vm.M := set (set ∅ 1025 4096) 4096 1342177280; vm.PC := 77;
     vm.S := set (set (set ∅ 0 5) 2 1024) 3 2048;
     vm.TTY := Some {| vm.tty_inr := 0; vm.tty_outr := 0; vm.tty_statr := 0 |} |}.

(** A moment at which no byte arrives on the TTY's connection. *)
Definition quiet_env : vm.Env :=
  {| vm.now := 1000000000; vm.conn_write := None;
     vm.conn_read := inr "read tcp 127.0.0.1:4000: i/o timeout" |}.

(** A vector table placed at the very end of the address space. *)
Definition vector_out_of_range : vm.VM :=
  {| vm.CF := 0; vm.GPR := set ∅ 29 999; vm.IPC := 0; vm.IS0 := 0;
     vm.ISP := 0; vm.LTR := 0; vm.M := ∅; vm.PC := 77;
     vm.S := set (set ∅ 0 5) 2 1048576; vm.TTY := None |}.

(** The page table of [testdata/paging.asm]: the table at 1024, page 0
    mapped onto itself as [r-x], page 1 mapped to page 10 as [rw-], and
    paging on. *)
Definition paged_state : vm.VM :=
  {| vm.CF := 0; vm.GPR := ∅; vm.IPC := 0; vm.IS0 := 0; vm.ISP := 0;
     vm.LTR := 0; vm.M := set (set ∅ 1024 5) 1025 10246; vm.PC := 20;
     vm.S := set (set ∅ 0 2) 1 1024; vm.TTY := None |}.

Definition paged_state_trap : vm_trap.VM :=
  {| vm_trap.GPR := ∅; vm_trap.M := set (set ∅ 1024 5) 1025 10246;
     vm_trap.PC := 20; vm_trap.S := set (set ∅ 0 2) 1 1024 |}.

(** * Properties *)

(** ** Masks, shifts and disjoint bit fields as arithmetic *)

Ltac pow2 :=
  repeat match goal with
    | |- context [2 ^ ?k] =>
        let v := eval vm_compute in (2 ^ k) in change (2 ^ k) with v
    | H : context [2 ^ ?k] |- _ =>
        let v := eval vm_compute in (2 ^ k) in change (2 ^ k) with v in H
    end.

(** Linear goals over [/] and [mod] by constants. *)
Ltac divmod := pow2; Z.div_mod_to_equations; lia.

Lemma land_mask (x k : Z) : 0 <= k -> Z.land x (2 ^ k - 1) = x mod 2 ^ k.
Proof.
  intros Hk. rewrite <- Z.land_ones by lia. f_equal.
  rewrite Z.ones_equiv. lia.
Qed.

Lemma land_disjoint (k a b : Z) :
  0 <= k -> a mod 2 ^ k = 0 -> 0 <= b < 2 ^ k -> Z.land a b = 0.
Proof.
  intros Hk Ha Hb. apply Z.bits_inj'. intros n Hn.
  rewrite Z.land_spec, Z.bits_0.
  destruct (Z.lt_ge_cases n k) as [Hlt | Hge].
  - replace (Z.testbit a n) with false; [reflexivity |].
    symmetry. rewrite <- (Z.mod_pow2_bits_low a k n) by lia.
    rewrite Ha. apply Z.bits_0.
  - replace (Z.testbit b n) with false; [apply andb_false_r |].
    symmetry. rewrite <- (Z.mod_small b (2 ^ k)) by lia.
    apply Z.mod_pow2_bits_high. lia.
Qed.

Lemma lor_disjoint_add (k a b : Z) :
  0 <= k -> a mod 2 ^ k = 0 -> 0 <= b < 2 ^ k -> Z.lor a b = a + b.
Proof.
  intros Hk Ha Hb. pose proof (land_disjoint k a b Hk Ha Hb) as Hland.
  rewrite <- Z.lxor_lor by exact Hland.
  symmetry. apply Z.add_nocarry_lxor. exact Hland.
Qed.

(** The word that the encoders build from an opcode, two registers and
    the low 17 bits. *)
Lemma pack_fields (op ra rb lo : Z) :
  0 <= op < 32 -> 0 <= ra < 32 -> 0 <= rb < 32 -> 0 <= lo < 2 ^ 17 ->
  Z.lor (Z.lor (Z.lor (Z.lor 0 (shl32 op 27)) (shl32 ra 22)) (shl32 rb 17)) lo
  = op * 2 ^ 27 + ra * 2 ^ 22 + rb * 2 ^ 17 + lo.
Proof.
  intros Hop Hra Hrb Hlo. unfold shl32, wrap32.
  rewrite !Z.shiftl_mul_pow2 by lia. rewrite Z.lor_0_l.
  rewrite !Z.mod_small by (pow2; lia).
  rewrite (lor_disjoint_add 27 (op * 2 ^ 27) (ra * 2 ^ 22)) by (lia || divmod).
  rewrite (lor_disjoint_add 22 _ (rb * 2 ^ 17)) by (lia || divmod).
  rewrite (lor_disjoint_add 17 _ lo) by (lia || divmod).
  reflexivity.
Qed.

(** The same for an opcode, one register and the low 22 bits. *)
Lemma pack_fields_RI (op ra lo : Z) :
  0 <= op < 32 -> 0 <= ra < 32 -> 0 <= lo < 2 ^ 22 ->
  Z.lor (Z.lor (Z.lor 0 (shl32 op 27)) (shl32 ra 22)) lo
  = op * 2 ^ 27 + ra * 2 ^ 22 + lo.
Proof.
  intros Hop Hra Hlo. unfold shl32, wrap32.
  rewrite !Z.shiftl_mul_pow2 by lia. rewrite Z.lor_0_l.
  rewrite !Z.mod_small by (pow2; lia).
  rewrite (lor_disjoint_add 27 (op * 2 ^ 27) (ra * 2 ^ 22)) by (lia || divmod).
  rewrite (lor_disjoint_add 22 _ lo) by (lia || divmod).
  reflexivity.
Qed.

Lemma land_31_range (x : Z) : 0 <= Z.land x 31 < 32.
Proof. change 31 with (2 ^ 5 - 1). rewrite land_mask by lia. divmod. Qed.

Lemma DecodeOpcode_packed (op rest : Z) :
  0 <= op < 32 -> 0 <= rest < 2 ^ 27 ->
  vm.DecodeOpcode (op * 2 ^ 27 + rest) = op.
Proof.
  intros Hop Hrest. unfold vm.DecodeOpcode.
  rewrite Z.shiftr_div_pow2 by lia.
  change 31 with (2 ^ 5 - 1). rewrite land_mask by lia. divmod.
Qed.

(** Bit 16 of a 17-bit value. *)
Lemma land_bit16 (x : Z) :
  0 <= x < 2 ^ 17 -> Z.land x 65536 = if x <? 65536 then 0 else 65536.
Proof.
  intros Hx. destruct (Z.ltb_spec x 65536) as [Hlt | Hge].
  - rewrite Z.land_comm.
    apply (land_disjoint 16); [lia | reflexivity | pow2; lia].
  - replace x with (65536 + (x - 65536)) by lia.
    rewrite <- (lor_disjoint_add 16) by (lia || reflexivity || (pow2; lia)).
    rewrite Z.land_lor_distr_l.
    rewrite (Z.land_comm (x - 65536)).
    rewrite (land_disjoint 16 65536 (x - 65536))
      by (lia || reflexivity || (pow2; lia)).
    reflexivity.
Qed.

(** [int32(DecodeImm17(ci))] is the 17-bit field read in two's complement. *)
Lemma DecodeImm17_signed (ci : Z) :
  to_int32 (vm.DecodeImm17 ci)
  = if ci mod 2 ^ 17 <? 2 ^ 16 then ci mod 2 ^ 17 else ci mod 2 ^ 17 - 2 ^ 17.
Proof.
  unfold vm.DecodeImm17, vm.SignExtend17.
  change 131071 with (2 ^ 17 - 1). rewrite land_mask by lia.
  assert (Hx : 0 <= ci mod 2 ^ 17 < 2 ^ 17) by (apply Z.mod_pos_bound; lia).
  rewrite land_bit16 by exact Hx. change (2 ^ 16) with 65536.
  destruct (Z.ltb_spec (ci mod 2 ^ 17) 65536) as [Hlt | Hge]; cbn [Z.eqb negb].
  - unfold to_int32. pow2. destruct (Z.ltb_spec (ci mod 131072) 2147483648); lia.
  - rewrite Z.lor_comm.
    rewrite (lor_disjoint_add 17) by (lia || reflexivity || exact Hx).
    unfold to_int32. pow2.
    destruct (Z.ltb_spec (4294836224 + ci mod 131072) 2147483648); lia.
Qed.

(** ** [ParseInt] reads back what [FormatInt] prints *)
Section ParseFormat.
Import strconv.

Lemma bytes_String (c : ascii) (s : string) :
  bytes (String c s) = Z.of_N (N_of_ascii c) :: bytes s.
Proof. reflexivity. Qed.

Lemma digit_char_byte (d : Z) :
  0 <= d < 10 -> Z.of_N (N_of_ascii (digit_char d)) = 48 + d.
Proof.
  intros H. unfold digit_char. rewrite N_ascii_embedding; lia.
Qed.

(** One decimal digit through the loop of [ParseUint]. *)
Lemma digits_loop_digit (d : Z) (cs : list Z) (n : Z) (u : bool) :
  0 <= d < 10 -> 0 <= n -> n * 10 + d <= maxUint64 ->
  digits_loop 10 ((48 + d) :: cs) n u = digits_loop 10 cs (n * 10 + d) u.
Proof.
  intros Hd Hn Hmax. unfold maxUint64 in *. cbn [digits_loop].
  replace (48 + d =? 95) with false by lia.
  replace ((48 <=? 48 + d) && (48 + d <=? 57)) with true
    by (symmetry; apply andb_true_intro; split; lia).
  replace (48 + d - 48) with d by lia.
  replace (10 <=? d) with false by lia.
  unfold maxUint64, wrap64.
  change (2 ^ 64 - 1) with 18446744073709551615 in *.
  change (18446744073709551615 / 10 + 1) with 1844674407370955162.
  replace (1844674407370955162 <=? n) with false by lia.
  change (2 ^ 64) with 18446744073709551616.
  rewrite (Z.mod_small (n * 10)) by lia.
  rewrite (Z.mod_small (n * 10 + d)) by lia.
  replace (n * 10 + d <? n * 10) with false by lia.
  replace (18446744073709551615 <? n * 10 + d) with false by lia.
  reflexivity.
Qed.

(** The [k] digits that [format_digits] writes in front of [acc] take the
    loop from [a] to [a * 10 ^ k + n], and the first of them is not a zero
    unless [n] is. *)
Lemma digits_loop_format (fuel : nat) :
  forall (n : Z) (acc : string) (a : Z) (u : bool),
    0 <= n < 10 ^ Z.of_nat fuel -> (0 < fuel)%nat -> 0 <= a ->
    exists k, 0 < k /\ n < 10 ^ k /\
      (a * 10 ^ k + n <= maxUint64 ->
       digits_loop 10 (bytes (format_digits fuel n acc)) a u
       = digits_loop 10 (bytes acc) (a * 10 ^ k + n) u) /\
      (0 < n -> exists d rest, 1 <= d < 10 /\
         bytes (format_digits fuel n acc) = (48 + d) :: rest).
Proof.
  induction fuel as [| fuel IH]; intros n acc a u Hn Hf Ha; [lia |].
  cbn [format_digits].
  destruct (Z.eqb_spec (n / 10) 0) as [Hq | Hq].
  - exists 1. assert (n < 10) by (Z.div_mod_to_equations; lia).
    repeat split; try lia.
    + intros Hmax.
      rewrite bytes_String, digit_char_byte by (Z.div_mod_to_equations; lia).
      rewrite digits_loop_digit; try lia.
      * f_equal. rewrite Z.mod_small by lia. lia.
      * Z.div_mod_to_equations; lia.
      * rewrite Z.mod_small by lia. lia.
    + intros Hpos. exists n, (bytes acc). split; [lia |].
      rewrite bytes_String, digit_char_byte by (Z.div_mod_to_equations; lia).
      rewrite Z.mod_small by lia. reflexivity.
  - assert (Hfuel : (0 < fuel)%nat).
    { destruct fuel; [| lia]. cbn in Hn. Z.div_mod_to_equations; lia. }
    assert (Hn' : 0 <= n / 10 < 10 ^ Z.of_nat fuel).
    { rewrite Nat2Z.inj_succ, Z.pow_succ_r in Hn by lia.
      Z.div_mod_to_equations; lia. }
    destruct (IH (n / 10) (String (digit_char (n mod 10)) acc) a u Hn' Hfuel Ha)
      as (k & Hk & Hhi & Hloop & Hhead).
    exists (k + 1).
    rewrite !Z.pow_add_r by lia. change (10 ^ 1) with 10.
    assert (0 < 10 ^ k) by (apply Z.pow_pos_nonneg; lia).
    assert (1 <= n / 10) by (Z.div_mod_to_equations; lia).
    repeat split.
    + lia.
    + Z.div_mod_to_equations; nia.
    + intros Hmax. rewrite Hloop by (Z.div_mod_to_equations; nia).
      rewrite bytes_String, digit_char_byte by (Z.div_mod_to_equations; lia).
      rewrite digits_loop_digit.
      * f_equal. Z.div_mod_to_equations; nia.
      * Z.div_mod_to_equations; lia.
      * Z.div_mod_to_equations; nia.
      * Z.div_mod_to_equations; nia.
    + intros _. apply Hhead. lia.
Qed.

Lemma ParseUint_format (n : Z) :
  0 < n <= maxUint64 ->
  ParseUint (bytes (format_digits 20 n EmptyString)) = (n, None).
Proof.
  intros Hn. unfold maxUint64 in Hn.
  destruct (digits_loop_format 20 n EmptyString 0 false)
    as (k & Hk & _ & Hloop & Hhead);
    [change (10 ^ Z.of_nat 20) with 100000000000000000000; lia | lia | lia |].
  destruct Hhead as (d & rest & Hd & Hbytes); [lia |].
  unfold ParseUint. rewrite Hbytes.
  replace (48 + d =? 48) with false by lia.
  rewrite <- Hbytes, Hloop by (unfold maxUint64; lia).
  reflexivity.
Qed.

(** Every 64-bit integer, printed in decimal, parses back to itself. *)
Lemma ParseInt_FormatInt (z : Z) :
  - 2 ^ 63 <= z < 2 ^ 63 -> ParseInt (FormatInt z) = inl z.
Proof.
  intros Hz. unfold FormatInt.
  destruct (Z.ltb_spec z 0) as [Hneg | Hpos].
  - unfold ParseInt. rewrite bytes_String.
    change (Z.of_N (N_of_ascii "-")) with 45.
    change (45 =? 45) with true. change ((45 =? 43) || true) with true.
    cbv iota.
    rewrite ParseUint_format by (unfold maxUint64; lia).
    replace (2 ^ 63 <? - z) with false by lia.
    cbn. f_equal. lia.
  - destruct (Z.eq_dec z 0) as [-> | Hnz]; [reflexivity |].
    unfold ParseInt.
    pose proof (ParseUint_format z) as HU.
    destruct (digits_loop_format 20 z EmptyString 0 false)
      as (k & _ & _ & _ & Hhead);
      [change (10 ^ Z.of_nat 20) with 100000000000000000000; lia | lia | lia |].
    destruct Hhead as (d & rest & Hd & Hbytes); [lia |].
    rewrite Hbytes in *.
    replace (48 + d =? 45) with false by lia.
    replace (48 + d =? 43) with false by lia.
    cbn [orb]. rewrite HU by (unfold maxUint64; lia).
    replace (2 ^ 63 <=? z) with false by lia.
    reflexivity.
Qed.

End ParseFormat.

(** ** The assembler's words, as the CPU decodes them *)

(** A literal operand resolves to its value, whatever the label table. *)
Lemma ResolveImmediate_literal (labels : gmap string Z) (name : string)
    (value bits lineno : Z) :
  strconv.ParseInt name = inl value ->
  asm.ResolveImmediate labels name bits lineno
  = asm.CastToUint32 value bits lineno.
Proof. intros H. unfold asm.ResolveImmediate. rewrite H. reflexivity. Qed.

(** The opcode field of an RRR or RRI word is the opcode that the encoder
    put there. *)
Lemma DecodeOpcode_fields (op ra rb lo : Z) :
  0 <= op < 32 -> 0 <= lo < 2 ^ 17 ->
  vm.DecodeOpcode
    (Z.lor (Z.lor (Z.lor (Z.lor 0 (shl32 (Z.land op 31) 27))
                     (shl32 (Z.land ra 31) 22))
              (shl32 (Z.land rb 31) 17)) lo) = op.
Proof.
  intros Hop Hlo.
  pose proof (land_31_range ra) as Hra. pose proof (land_31_range rb) as Hrb.
  replace (Z.land op 31) with op
    by (change 31 with (2 ^ 5 - 1); rewrite land_mask by lia; divmod).
  rewrite pack_fields by assumption.
  rewrite <- !Z.add_assoc. apply DecodeOpcode_packed; [assumption |].
  pow2. lia.
Qed.

Lemma DecodeOpcode_fields_RI (op ra lo : Z) :
  0 <= op < 32 -> 0 <= lo < 2 ^ 22 ->
  vm.DecodeOpcode
    (Z.lor (Z.lor (Z.lor 0 (shl32 (Z.land op 31) 27)) (shl32 (Z.land ra 31) 22))
       lo) = op.
Proof.
  intros Hop Hlo. pose proof (land_31_range ra) as Hra.
  replace (Z.land op 31) with op
    by (change 31 with (2 ^ 5 - 1); rewrite land_mask by lia; divmod).
  rewrite pack_fields_RI by assumption.
  rewrite <- !Z.add_assoc. apply DecodeOpcode_packed; [assumption |].
  pow2. lia.
Qed.

(** For [add], [addi], [nand], [sw], [lw] and [beq] the two opcode tables
    agree: the opcode field of the emitted word is the CPU's opcode for the
    operation. *)
Lemma Encode_opcode_agrees (l : Z) (lb : option string) (ra rb rc : Z)
    (imm : string) (labels : gmap string Z) (pc w : Z) :
  (asm.Encode (asm.InstructionADD l lb ra rb rc) labels pc = inl w ->
   vm.DecodeOpcode w = vm.OpcodeADD) /\
  (asm.Encode (asm.InstructionNAND l lb ra rb rc) labels pc = inl w ->
   vm.DecodeOpcode w = vm.OpcodeNAND) /\
  (asm.Encode (asm.InstructionADDI l lb ra rb imm) labels pc = inl w ->
   vm.DecodeOpcode w = vm.OpcodeADDI) /\
  (asm.Encode (asm.InstructionSW l lb ra rb imm) labels pc = inl w ->
   vm.DecodeOpcode w = vm.OpcodeSW) /\
  (asm.Encode (asm.InstructionLW l lb ra rb imm) labels pc = inl w ->
   vm.DecodeOpcode w = vm.OpcodeLW) /\
  (asm.Encode (asm.InstructionBEQ l lb ra rb imm) labels pc = inl w ->
   vm.DecodeOpcode w = vm.OpcodeBEQ).
Proof.
  assert (Hrc : 0 <= Z.land rc 31 < 2 ^ 17)
    by (pose proof (land_31_range rc); pow2; lia).
  assert (Himm : forall x, 0 <= Z.land x 131071 < 2 ^ 17).
  { intros x. change 131071 with (2 ^ 17 - 1). rewrite land_mask by lia.
    apply Z.mod_pos_bound. lia. }
  repeat split; cbn [asm.Encode]; intros H.
  - injection H as <-.
    apply DecodeOpcode_fields; [cbv; split; congruence | exact Hrc].
  - injection H as <-.
    apply DecodeOpcode_fields; [cbv; split; congruence | exact Hrc].
  - destruct (asm.ResolveImmediate labels imm 17 l); [| discriminate].
    injection H as <-.
    apply DecodeOpcode_fields; [cbv; split; congruence | apply Himm].
  - destruct (asm.ResolveImmediate labels imm 17 l); [| discriminate].
    injection H as <-.
    apply DecodeOpcode_fields; [cbv; split; congruence | apply Himm].
  - destruct (asm.ResolveImmediate labels imm 17 l); [| discriminate].
    injection H as <-.
    apply DecodeOpcode_fields; [cbv; split; congruence | apply Himm].
  - destruct (asm.ResolveImmediate labels imm 32 l); [| discriminate].
    destruct (asm.CastToUint32 _ 17 l); [| discriminate].
    injection H as <-.
    apply DecodeOpcode_fields; [cbv; split; congruence | apply Himm].
Qed.


(** An operand resolved as a 32-bit value, shifted right by 10, fits the
    22-bit field. *)
Lemma ResolveImmediate_high_bits (labels : gmap string Z) (imm : string)
    (l v : Z) :
  asm.ResolveImmediate labels imm 32 l = inl v -> 0 <= Z.shiftr v 10 < 2 ^ 22.
Proof.
  unfold asm.ResolveImmediate.
  assert (Hc : forall x, asm.CastToUint32 x 32 l = inl v -> 0 <= v < 2 ^ 32).
  { intros x. unfold asm.CastToUint32.
    repeat match goal with |- context [if ?b then _ else _] => destruct b end;
      try discriminate.
    intros [= <-]. apply Z.mod_pos_bound. lia. }
  intros H. assert (Hv : 0 <= v < 2 ^ 32).
  { destruct (strconv.ParseInt imm); [eapply Hc; eassumption |].
    destruct (labels !! imm); [eapply Hc; eassumption | discriminate]. }
  rewrite Z.shiftr_div_pow2 by lia. divmod.
Qed.

(** [lui] agrees as well; for [wsr] and [rsr] the table is shifted like
    for [jalr]: their words carry the opcodes on which the CPU runs RSR
    and IRET. *)
Lemma Encode_RI_opcodes (l : Z) (lb : option string) (ra : Z)
    (imm : string) (labels : gmap string Z) (pc w : Z) :
  (asm.Encode (asm.InstructionLUI l lb ra imm) labels pc = inl w ->
   vm.DecodeOpcode w = vm.OpcodeLUI) /\
  (asm.Encode (asm.InstructionWSR l lb ra imm) labels pc = inl w ->
   vm.DecodeOpcode w = vm.OpcodeRSR) /\
  (asm.Encode (asm.InstructionRSR l lb ra imm) labels pc = inl w ->
   vm.DecodeOpcode w = vm.OpcodeIRET).
Proof.
  repeat split; cbn [asm.Encode]; intros H;
    destruct (asm.ResolveImmediate labels imm 32 l) as [v |] eqn:Hv;
    try discriminate; injection H as <-.
  - apply (DecodeOpcode_fields_RI asm.OpcodeLUI);
      [cbv; split; congruence | eapply ResolveImmediate_high_bits; exact Hv].
  - apply (DecodeOpcode_fields_RI asm.OpcodeWSR);
      [cbv; split; congruence | eapply ResolveImmediate_high_bits; exact Hv].
  - apply (DecodeOpcode_fields_RI asm.OpcodeRSR);
      [cbv; split; congruence | eapply ResolveImmediate_high_bits; exact Hv].
Qed.

(** C2 (the code departs from the claim). For a status-register index
    [s] in 0..3, written as any literal that reads as [s], the encoders of
    [wsr rA s] and of [rsr rA s] emit [imm >> 10], which is 0: the 22-bit
    immediate field of the word is 0 whatever [s] is, not [s]. *)
Theorem Encode_wsr_rsr_imm22_zero (l : Z) (lb : option string) (ra : Z)
    (imm : string) (s : Z) (labels : gmap string Z) (pc : Z) :
  strconv.ParseInt imm = inl s ->
  0 <= s <= 3 ->
  (exists w, asm.Encode (asm.InstructionWSR l lb ra imm) labels pc = inl w /\
             vm.DecodeImm22 w = 0) /\
  (exists w, asm.Encode (asm.InstructionRSR l lb ra imm) labels pc = inl w /\
             vm.DecodeImm22 w = 0).
Proof.
  intros Hparse Hs.
  assert (Hres : asm.ResolveImmediate labels imm 32 l = inl s).
  { rewrite (ResolveImmediate_literal _ _ s) by exact Hparse.
    unfold asm.CastToUint32. cbn [Z.ltb Z.compare orb].
    replace ((s <? - 2 ^ (32 - 1)) || (2 ^ (32 - 1) - 1 <? s)) with false
      by (pow2; lia).
    unfold wrap32. rewrite Z.mod_small by (pow2; lia). reflexivity. }
  assert (Hshift : Z.shiftr s 10 = 0).
  { rewrite Z.shiftr_div_pow2 by lia. divmod. }
  assert (Hfield : forall op, 0 <= op < 32 ->
            vm.DecodeImm22
              (Z.lor (Z.lor (Z.lor 0 (shl32 (Z.land op 31) 27))
                        (shl32 (Z.land ra 31) 22)) 0) = 0).
  { intros op Hop. pose proof (land_31_range ra) as Hra.
    pose proof (land_31_range op) as Hop'.
    rewrite pack_fields_RI by (assumption || (pow2; lia)).
    unfold vm.DecodeImm22. change 4194303 with (2 ^ 22 - 1).
    rewrite land_mask by lia. divmod. }
  split; eexists; cbn [asm.Encode]; rewrite Hres, Hshift;
    (split; [reflexivity | apply Hfield; cbv; split; congruence]).
Qed.

(** At [wsr r1 2]: the word's immediate field is 0, so the CPU would write
    S[0] where the program names S[2]. *)
Lemma Encode_wsr_rsr_imm22_zero_witness :
  (exists w, asm.Encode (asm.InstructionWSR 7 None 1 "2") ∅ 6 = inl w /\
             vm.DecodeImm22 w = 0) /\
  (exists w, asm.Encode (asm.InstructionRSR 7 None 1 "2") ∅ 6 = inl w /\
             vm.DecodeImm22 w = 0).
Proof.
  apply (Encode_wsr_rsr_imm22_zero 7 None 1 "2" 2 ∅ 6); [reflexivity | lia].
Defined.

(** *** Two programs, assembled, loaded and run

    The sum runs to its [halt] with 13 in [r3]. *)
Example sum_program_halts :
  exists machine final,
    interp.load_words (asm.AssemblerAsync sum_program) 0 vm.new = inl machine /\
    interp.run 10 0 (fun _ => quiet_env) machine = (final, interp.Halted) /\
    vm.PC final = 4 /\ get (vm.GPR final) 3 = 13.
Proof.
  eexists. eexists. split; [reflexivity |].
  split; [vm_compute; reflexivity |]. split; reflexivity.
Qed.

(** The call does not: the CPU reads the word of [jalr r31 r1] as
    [wsr r31 131072] and stops it as not permitted, at the second
    instruction. *)
Example call_program_faults :
  exists machine final,
    map vm.Disassemble
      (map asm.ioe_Instruction (asm.AssemblerAsync call_program))
    = ["addi r1 r0 3"; "wsr r31 131072"; "jalr r0 r0 0"; "addi r2 r0 7";
       "wsr r0 4063232"]%string /\
    interp.load_words (asm.AssemblerAsync call_program) 0 vm.new = inl machine /\
    interp.run 10 0 (fun _ => quiet_env) machine
    = (final, interp.Fatal vm.ErrNotPermitted) /\
    vm.PC final = 2.
Proof.
  eexists. eexists. split; [vm_compute; reflexivity |].
  split; [reflexivity |]. split; [vm_compute; reflexivity | reflexivity].
Qed.

(** ** Decode, then encode again *)

(** The immediate of an RRI word, printed and resolved as a 17-bit
    operand, is the word's low 17 bits again. *)
Lemma ResolveImmediate_imm17 (labels : gmap string Z) (ci lineno : Z) :
  exists imm,
    asm.ResolveImmediate labels
      (strconv.FormatInt (to_int32 (vm.DecodeImm17 ci))) 17 lineno = inl imm /\
    Z.land imm 131071 = ci mod 2 ^ 17.
Proof.
  pose proof (DecodeImm17_signed ci) as Hv.
  assert (Hx : 0 <= ci mod 2 ^ 17 < 2 ^ 17) by (apply Z.mod_pos_bound; lia).
  set (v := to_int32 (vm.DecodeImm17 ci)) in *.
  assert (Hrange : - 2 ^ 16 <= v < 2 ^ 16).
  { rewrite Hv. destruct (Z.ltb_spec (ci mod 2 ^ 17) (2 ^ 16)); pow2; lia. }
  exists (wrap32 v). split.
  - rewrite (ResolveImmediate_literal _ _ v)
      by (apply ParseInt_FormatInt; pow2; lia).
    unfold asm.CastToUint32. cbn [Z.ltb Z.compare orb].
    replace ((v <? - 2 ^ (17 - 1)) || (2 ^ (17 - 1) - 1 <? v)) with false
      by (pow2; lia).
    reflexivity.
  - change 131071 with (2 ^ 17 - 1). rewrite land_mask by lia.
    unfold wrap32. rewrite Hv.
    destruct (Z.ltb_spec (ci mod 2 ^ 17) (2 ^ 16)); divmod.
Qed.

(** A word is its four RRI fields. *)
Lemma word_fields (ci : Z) :
  is_uint32 ci ->
  vm.DecodeOpcode ci * 2 ^ 27 + vm.DecodeRA ci * 2 ^ 22
  + vm.DecodeRB ci * 2 ^ 17 + ci mod 2 ^ 17 = ci.
Proof.
  unfold is_uint32, vm.DecodeOpcode, vm.DecodeRA, vm.DecodeRB. intros Hci.
  rewrite !Z.shiftr_div_pow2 by lia. change 31 with (2 ^ 5 - 1).
  rewrite !land_mask by lia. divmod.
Qed.

Lemma Decode_field_range (ci : Z) :
  0 <= vm.DecodeOpcode ci < 32 /\ 0 <= vm.DecodeRA ci < 32 /\
  0 <= vm.DecodeRB ci < 32 /\ 0 <= vm.DecodeRC ci < 32.
Proof. repeat split; apply land_31_range. Qed.

Lemma land_31_id (x : Z) : 0 <= x < 32 -> Z.land x 31 = x.
Proof.
  intros Hx. change 31 with (2 ^ 5 - 1). rewrite land_mask by lia. divmod.
Qed.


(** Where the two sides do not meet: [lui] takes the whole value as its
    operand and encodes its high 22 bits, and the all-zero word (the CPU's
    [jalr r0 r0], a halt) comes back with the assembler's opcode for
    [jalr]. *)
Example Reencode_lui_and_halt :
  Reencode (4 * 2 ^ 27 + 1 * 2 ^ 22 + 5) ∅ 0
  = Some (inl (4 * 2 ^ 27 + 1 * 2 ^ 22)) /\
  Reencode 0 ∅ 0 = Some (inl (8 * 2 ^ 27)) /\
  Reencode (10 * 2 ^ 27) ∅ 0 = None.
Proof. repeat split; reflexivity. Qed.


(** ** Reading and writing a register or memory array *)

Lemma get_set_eq (a : gmap Z Z) (i v : Z) : get (set a i v) i = v.
Proof. unfold get, set. rewrite lookup_insert_eq. reflexivity. Qed.

Lemma get_set_ne (a : gmap Z Z) (i j v : Z) :
  i <> j -> get (set a i v) j = get a j.
Proof.
  intros H. unfold get, set. rewrite lookup_insert_ne by exact H.
  reflexivity.
Qed.

(** ** Interrupt entry *)
Section CPU.
Import vm.

(** Clearing the three mode flags clears the low three bits. *)
Lemma ldiff_flags (x : Z) :
  Z.ldiff x (Z.lor (Z.lor StatusUserMode StatusInterrupts) StatusPaging)
  = 8 * (x / 8).
Proof.
  change (Z.lor (Z.lor StatusUserMode StatusInterrupts) StatusPaging)
    with (Z.ones 3).
  rewrite Z.ldiff_ones_r by lia.
  rewrite Z.shiftl_mul_pow2, Z.shiftr_div_pow2 by lia. pow2. lia.
Qed.

Lemma flags_cleared (x : Z) :
  let y :=
    Z.ldiff x (Z.lor (Z.lor StatusUserMode StatusInterrupts) StatusPaging) in
  Z.land y StatusUserMode = 0 /\ Z.land y StatusInterrupts = 0 /\
  Z.land y StatusPaging = 0.
Proof.
  cbv zeta. rewrite ldiff_flags.
  repeat split; apply (land_disjoint 3); try lia; try (cbv; split; congruence);
    rewrite Z.mul_comm; apply Z.mod_mul; pow2; lia.
Qed.

(** The three ways out of [Interrupt]: a misaligned table, a misaligned
    stack (the state untouched in both), or the state saved and switched,
    and then the vector read or found out of range. *)
Lemma Interrupt_inv (vm : VM) (code : Z) (vm' : VM) (err : option error) :
  Interrupt vm code = (vm', err) ->
  (Z.land (get (S vm) 2) 1023 <> 0 /\ vm' = vm /\
   err = Some (Errorf ErrSIGSEGV "invalid interrupt table base address")) \/
  (Z.land (get (S vm) 2) 1023 = 0 /\ Z.land (get (S vm) 3) 1023 <> 0 /\
   vm' = vm /\
   err = Some (Errorf ErrSIGSEGV "invalid interrupt stack base address")) \/
  (Z.land (get (S vm) 2) 1023 = 0 /\ Z.land (get (S vm) 3) 1023 = 0 /\
   let c := if 16 <=? code then IrqHALT else code in
   let saved :=
     {| CF := CF vm;
        GPR := set (GPR vm) 29 (get (S vm) 3);
        IPC := PC vm; IS0 := get (S vm) 0; ISP := get (GPR vm) 29;
        LTR := LTR vm; M := M vm; PC := PC vm;
        S := set (S vm) 0
               (Z.ldiff (get (S vm) 0)
                  (Z.lor (Z.lor StatusUserMode StatusInterrupts) StatusPaging));
        TTY := TTY vm |} in
   let off := add32 (get (S vm) 2) c in
   (MemorySize <= off /\ vm' = saved /\ err = Some ErrSIGSEGV \/
    off < MemorySize /\ vm' = with_PC saved (get (M vm) off) /\ err = None)).
Proof.
  unfold Interrupt.
  destruct (Z.eqb_spec (Z.land (get (S vm) 2) 1023) 0) as [H2 | H2]; cbn [negb].
  2: { intros [= <- <-]. left. auto. }
  destruct (Z.eqb_spec (Z.land (get (S vm) 3) 1023) 0) as [H3 | H3]; cbn [negb].
  2: { intros [= <- <-]. right. left. auto. }
  cbn [S with_IS0 with_ISP with_IPC with_GPR with_S GPR PC M CF LTR TTY
         IS0 ISP IPC].
  rewrite get_set_ne by lia.
  destruct (Z.leb_spec MemorySize
              (add32 (get (S vm) 2) (if 16 <=? code then IrqHALT else code)))
    as [Hoff | Hoff];
    intros [= <- <-]; right; right;
    (split; [exact H2 |]); (split; [exact H3 |]);
    cbv zeta; [left | right]; (split; [exact Hoff |]); split; reflexivity.
Qed.

(** C5. Whenever [Interrupt(code)] succeeds: IS0, ISP and IPC hold the old
    S[0], GPR[29] and PC; GPR[29] is S[3]; the UserMode, Interrupts and
    Paging bits of S[0] are clear; and PC is M[S[2] + c], where c is the
    code when it is below 16 and 0 otherwise. *)
Theorem Interrupt_entry (vm : VM) (code : Z) (vm' : VM) :
  is_uint32 code ->
  is_uint32 (get (S vm) 2) ->
  Interrupt vm code = (vm', None) ->
  IS0 vm' = get (S vm) 0 /\
  ISP vm' = get (GPR vm) 29 /\
  IPC vm' = PC vm /\
  get (GPR vm') 29 = get (S vm) 3 /\
  Z.land (get (S vm') 0) StatusUserMode = 0 /\
  Z.land (get (S vm') 0) StatusInterrupts = 0 /\
  Z.land (get (S vm') 0) StatusPaging = 0 /\
  PC vm' = get (M vm) (get (S vm) 2 + (if code <? 16 then code else 0)).
Proof.
  intros Hcode HS2 H.
  destruct (Interrupt_inv _ _ _ _ H)
    as [(_ & _ & [=]) | [(_ & _ & _ & [=]) | (H2 & H3 & Hcase)]].
  cbv zeta in Hcase. destruct Hcase as [(_ & _ & [=]) | (Hoff & -> & _)].
  cbn [with_PC IS0 ISP IPC GPR S PC].
  rewrite !get_set_eq.
  pose proof (flags_cleared (get (S vm) 0)) as (Hu & Hi & Hp).
  repeat split; try assumption.
  f_equal. unfold add32, wrap32, IrqHALT.
  change 1023 with (2 ^ 10 - 1) in H2. rewrite land_mask in H2 by lia.
  unfold is_uint32 in *.
  destruct (Z.leb_spec 16 code), (Z.ltb_spec code 16); try lia;
    apply Z.mod_small; divmod.
Qed.

(** At [entry_state], entering interrupt 1. *)
Lemma Interrupt_entry_witness :
  let vm' := fst (Interrupt entry_state 1) in
  IS0 vm' = 5 /\ ISP vm' = 999 /\ IPC vm' = 77 /\ get (GPR vm') 29 = 2048 /\
  Z.land (get (S vm') 0) StatusUserMode = 0 /\
  Z.land (get (S vm') 0) StatusInterrupts = 0 /\
  Z.land (get (S vm') 0) StatusPaging = 0 /\
  PC vm' = 4096.
Proof.
  apply (Interrupt_entry entry_state 1 (fst (Interrupt entry_state 1))).
  - unfold is_uint32. pow2. lia.
  - vm_compute. split; [discriminate | reflexivity].
  - reflexivity.
Defined.

(** ** The poll at the instruction boundary *)

Lemma poll_clock_core (vm : VM) (env : Env) :
  same_core (fst (poll_clock vm env)) vm.
Proof.
  unfold poll_clock, same_core.
  repeat match goal with
         | |- context [if ?b then _ else _] => destruct b
         end; cbn; repeat split; reflexivity.
Qed.

Lemma poll_tty_core (vm : VM) (env : Env) :
  same_core (fst (fst (poll_tty vm env))) vm.
Proof.
  unfold poll_tty, same_core. destruct (TTY vm) as [tty |].
  - destruct (InterruptPending tty env) as [[tty' ok] err]. cbn.
    repeat split; reflexivity.
  - cbn. repeat split; reflexivity.
Qed.

Lemma MaybeInterrupt_no_raise (vm : VM) (env : Env) :
  raises (poll_outcome vm env) = false ->
  same_core (fst (MaybeInterrupt vm env)) vm /\
  snd (MaybeInterrupt vm env)
  = match poll_outcome vm env with Fail err => Some err | _ => None end.
Proof.
  unfold MaybeInterrupt, poll_outcome.
  destruct (Z.land (get (S vm) 0) StatusInterrupts =? 0).
  { intros _. split; [| reflexivity]. cbn. repeat split; reflexivity. }
  pose proof (poll_clock_core vm env) as Hc.
  destruct (poll_clock vm env) as [vm1 fired]. cbn [fst] in Hc.
  destruct fired; [discriminate |].
  pose proof (poll_tty_core vm1 env) as Ht.
  destruct (poll_tty vm1 env) as [[vm2 ok] err]. cbn [fst] in Ht.
  assert (Hcore : same_core vm2 vm).
  { unfold same_core in *. intuition congruence. }
  destruct err as [err |]; [intros _; split; [exact Hcore | reflexivity] |].
  destruct ok; [discriminate |]. intros _. split; [exact Hcore | reflexivity].
Qed.

(** And when it raises an interrupt request, [MaybeInterrupt] is the entry
    into that interrupt. *)
Lemma MaybeInterrupt_raise (vm : VM) (env : Env) (irq : Z) :
  poll_outcome vm env = Raise irq ->
  exists vm1, same_core vm1 vm /\ MaybeInterrupt vm env = Interrupt vm1 irq.
Proof.
  unfold MaybeInterrupt, poll_outcome.
  destruct (Z.land (get (S vm) 0) StatusInterrupts =? 0); [discriminate |].
  pose proof (poll_clock_core vm env) as Hc.
  destruct (poll_clock vm env) as [vm1 fired]. cbn [fst] in Hc.
  destruct fired; [intros [= <-]; exists vm1; split; [exact Hc | reflexivity] |].
  pose proof (poll_tty_core vm1 env) as Ht.
  destruct (poll_tty vm1 env) as [[vm2 ok] err]. cbn [fst] in Ht.
  destruct err as [err |]; [discriminate |].
  destruct ok; [| discriminate].
  intros [= <-]. exists vm2. split; [| reflexivity].
  unfold same_core in *. intuition congruence.
Qed.

(** A poll comes to nothing in two cases: interrupts are disabled, or the
    clock does not fire and the TTY reports nothing pending. *)
Lemma poll_outcome_Quiet (vm : VM) (env : Env) :
  poll_outcome vm env = Quiet <->
  Z.land (get (S vm) 0) StatusInterrupts = 0 \/
  (snd (poll_clock vm env) = false /\
   snd (fst (poll_tty (fst (poll_clock vm env)) env)) = false /\
   snd (poll_tty (fst (poll_clock vm env)) env) = None).
Proof.
  unfold poll_outcome.
  destruct (Z.eqb_spec (Z.land (get (S vm) 0) StatusInterrupts) 0) as [Hi | Hi].
  { split; auto. }
  destruct (poll_clock vm env) as [vm1 fired]. cbn [fst snd].
  destruct fired.
  { split; [discriminate |].
    intros [? | (? & _)]; [contradiction | discriminate]. }
  destruct (poll_tty vm1 env) as [[vm2 ok] err]. cbn [fst snd].
  destruct err as [err |].
  { split; [discriminate |].
    intros [? | (_ & _ & ?)]; [contradiction | discriminate]. }
  destruct ok.
  { split; [discriminate |].
    intros [? | (_ & ? & _)]; [contradiction | discriminate]. }
  split; auto.
Qed.

(** ** Execute *)

(** C9. For every machine state and every instruction word, GPR[0] is 0
    after [Execute] returns, whether it returns no error, [ErrHalted] or a
    fault, and whichever register the instruction wrote. *)
Theorem Execute_r0_zero (vm : VM) (ci : Z) (env : Env) :
  get (GPR (fst (Execute vm ci env))) 0 = 0.
Proof.
  unfold Execute.
  destruct (Execute_switch vm ci) as [vm1 [err |]].
  - cbn. apply get_set_eq.
  - destruct (MaybeInterrupt vm1 env) as [vm2 err]. cbn. apply get_set_eq.
Qed.

(** *** Which errors can come out *)

Lemma Interrupt_error (vm : VM) (code : Z) (vm' : VM) (err : error) :
  Interrupt vm code = (vm', Some err) -> errors_Is err ErrSIGSEGV = true.
Proof.
  intros H.
  destruct (Interrupt_inv _ _ _ _ H)
    as [(_ & _ & [= ->]) | [(_ & _ & _ & [= ->]) | (_ & _ & Hcase)]];
    try reflexivity.
  cbv zeta in Hcase. destruct Hcase as [(_ & _ & [= ->]) | (_ & _ & [=])].
  reflexivity.
Qed.

Lemma Memory_error (vm : VM) (off flags : Z) (err : error) :
  Memory vm off flags = inr err ->
  errors_Is err ErrSIGSEGV = true \/ errors_Is err ErrNotPermitted = true.
Proof.
  unfold Memory.
  repeat match goal with
         | |- context [if ?b then _ else _] => destruct b
         end; intros [= <-]; auto.
Qed.

Lemma InterruptPending_error (tty : SerialTTY) (env : Env) (err : error) :
  snd (InterruptPending tty env) = Some err ->
  errors_Is err ErrTTYDetach = true.
Proof.
  unfold InterruptPending.
  repeat match goal with
         | |- context [if ?b then _ else _] => destruct b
         | |- context [match conn_write env with _ => _ end] =>
             destruct (conn_write env)
         | |- context [match conn_read env with _ => _ end] =>
             destruct (conn_read env)
         end; cbn; intros [= <-]; reflexivity.
Qed.

Lemma MaybeInterrupt_error (vm : VM) (env : Env) (err : error) :
  snd (MaybeInterrupt vm env) = Some err ->
  errors_Is err ErrSIGSEGV = true \/ errors_Is err ErrTTYDetach = true.
Proof.
  unfold MaybeInterrupt.
  destruct (Z.land (get (S vm) 0) StatusInterrupts =? 0); [discriminate |].
  destruct (poll_clock vm env) as [vm1 fired].
  destruct fired.
  { destruct (Interrupt vm1 IrqClock) as [vm2 [e |]] eqn:Hi; [| discriminate].
    intros [= <-]. left. eapply Interrupt_error. exact Hi. }
  unfold poll_tty. destruct (TTY vm1) as [tty |]; [| discriminate].
  pose proof (InterruptPending_error tty env) as Hp.
  destruct (InterruptPending tty env) as [[tty' ok] [e |]]; cbn [snd] in Hp.
  { intros [= <-]. right. apply Hp. reflexivity. }
  destruct ok; [| discriminate].
  destruct (Interrupt _ IrqTTY) as [vm2 [e |]] eqn:Hi; [| discriminate].
  intros [= <-]. left. eapply Interrupt_error. exact Hi.
Qed.

Lemma errors_Is_exclusive (err : error) :
  errors_Is err ErrHalted = true ->
  errors_Is err ErrSIGSEGV = false /\ errors_Is err ErrNotPermitted = false /\
  errors_Is err ErrTTYDetach = false.
Proof.
  induction err; cbn; try discriminate; auto.
Qed.

(** The switch returns [ErrHalted] in one case only. *)
Lemma Execute_switch_halted (vm : VM) (ci : Z) (vm' : VM) (err : error) :
  Execute_switch vm ci = (vm', Some err) ->
  errors_Is err ErrHalted = true ->
  DecodeOpcode ci = OpcodeJALR /\ DecodeRA ci = 0 /\ DecodeRB ci = 0 /\
  Z.land (get (S vm) 0) StatusInterrupts = 0.
Proof.
  intros H He. pose proof (errors_Is_exclusive err He) as (Hs & Hn & _).
  unfold Execute_switch, Decode in H.
  destruct (Z.eqb_spec (DecodeOpcode ci) OpcodeJALR) as [Hop | Hop].
  - destruct (Z.eqb_spec (DecodeRA ci) 0) as [Hra | Hra];
      destruct (Z.eqb_spec (DecodeRB ci) 0) as [Hrb | Hrb];
      cbn [negb orb] in H; try discriminate H.
    destruct (Z.eqb_spec (Z.land (get (S vm) 0) StatusInterrupts) 0) as [Hi | Hi].
    + auto.
    + apply Interrupt_error in H. congruence.
  - repeat match type of H with
           | context [if ?b then _ else _] => destruct b
           end;
      try discriminate H;
      try (injection H as <- <-; discriminate He).
    all: destruct (Memory vm _ _) as [mptr | e] eqn:Hm;
      [repeat match type of H with
              | context [if ?b then _ else _] => destruct b
              end; discriminate H |].
    all: injection H as <- <-; apply Memory_error in Hm; destruct Hm; congruence.
Qed.

(** C8. [Execute(w)] returns the Halted error if and only if [w] decodes
    to JALR with rA = 0 and rB = 0 while the Interrupts flag of S[0] is
    clear. In particular the all-zero word halts a machine whose
    interrupts are disabled. *)
Theorem Execute_halted_iff (vm : VM) (ci : Z) (env : Env) :
  ((exists err, snd (Execute vm ci env) = Some err /\
                errors_Is err ErrHalted = true) <->
   (DecodeOpcode ci = OpcodeJALR /\ DecodeRA ci = 0 /\ DecodeRB ci = 0 /\
    Z.land (get (S vm) 0) StatusInterrupts = 0)) /\
  (Z.land (get (S vm) 0) StatusInterrupts = 0 ->
   snd (Execute vm 0 env) = Some ErrHalted).
Proof.
  assert (Hhalt : forall w,
    DecodeOpcode w = OpcodeJALR /\ DecodeRA w = 0 /\ DecodeRB w = 0 /\
    Z.land (get (S vm) 0) StatusInterrupts = 0 ->
    snd (Execute vm w env) = Some ErrHalted).
  { intros w (Hop & Hra & Hrb & Hi).
    unfold Execute, Execute_switch, Decode. rewrite Hop, Hra, Hrb, Hi.
    reflexivity. }
  split; [split |].
  - intros (err & Hret & He). unfold Execute in Hret.
    destruct (Execute_switch vm ci) as [vm1 [e |]] eqn:Hsw.
    + cbn in Hret. injection Hret as ->.
      eapply Execute_switch_halted; eassumption.
    + pose proof (MaybeInterrupt_error vm1 env err) as Hm.
      destruct (MaybeInterrupt vm1 env) as [vm2 e]. cbn in Hret, Hm.
      pose proof (errors_Is_exclusive err He) as (Hs & _ & Ht).
      destruct (Hm Hret); congruence.
  - intros H. exists ErrHalted. split; [apply Hhalt; exact H | reflexivity].
  - intros Hi. apply Hhalt. repeat split; try reflexivity. exact Hi.
Qed.

(** C10. A word whose opcode is above IRET (11..31) is a silent no-op:
    when the poll at the instruction boundary comes to nothing, [Execute]
    returns no error, and PC, memory, the status registers and
    GPR[1..31] are as before; GPR is the old GPR with GPR[0] set to 0. *)
Theorem Execute_undefined_opcode (vm : VM) (ci : Z) (env : Env) :
  OpcodeIRET < DecodeOpcode ci ->
  poll_outcome vm env = Quiet ->
  snd (Execute vm ci env) = None /\
  PC (fst (Execute vm ci env)) = PC vm /\
  M (fst (Execute vm ci env)) = M vm /\
  S (fst (Execute vm ci env)) = S vm /\
  GPR (fst (Execute vm ci env)) = set (GPR vm) 0 0 /\
  (forall i, i <> 0 -> get (GPR (fst (Execute vm ci env))) i = get (GPR vm) i) /\
  get (GPR (fst (Execute vm ci env))) 0 = 0.
Proof.
  intros Hop Hq. unfold OpcodeIRET in Hop.
  assert (Hsw : Execute_switch vm ci = (vm, None)).
  { unfold Execute_switch, Decode.
    unfold OpcodeJALR, OpcodeADD, OpcodeADDI, OpcodeNAND, OpcodeLUI, OpcodeSW,
      OpcodeLW, OpcodeBEQ, OpcodeWSR, OpcodeRSR, OpcodeIRET.
    repeat match goal with
           | |- context [DecodeOpcode ci =? ?k] =>
               replace (DecodeOpcode ci =? k) with false by lia
           end.
    reflexivity. }
  destruct (MaybeInterrupt_no_raise vm env) as [Hcore Herr];
    [rewrite Hq; reflexivity |].
  rewrite Hq in Herr. unfold Execute. rewrite Hsw.
  destruct (MaybeInterrupt vm env) as [vm' err]. cbn [fst snd] in *.
  destruct Hcore as (_ & Hg & _ & _ & _ & Hm & Hp & Hs).
  cbn [fst snd with_GPR PC M S GPR]. rewrite Hg.
  repeat split; try assumption.
  - intros i Hi. apply get_set_ne. lia.
  - apply get_set_eq.
Qed.

(** At [entry_state], with interrupts enabled, the clock not yet due and
    the TTY silent, executing the all-ones word (opcode 31). *)
Lemma Execute_undefined_opcode_witness :
  let r := Execute entry_state 4294967295 quiet_env in
  snd r = None /\ PC (fst r) = 77 /\ M (fst r) = M entry_state /\
  S (fst r) = S entry_state /\ GPR (fst r) = set (GPR entry_state) 0 0 /\
  (forall i, i <> 0 -> get (GPR (fst r)) i = get (GPR entry_state) i) /\
  get (GPR (fst r)) 0 = 0.
Proof.
  apply (Execute_undefined_opcode entry_state 4294967295 quiet_env).
  - vm_compute. reflexivity.
  - vm_compute. reflexivity.
Defined.

(** [Fetch] moves PC and nothing else. *)
Lemma Fetch_frame (vm vm' : VM) (ci : Z) :
  Fetch vm = (vm', inl ci) ->
  IS0 vm' = IS0 vm /\ ISP vm' = ISP vm /\ IPC vm' = IPC vm /\ S vm' = S vm /\
  GPR vm' = GPR vm /\ M vm' = M vm.
Proof.
  unfold Fetch. destruct (Memory _ _ _) as [r | e]; [| discriminate].
  intros [= <- _]. cbn. repeat split; reflexivity.
Qed.

(** C4. Let interrupt entry succeed from a state, and let the handler's
    first executed instruction be IRET, executed in kernel mode with the
    shadows unmodified (S[0], IS0, ISP and IPC as entry left them), with
    no interrupt delivered by the poll that follows it. Then after the
    IRET, PC, GPR[29] and S[0] are what they were just before the
    interrupt. *)
Theorem iret_restores (vm : VM) (code : Z) (vm1 handler : VM) (ci : Z)
    (env : Env) :
  Interrupt vm code = (vm1, None) ->
  IS0 handler = IS0 vm1 ->
  ISP handler = ISP vm1 ->
  IPC handler = IPC vm1 ->
  get (S handler) 0 = get (S vm1) 0 ->
  DecodeOpcode ci = OpcodeIRET ->
  raises (poll_outcome (fst (Execute_switch handler ci)) env) = false ->
  PC (fst (Execute handler ci env)) = PC vm /\
  get (GPR (fst (Execute handler ci env))) 29 = get (GPR vm) 29 /\
  get (S (fst (Execute handler ci env))) 0 = get (S vm) 0.
Proof.
  intros Hint H0 Hsp Hpc Hs Hop.
  destruct (Interrupt_inv _ _ _ _ Hint)
    as [(_ & _ & [=]) | [(_ & _ & _ & [=]) | (_ & _ & Hcase)]].
  cbv zeta in Hcase. destruct Hcase as [(_ & _ & [=]) | (_ & -> & _)].
  cbn [with_PC IS0 ISP IPC S] in H0, Hsp, Hpc, Hs.
  rewrite get_set_eq in Hs.
  pose proof (flags_cleared (get (S vm) 0)) as (Hu & _ & _).
  rewrite <- Hs in Hu.
  assert (Hsw : Execute_switch handler ci
    = (with_PC (with_GPR (with_S handler (set (S handler) 0 (IS0 handler)))
                  (set (GPR handler) 29 (ISP handler))) (IPC handler), None)).
  { unfold Execute_switch, Decode. rewrite Hop, Hu. reflexivity. }
  unfold Execute. rewrite Hsw. cbn [fst]. intros Hquiet.
  destruct (MaybeInterrupt_no_raise _ _ Hquiet) as [Hcore _].
  destruct (MaybeInterrupt _ env) as [vm2 err]. cbn [fst] in *.
  destruct Hcore as (_ & Hg & _ & _ & _ & _ & Hp & Hs').
  cbn [with_GPR PC GPR S]. rewrite Hg, Hp, Hs'.
  cbn [with_PC with_GPR with_S PC GPR S].
  rewrite get_set_ne by lia. rewrite !get_set_eq. auto.
Qed.

(** At [entry_state]: interrupt 1 is delivered, the instruction that
    delivered it ends with its write of 0 to [r0], the handler's [iret]
    is fetched from 4096 and executed, and the machine is back at PC = 77
    with its stack pointer and flags. *)
Lemma iret_restores_witness :
  let vm1 := fst (Interrupt entry_state 1) in
  let handler := fst (Fetch (with_GPR vm1 (set (GPR vm1) 0 0))) in
  snd (Fetch (with_GPR vm1 (set (GPR vm1) 0 0))) = inl 1342177280 /\
  PC (fst (Execute handler 1342177280 quiet_env)) = 77 /\
  get (GPR (fst (Execute handler 1342177280 quiet_env))) 29 = 999 /\
  get (S (fst (Execute handler 1342177280 quiet_env))) 0 = 5.
Proof.
  split; [reflexivity |].
  apply (iret_restores entry_state 1 (fst (Interrupt entry_state 1))
           (fst (Fetch (with_GPR (fst (Interrupt entry_state 1))
                          (set (GPR (fst (Interrupt entry_state 1))) 0 0))))
           1342177280 quiet_env);
    vm_compute; reflexivity.
Defined.

(** C6, the counterexample. With the vector table at 2^20 (aligned, and
    just past the end of memory) the lookup of vector 1 faults, and it
    does so after the state was saved: IPC was 0 and is now the old PC,
    so the machine state is not what it was before the call. *)
Lemma Interrupt_fault_counterexample :
  snd (Interrupt vector_out_of_range 1) = Some ErrSIGSEGV /\
  IPC vector_out_of_range = 0 /\
  IPC (fst (Interrupt vector_out_of_range 1)) = 77 /\
  fst (Interrupt vector_out_of_range 1) <> vector_out_of_range.
Proof.
  repeat split; try reflexivity.
  intros H. apply (f_equal IPC) in H. vm_compute in H. discriminate H.
Qed.

(** C6, as amended. When [Interrupt(code)] returns an error, it is a
    segmentation fault. If S[2] or S[3] is misaligned, the whole machine
    state is exactly as before the call. Otherwise (the lookup in the
    vector table is out of range) PC, memory, the clock, the TTY, the other
    status registers and every GPR but GPR[29] are as before, while IS0,
    ISP and IPC hold the old S[0], GPR[29] and PC, GPR[29] holds S[3], and
    S[0] has UserMode, Interrupts and Paging cleared. *)
Theorem Interrupt_fault (vm : VM) (code : Z) (vm' : VM) (err : error) :
  Interrupt vm code = (vm', Some err) ->
  errors_Is err ErrSIGSEGV = true /\
  (Z.land (get (S vm) 2) 1023 <> 0 \/ Z.land (get (S vm) 3) 1023 <> 0 ->
   vm' = vm) /\
  (Z.land (get (S vm) 2) 1023 = 0 /\ Z.land (get (S vm) 3) 1023 = 0 ->
   PC vm' = PC vm /\ M vm' = M vm /\ CF vm' = CF vm /\ LTR vm' = LTR vm /\
   TTY vm' = TTY vm /\
   (forall i, i <> 29 -> get (GPR vm') i = get (GPR vm) i) /\
   (forall i, i <> 0 -> get (S vm') i = get (S vm) i) /\
   IS0 vm' = get (S vm) 0 /\ ISP vm' = get (GPR vm) 29 /\ IPC vm' = PC vm /\
   get (GPR vm') 29 = get (S vm) 3 /\
   get (S vm') 0
   = Z.ldiff (get (S vm) 0)
       (Z.lor (Z.lor StatusUserMode StatusInterrupts) StatusPaging)).
Proof.
  intros H. split; [eapply Interrupt_error; exact H |].
  destruct (Interrupt_inv _ _ _ _ H)
    as [(H2 & -> & _) | [(H2 & H3 & -> & _) | (H2 & H3 & Hcase)]].
  - split; [reflexivity | intros [? _]; contradiction].
  - split; [reflexivity | intros [_ ?]; contradiction].
  - split; [intros [? | ?]; contradiction | intros _].
    cbv zeta in Hcase. destruct Hcase as [(_ & -> & _) | (_ & _ & [=])].
    cbn [PC M CF LTR TTY GPR S IS0 ISP IPC]. rewrite !get_set_eq.
    repeat split; try reflexivity; intros i Hi; apply get_set_ne; lia.
Qed.

(** At [vector_out_of_range]. *)
Lemma Interrupt_fault_witness :
  let vm' := fst (Interrupt vector_out_of_range 1) in
  errors_Is ErrSIGSEGV ErrSIGSEGV = true /\
  (Z.land (get (S vector_out_of_range) 2) 1023 <> 0 \/
   Z.land (get (S vector_out_of_range) 3) 1023 <> 0 ->
   vm' = vector_out_of_range) /\
  (Z.land (get (S vector_out_of_range) 2) 1023 = 0 /\
   Z.land (get (S vector_out_of_range) 3) 1023 = 0 ->
   PC vm' = 77 /\ M vm' = M vector_out_of_range /\ CF vm' = 0 /\ LTR vm' = 0 /\
   TTY vm' = None /\
   (forall i, i <> 29 -> get (GPR vm') i = get (GPR vector_out_of_range) i) /\
   (forall i, i <> 0 -> get (S vm') i = get (S vector_out_of_range) i) /\
   IS0 vm' = 5 /\ ISP vm' = 999 /\ IPC vm' = 77 /\
   get (GPR vm') 29 = 0 /\
   get (S vm') 0
   = Z.ldiff 5 (Z.lor (Z.lor StatusUserMode StatusInterrupts) StatusPaging)).
Proof.
  apply (Interrupt_fault vector_out_of_range 1
           (fst (Interrupt vector_out_of_range 1)) ErrSIGSEGV).
  reflexivity.
Defined.

(** ** Memory access under paging *)

Lemma land_page_mask (entry : Z) :
  Z.land entry 4294966272 = (entry mod 2 ^ 32) / 2 ^ 10 * 2 ^ 10.
Proof.
  change 4294966272 with (Z.shiftl (Z.ones 22) 10).
  apply Z.bits_inj'. intros n Hn.
  rewrite Z.land_spec, Z.shiftl_spec by lia.
  destruct (Z.lt_ge_cases n 10) as [Hlo | Hhi].
  - rewrite (Z.testbit_neg_r (Z.ones 22)) by lia.
    rewrite Z.mul_pow2_bits_low by lia.
    apply andb_false_r.
  - rewrite Z.mul_pow2_bits, Z.div_pow2_bits by lia.
    replace (n - 10 + 10) with n by lia.
    destruct (Z.lt_ge_cases n 32) as [Hlt | Hge].
    + rewrite Z.ones_spec_low, Z.mod_pow2_bits_low by lia. apply andb_true_r.
    + rewrite Z.ones_spec_high, Z.mod_pow2_bits_high by lia. apply andb_false_r.
Qed.

Lemma physical_address (entry off : Z) :
  add32 (Z.land entry 4294966272) (Z.land off 1023)
  = Z.lor (Z.land entry 4294966272) (Z.land off 1023).
Proof.
  rewrite land_page_mask. change 1023 with (2 ^ 10 - 1).
  rewrite land_mask by lia.
  rewrite (lor_disjoint_add 10) by (lia || divmod).
  unfold add32, wrap32. apply Z.mod_small. divmod.
Qed.

Lemma requested_flags (entry flags : Z) :
  0 <= flags < 128 -> Z.land (Z.land entry 127) flags = Z.land entry flags.
Proof.
  intros H. rewrite <- Z.land_assoc. f_equal. rewrite Z.land_comm.
  change 127 with (2 ^ 7 - 1). rewrite land_mask by lia. divmod.
Qed.

(** C7. For a memory access with the Paging flag set, at an address that
    is not a memory-mapped register, and with [index] the 32-bit sum
    S[1] + (addr >> 10): the access faults with Segfault if S[1] is not a
    multiple of 1024 or if [index] >= 2^20; otherwise it faults with
    NotPermitted unless every requested flag bit is present in the page
    entry M[index]; otherwise it resolves to the physical address
    (entry & 0xFFFFFC00) | (addr & 0x3FF), faulting with Segfault if that
    address is >= 2^20. *)
Theorem Memory_paging (vm : VM) (off flags : Z) :
  Z.land (get (S vm) 0) StatusPaging <> 0 ->
  is_mmio vm off = false ->
  0 <= flags < 128 ->
  let index := (get (S vm) 1 + Z.shiftr off 10) mod 2 ^ 32 in
  let entry := get (M vm) index in
  let physical := Z.lor (Z.land entry 4294966272) (Z.land off 1023) in
  (get (S vm) 1 mod 1024 <> 0 \/ 2 ^ 20 <= index ->
   exists err, Memory vm off flags = inr err /\
               errors_Is err ErrSIGSEGV = true) /\
  (get (S vm) 1 mod 1024 = 0 -> index < 2 ^ 20 ->
   (Z.land entry flags <> flags ->
    exists err, Memory vm off flags = inr err /\
                errors_Is err ErrNotPermitted = true) /\
   (Z.land entry flags = flags ->
    (2 ^ 20 <= physical -> Memory vm off flags = inr ErrSIGSEGV) /\
    (physical < 2 ^ 20 -> Memory vm off flags = inl (RefM physical)))).
Proof.
  intros Hpaging Hmmio Hflags. cbv zeta.
  assert (Halign : Z.land (get (S vm) 1) 1023 = get (S vm) 1 mod 1024).
  { change 1023 with (2 ^ 10 - 1). rewrite land_mask by lia. reflexivity. }
  unfold is_mmio in Hmmio.
  apply orb_false_elim in Hmmio as [Hclock Htty].
  unfold Memory. rewrite Hclock.
  replace (attached vm && (off =? MMTTYStatus)) with false
    by (destruct (attached vm), (off =? MMTTYStatus); cbn in *; congruence).
  replace (attached vm && (off =? MMTTYIn)) with false
    by (destruct (attached vm), (off =? MMTTYStatus), (off =? MMTTYIn);
        cbn in *; congruence).
  replace (attached vm && (off =? MMTTYOut)) with false
    by (destruct (attached vm), (off =? MMTTYStatus), (off =? MMTTYIn),
          (off =? MMTTYOut); cbn in *; congruence).
  destruct (Z.eqb_spec (Z.land (get (S vm) 0) StatusPaging) 0) as [? | _];
    [contradiction |].
  cbn [negb]. rewrite Halign.
  change (add32 (get (S vm) 1) (Z.shiftr off 10))
    with ((get (S vm) 1 + Z.shiftr off 10) mod 2 ^ 32).
  rewrite physical_address, requested_flags by exact Hflags.
  change MemorySize with (2 ^ 20).
  split.
  - intros [Hmis | Hidx].
    + destruct (Z.eqb_spec (get (S vm) 1 mod 1024) 0); [contradiction |].
      cbn [negb]. eexists. split; reflexivity.
    + destruct (Z.eqb_spec (get (S vm) 1 mod 1024) 0); cbn [negb];
        [| eexists; split; reflexivity].
      destruct (Z.leb_spec (2 ^ 20) ((get (S vm) 1 + Z.shiftr off 10) mod 2 ^ 32));
        [| lia].
      eexists. split; reflexivity.
  - intros Hal Hidx. rewrite Hal. cbn [Z.eqb negb].
    destruct (Z.leb_spec (2 ^ 20) ((get (S vm) 1 + Z.shiftr off 10) mod 2 ^ 32));
      [lia |].
    split.
    + intros Hperm.
      destruct (Z.eqb_spec
                  (Z.land (get (M vm) ((get (S vm) 1 + Z.shiftr off 10) mod 2 ^ 32))
                     flags) flags); [contradiction |].
      cbn [negb]. eexists. split; reflexivity.
    + intros Hperm. rewrite Hperm, Z.eqb_refl. cbn [negb].
      split; intros Hphys.
      * destruct (Z.leb_spec (2 ^ 20)
                    (Z.lor (Z.land (get (M vm)
                                      ((get (S vm) 1 + Z.shiftr off 10) mod 2 ^ 32))
                              4294966272) (Z.land off 1023))); [reflexivity | lia].
      * destruct (Z.leb_spec (2 ^ 20)
                    (Z.lor (Z.land (get (M vm)
                                      ((get (S vm) 1 + Z.shiftr off 10) mod 2 ^ 32))
                              4294966272) (Z.land off 1023))); [lia | reflexivity].
Qed.

(** The index is a sum of two [uint32]: it is taken modulo 2^32. It can
    wrap only with the page table in the last 2^22 words of the address
    space; with the table at [0xFFFFFC00], virtual page 1024 has its entry
    at M[0]. *)
Example Memory_index_wraps :
  let vm :=
    with_S (with_M new (set ∅ 0 7)) (set (set ∅ 0 StatusPaging) 1 4294966272) in
  add32 (get (S vm) 1) (Z.shiftr 1048576 10) = 0 /\
  Memory vm 1048576 MemoryRead = inl (RefM 0).
Proof. split; reflexivity. Qed.

(** At [paged_state], a write to virtual address 1024 lands on 10240. *)
Lemma Memory_paging_witness :
  Memory paged_state 1024 MemoryWrite = inl (RefM 10240).
Proof.
  apply (Memory_paging paged_state 1024 MemoryWrite).
  - vm_compute. discriminate.
  - reflexivity.
  - vm_compute. split; [discriminate | reflexivity].
  - reflexivity.
  - vm_compute. reflexivity.
  - reflexivity.
  - vm_compute. reflexivity.
Defined.

End CPU.

(** ** The same four properties on the revision before hardware interrupts

    [vm_trap] has no poll and no memory-mapped registers, and its opcode
    table ends at RSR, so opcode 10 is undefined there as well. *)
Section CPU_trap.
Import vm_trap.

Lemma trap_paging (vm : VM) (off flags : Z) :
  Z.land (get (S vm) 0) StatusPaging <> 0 ->
  0 <= flags < 128 ->
  let index := (get (S vm) 1 + Z.shiftr off 10) mod 2 ^ 32 in
  let entry := get (M vm) index in
  let physical := Z.lor (Z.land entry 4294966272) (Z.land off 1023) in
  (get (S vm) 1 mod 1024 <> 0 \/ 2 ^ 20 <= index ->
   exists err, Memory vm off flags = inr err /\
               vm.errors_Is err vm.ErrSIGSEGV = true) /\
  (get (S vm) 1 mod 1024 = 0 -> index < 2 ^ 20 ->
   (Z.land entry flags <> flags ->
    exists err, Memory vm off flags = inr err /\
                vm.errors_Is err vm.ErrNotPermitted = true) /\
   (Z.land entry flags = flags ->
    (2 ^ 20 <= physical -> Memory vm off flags = inr vm.ErrSIGSEGV) /\
    (physical < 2 ^ 20 -> Memory vm off flags = inl physical))).
Proof.
  intros Hpaging Hflags. cbv zeta.
  assert (Halign : Z.land (get (S vm) 1) 1023 = get (S vm) 1 mod 1024).
  { change 1023 with (2 ^ 10 - 1). rewrite land_mask by lia. reflexivity. }
  unfold Memory.
  destruct (Z.eqb_spec (Z.land (get (S vm) 0) StatusPaging) 0) as [? | _];
    [contradiction |].
  cbn [negb]. rewrite Halign.
  change (add32 (get (S vm) 1) (Z.shiftr off 10))
    with ((get (S vm) 1 + Z.shiftr off 10) mod 2 ^ 32).
  set (index := (get (S vm) 1 + Z.shiftr off 10) mod 2 ^ 32).
  rewrite physical_address, requested_flags by exact Hflags.
  change MemorySize with (2 ^ 20).
  destruct (Z.eqb_spec (get (S vm) 1 mod 1024) 0) as [Hal | Hal]; cbn [negb].
  2: { split; [intros _; eexists; split; reflexivity | contradiction]. }
  destruct (Z.leb_spec (2 ^ 20) index) as [Hidx | Hidx].
  { split; [intros _; eexists; split; reflexivity | lia]. }
  split; [intros [? | ?]; [contradiction | lia] | intros _ _].
  destruct (Z.eqb_spec (Z.land (get (M vm) index) flags) flags) as [Hp | Hp];
    cbn [negb].
  2: { split; [intros _; eexists; split; reflexivity | contradiction]. }
  split; [contradiction | intros _].
  destruct (Z.leb_spec (2 ^ 20)
              (Z.lor (Z.land (get (M vm) index) 4294966272) (Z.land off 1023)));
    split; (reflexivity || lia).
Qed.

Lemma trap_paging_example :
  Memory paged_state_trap 1024 MemoryWrite = inl 10240 /\
  (exists err, Memory paged_state_trap 0 MemoryWrite = inr err /\
               vm.errors_Is err vm.ErrNotPermitted = true).
Proof. split; [reflexivity | eexists; split; reflexivity]. Qed.

Lemma trap_memory_error (vm : VM) (off flags : Z) (err : vm.error) :
  Memory vm off flags = inr err -> vm.errors_Is err vm.ErrHalted = false.
Proof.
  unfold Memory.
  repeat match goal with
         | |- context [if ?b then _ else _] => destruct b
         end; intros [= <-]; reflexivity.
Qed.

Lemma trap_r0_zero (vm : VM) (ci : Z) :
  get (GPR (fst (Execute vm ci))) 0 = 0.
Proof.
  unfold Execute. destruct (Execute_switch vm ci) as [vm1 err].
  cbn. apply get_set_eq.
Qed.

Lemma trap_halted_iff (vm : VM) (ci : Z) :
  (exists err, snd (Execute vm ci) = Some err /\
               vm.errors_Is err vm.ErrHalted = true) <->
  (vm.DecodeOpcode ci = OpcodeJALR /\ vm.DecodeRA ci = 0 /\
   vm.DecodeRB ci = 0 /\ Z.land (get (S vm) 0) StatusInterrupts = 0).
Proof.
  split.
  - intros (err & Hret & He). unfold Execute in Hret.
    destruct (Execute_switch vm ci) as [vm1 e] eqn:H. cbn in Hret. subst e.
    unfold Execute_switch, vm.Decode in H.
    destruct (Z.eqb_spec (vm.DecodeOpcode ci) OpcodeJALR) as [Hop | Hop].
    + destruct (Z.eqb_spec (vm.DecodeRA ci) 0) as [Hra | Hra];
        destruct (Z.eqb_spec (vm.DecodeRB ci) 0) as [Hrb | Hrb];
        cbn [negb orb] in H; try discriminate H.
      destruct (Z.eqb_spec (Z.land (get (S vm) 0) StatusInterrupts) 0)
        as [Hi | Hi]; [auto |].
      repeat match type of H with
             | context [if ?b then _ else _] => destruct b
             end;
        try discriminate H; injection H as <- <-; discriminate He.
    + repeat match type of H with
             | context [if ?b then _ else _] => destruct b
             end;
        try discriminate H;
        try (injection H as <- <-; discriminate He).
      all: destruct (Memory vm _ _) as [mptr | e] eqn:Hm;
        [repeat match type of H with
                | context [if ?b then _ else _] => destruct b
                end; discriminate H |].
      all: injection H as <- <-; apply trap_memory_error in Hm; congruence.
  - intros (Hop & Hra & Hrb & Hi). exists vm.ErrHalted.
    split; [| reflexivity].
    unfold Execute, Execute_switch, vm.Decode. rewrite Hop, Hra, Hrb, Hi.
    reflexivity.
Qed.

Lemma trap_undefined_opcode (vm : VM) (ci : Z) :
  OpcodeRSR < vm.DecodeOpcode ci ->
  Execute vm ci = (with_GPR vm (set (GPR vm) 0 0), None).
Proof.
  intros Hop. unfold OpcodeRSR in Hop. unfold Execute.
  assert (Hsw : Execute_switch vm ci = (vm, None)).
  { unfold Execute_switch, vm.Decode.
    unfold OpcodeJALR, OpcodeADD, OpcodeADDI, OpcodeNAND, OpcodeLUI, OpcodeSW,
      OpcodeLW, OpcodeBEQ, OpcodeWSR, OpcodeRSR.
    repeat match goal with
           | |- context [vm.DecodeOpcode ci =? ?k] =>
               replace (vm.DecodeOpcode ci =? k) with false by lia
           end.
    reflexivity. }
  rewrite Hsw. reflexivity.
Qed.

End CPU_trap.

(** * Further properties of the assembler, the CPU and the loader *)

(** ** What the assembler's operands come to *)

Lemma signed_field_wrap32 (bits value : Z) :
  1 <= bits <= 32 ->
  - 2 ^ (bits - 1) <= value <= 2 ^ (bits - 1) - 1 ->
  signed_field bits (wrap32 value) = value.
Proof.
  intros Hb Hv. unfold signed_field, wrap32.
  assert (Hhalf : 0 < 2 ^ (bits - 1)) by (apply Z.pow_pos_nonneg; lia).
  assert (Hpow : 2 ^ bits = 2 * 2 ^ (bits - 1)).
  { replace bits with (1 + (bits - 1)) at 1 by lia.
    rewrite Z.pow_add_r by lia. reflexivity. }
  assert (Hdiv : 2 ^ 32 = 2 ^ bits * 2 ^ (32 - bits)).
  { rewrite <- Z.pow_add_r by lia. f_equal. lia. }
  assert (Hrest : 0 < 2 ^ (32 - bits)) by (apply Z.pow_pos_nonneg; lia).
  assert (Hmod : (value mod 2 ^ 32) mod 2 ^ bits = value mod 2 ^ bits).
  { apply Z.mod_mod_divide. exists (2 ^ (32 - bits)). lia. }
  cbv zeta. rewrite Hmod, Hpow.
  destruct (Z.le_gt_cases 0 value) as [Hpos | Hneg].
  - rewrite (Z.mod_small value) by lia.
    destruct (Z.ltb_spec value (2 ^ (bits - 1))); lia.
  - replace (value mod (2 * 2 ^ (bits - 1))) with (value + 2 * 2 ^ (bits - 1)).
    + destruct (Z.ltb_spec (value + 2 * 2 ^ (bits - 1)) (2 ^ (bits - 1))); lia.
    + apply (Z.mod_unique_pos _ _ (-1)); lia.
Qed.

Lemma CastToUint32_inside (value bits lineno : Z) :
  1 <= bits <= 32 ->
  - 2 ^ (bits - 1) <= value <= 2 ^ (bits - 1) - 1 ->
  asm.CastToUint32 value bits lineno = inl (wrap32 value).
Proof.
  intros Hb Hv. unfold asm.CastToUint32.
  replace ((bits <? 1) || (32 <? bits)) with false by lia.
  replace ((value <? - 2 ^ (bits - 1)) || (2 ^ (bits - 1) - 1 <? value))
    with false by lia.
  reflexivity.
Qed.

Lemma CastToUint32_outside (value bits lineno : Z) :
  1 <= bits <= 32 ->
  value < - 2 ^ (bits - 1) \/ 2 ^ (bits - 1) - 1 < value ->
  asm.CastToUint32 value bits lineno
  = inr (asm.Errorf asm.ErrOutOfRange "%w for %d-bit range on line %d").
Proof.
  intros Hb Hv. unfold asm.CastToUint32.
  replace ((bits <? 1) || (32 <? bits)) with false by lia.
  replace ((value <? - 2 ^ (bits - 1)) || (2 ^ (bits - 1) - 1 <? value))
    with true by lia.
  reflexivity.
Qed.

(** X1. [CastToUint32] accepts exactly the values of the signed [bits]-bit
    range: such a value comes back as the 32-bit word [uint32(value)], whose
    low [bits] bits read in two's complement are the value again; any other
    value is refused with an error that wraps [ErrOutOfRange]. *)
Theorem CastToUint32_range (value bits lineno : Z) :
  1 <= bits <= 32 ->
  (- 2 ^ (bits - 1) <= value <= 2 ^ (bits - 1) - 1 ->
   asm.CastToUint32 value bits lineno = inl (wrap32 value) /\
   is_uint32 (wrap32 value) /\
   signed_field bits (wrap32 value) = value) /\
  (value < - 2 ^ (bits - 1) \/ 2 ^ (bits - 1) - 1 < value ->
   exists err, asm.CastToUint32 value bits lineno = inr err /\
               asm.errors_Is err asm.ErrOutOfRange = true).
Proof.
  intros Hb. split.
  - intros Hv. split; [apply CastToUint32_inside; assumption |]. split.
    + unfold is_uint32, wrap32. apply Z.mod_pos_bound. lia.
    + apply signed_field_wrap32; assumption.
  - intros Hv. rewrite CastToUint32_outside by assumption.
    eexists. split; reflexivity.
Qed.

Lemma CastToUint32_range_witness :
  asm.CastToUint32 (-65536) 17 3 = inl 4294901760 /\
  is_uint32 4294901760 /\
  signed_field 17 4294901760 = -65536.
Proof.
  apply (proj1 (CastToUint32_range (-65536) 17 3 ltac:(lia))). lia.
Defined.

Lemma ResolveImmediate_of_denotes (labels : gmap string Z) (name : string)
    (bits lineno v : Z) :
  asm.denotes labels name v ->
  asm.ResolveImmediate labels name bits lineno = asm.CastToUint32 v bits lineno.
Proof.
  unfold asm.ResolveImmediate.
  intros [H | [[e H] L]]; rewrite H; [reflexivity |]. rewrite L. reflexivity.
Qed.

(** X2. [ResolveImmediate] resolves an operand to the number it spells or,
    when it spells none, to the address of the label of that name, and
    hands that value to [CastToUint32]; it fails with [ErrCannotEncode]
    exactly when the operand is neither a number nor a known label. *)
Theorem ResolveImmediate_denotes (labels : gmap string Z) (name : string)
    (bits lineno : Z) :
  1 <= bits <= 32 ->
  (forall v, asm.denotes labels name v ->
     asm.ResolveImmediate labels name bits lineno
     = asm.CastToUint32 v bits lineno) /\
  ((forall v, ~ asm.denotes labels name v) <->
   exists err, asm.ResolveImmediate labels name bits lineno = inr err /\
               asm.errors_Is err asm.ErrCannotEncode = true).
Proof.
  intros Hb. split.
  - intros v. apply ResolveImmediate_of_denotes.
  - split.
    + intros Hnone. unfold asm.ResolveImmediate.
      destruct (strconv.ParseInt name) as [v | e] eqn:Hparse.
      * exfalso. apply (Hnone v). left. exact Hparse.
      * destruct (labels !! name) as [v |] eqn:Hlabel.
        -- exfalso. apply (Hnone v). right. split; [exists e |]; assumption.
        -- eexists. split; reflexivity.
    + intros [err [Hres Hkind]] v Hden.
      rewrite (ResolveImmediate_of_denotes _ _ _ _ _ Hden) in Hres.
      unfold asm.CastToUint32 in Hres.
      replace ((bits <? 1) || (32 <? bits)) with false in Hres by lia.
      destruct ((v <? - 2 ^ (bits - 1)) || (2 ^ (bits - 1) - 1 <? v));
        inversion Hres; subst err; discriminate Hkind.
Qed.

Lemma ResolveImmediate_denotes_witness :
  asm.ResolveImmediate {[ "loop"%string := 3 ]} "loop" 17 1 = inl 3.
Proof.
  apply (proj1 (ResolveImmediate_denotes {[ "loop"%string := 3 ]} "loop" 17 1
                  ltac:(lia)) 3).
  right. split; [exists strconv.ErrSyntax |]; reflexivity.
Defined.

(** ** The fields of an assembled word, as the CPU decodes them *)

Lemma land_31_mod (x : Z) : Z.land x 31 = x mod 32.
Proof. change 31 with (2 ^ 5 - 1). rewrite land_mask by lia. reflexivity. Qed.

(** The fields of a word built from an opcode, two registers and the low
    17 bits. *)
Lemma packed_fields (op ra rb lo : Z) :
  0 <= op < 32 -> 0 <= ra < 32 -> 0 <= rb < 32 -> 0 <= lo < 2 ^ 17 ->
  let w := op * 2 ^ 27 + ra * 2 ^ 22 + rb * 2 ^ 17 + lo in
  is_uint32 w /\ vm.DecodeOpcode w = op /\ vm.DecodeRA w = ra /\
  vm.DecodeRB w = rb /\ w mod 2 ^ 17 = lo.
Proof.
  intros Hop Hra Hrb Hlo w. subst w.
  unfold is_uint32, vm.DecodeOpcode, vm.DecodeRA, vm.DecodeRB.
  rewrite !Z.shiftr_div_pow2 by lia. rewrite !land_31_mod.
  repeat split; divmod.
Qed.

(** X3. An assembled [add] or [nand] is a 32-bit word in which the CPU
    reads the instruction's opcode and its three register numbers modulo
    32 (the encoder masks a register number and never refuses one), and
    whose bits 5 to 16 are zero. *)
Theorem Encode_Decode_RRR (l : Z) (lb : option string) (ra rb rc : Z)
    (labels : gmap string Z) (pc : Z) :
  (exists w, asm.Encode (asm.InstructionADD l lb ra rb rc) labels pc = inl w /\
     is_uint32 w /\ vm.DecodeOpcode w = vm.OpcodeADD /\
     vm.DecodeRA w = ra mod 32 /\ vm.DecodeRB w = rb mod 32 /\
     vm.DecodeRC w = rc mod 32 /\ Z.land (Z.shiftr w 5) 4095 = 0) /\
  (exists w, asm.Encode (asm.InstructionNAND l lb ra rb rc) labels pc = inl w /\
     is_uint32 w /\ vm.DecodeOpcode w = vm.OpcodeNAND /\
     vm.DecodeRA w = ra mod 32 /\ vm.DecodeRB w = rb mod 32 /\
     vm.DecodeRC w = rc mod 32 /\ Z.land (Z.shiftr w 5) 4095 = 0).
Proof.
  assert (Hra : 0 <= ra mod 32 < 32) by (apply Z.mod_pos_bound; lia).
  assert (Hrb : 0 <= rb mod 32 < 32) by (apply Z.mod_pos_bound; lia).
  assert (Hrc : 0 <= rc mod 32 < 32) by (apply Z.mod_pos_bound; lia).
  split; eexists; (split; [reflexivity |]);
    rewrite !land_31_mod;
    change (asm.OpcodeADD mod 32) with 1; change (asm.OpcodeNAND mod 32) with 3;
    rewrite pack_fields by (pow2; lia);
    match goal with
    | |- context [?op * 2 ^ 27 + _ + _ + ?lo] =>
        destruct (packed_fields op (ra mod 32) (rb mod 32) lo)
          as [Hw [Hop [Ha [Hb Hlo]]]]; [lia | lia | lia | pow2; lia |]
    end;
    (split; [exact Hw |]); (split; [exact Hop |]);
    (split; [exact Ha |]); (split; [exact Hb |]);
    unfold vm.DecodeRC; rewrite Z.shiftr_div_pow2 by lia;
    rewrite land_31_mod; change 4095 with (2 ^ 12 - 1);
    rewrite land_mask by lia; split; divmod.
Qed.

(** The word of an instruction with two registers and a 17-bit immediate. *)
Lemma RRI_word (op ra rb v : Z) :
  0 <= op < 32 -> - 65536 <= v <= 65535 ->
  let w :=
    Z.lor (Z.lor (Z.lor (Z.lor 0 (shl32 (Z.land op 31) 27))
                    (shl32 (Z.land ra 31) 22))
             (shl32 (Z.land rb 31) 17)) (Z.land (wrap32 v) 131071) in
  is_uint32 w /\ vm.DecodeOpcode w = op /\ vm.DecodeRA w = ra mod 32 /\
  vm.DecodeRB w = rb mod 32 /\ to_int32 (vm.DecodeImm17 w) = v.
Proof.
  intros Hop Hv w. subst w.
  assert (Hra : 0 <= ra mod 32 < 32) by (apply Z.mod_pos_bound; lia).
  assert (Hrb : 0 <= rb mod 32 < 32) by (apply Z.mod_pos_bound; lia).
  rewrite !land_31_mod. rewrite (Z.mod_small op 32) by lia.
  change 131071 with (2 ^ 17 - 1). rewrite land_mask by lia.
  assert (Hlo : 0 <= wrap32 v mod 2 ^ 17 < 2 ^ 17)
    by (apply Z.mod_pos_bound; lia).
  rewrite pack_fields by assumption.
  destruct (packed_fields op (ra mod 32) (rb mod 32) (wrap32 v mod 2 ^ 17))
    as [Hw [Ho [Ha [Hb Hl]]]]; try assumption.
  repeat (split; [assumption |]).
  rewrite DecodeImm17_signed, Hl. unfold wrap32.
  destruct (Z.ltb_spec ((v mod 2 ^ 32) mod 2 ^ 17) (2 ^ 16)); divmod.
Qed.

(** X4. An assembled [addi], [sw] or [lw] whose operand denotes a value
    of the signed 17-bit range is a 32-bit word in which the CPU reads the
    instruction's opcode, its two register numbers modulo 32 and, as the
    sign-extended immediate, that value. *)
Theorem Encode_Decode_RRI (l : Z) (lb : option string) (ra rb : Z)
    (imm : string) (labels : gmap string Z) (pc v : Z) :
  asm.denotes labels imm v ->
  - 65536 <= v <= 65535 ->
  (exists w, asm.Encode (asm.InstructionADDI l lb ra rb imm) labels pc = inl w /\
     is_uint32 w /\ vm.DecodeOpcode w = vm.OpcodeADDI /\
     vm.DecodeRA w = ra mod 32 /\ vm.DecodeRB w = rb mod 32 /\
     to_int32 (vm.DecodeImm17 w) = v) /\
  (exists w, asm.Encode (asm.InstructionSW l lb ra rb imm) labels pc = inl w /\
     is_uint32 w /\ vm.DecodeOpcode w = vm.OpcodeSW /\
     vm.DecodeRA w = ra mod 32 /\ vm.DecodeRB w = rb mod 32 /\
     to_int32 (vm.DecodeImm17 w) = v) /\
  (exists w, asm.Encode (asm.InstructionLW l lb ra rb imm) labels pc = inl w /\
     is_uint32 w /\ vm.DecodeOpcode w = vm.OpcodeLW /\
     vm.DecodeRA w = ra mod 32 /\ vm.DecodeRB w = rb mod 32 /\
     to_int32 (vm.DecodeImm17 w) = v).
Proof.
  intros Hden Hv.
  assert (Hres : asm.ResolveImmediate labels imm 17 l = inl (wrap32 v)).
  { rewrite (ResolveImmediate_of_denotes _ _ _ _ _ Hden).
    apply CastToUint32_inside; [lia | pow2; lia]. }
  repeat split; unfold asm.Encode; rewrite Hres; cbv zeta;
    eexists; (split; [reflexivity |]); apply RRI_word;
    (assumption
     || (unfold asm.OpcodeADDI, asm.OpcodeSW, asm.OpcodeLW, vm.OpcodeADDI,
           vm.OpcodeSW, vm.OpcodeLW; lia)).
Qed.

Lemma Encode_Decode_RRI_witness :
  (exists w, asm.Encode (asm.InstructionADDI 4 None 29 29 "-1") ∅ 9 = inl w /\
     is_uint32 w /\ vm.DecodeOpcode w = vm.OpcodeADDI /\
     vm.DecodeRA w = 29 mod 32 /\ vm.DecodeRB w = 29 mod 32 /\
     to_int32 (vm.DecodeImm17 w) = -1) /\
  (exists w, asm.Encode (asm.InstructionSW 4 None 29 29 "-1") ∅ 9 = inl w /\
     is_uint32 w /\ vm.DecodeOpcode w = vm.OpcodeSW /\
     vm.DecodeRA w = 29 mod 32 /\ vm.DecodeRB w = 29 mod 32 /\
     to_int32 (vm.DecodeImm17 w) = -1) /\
  (exists w, asm.Encode (asm.InstructionLW 4 None 29 29 "-1") ∅ 9 = inl w /\
     is_uint32 w /\ vm.DecodeOpcode w = vm.OpcodeLW /\
     vm.DecodeRA w = 29 mod 32 /\ vm.DecodeRB w = 29 mod 32 /\
     to_int32 (vm.DecodeImm17 w) = -1).
Proof.
  apply (Encode_Decode_RRI 4 None 29 29 "-1" ∅ 9 (-1)).
  - left. reflexivity.
  - lia.
Defined.

Lemma CastToUint32_error (value bits lineno : Z) (err : asm.error) :
  1 <= bits <= 32 ->
  asm.CastToUint32 value bits lineno = inr err ->
  asm.errors_Is err asm.ErrOutOfRange = true.
Proof.
  intros Hb. unfold asm.CastToUint32.
  replace ((bits <? 1) || (32 <? bits)) with false by lia.
  destruct ((value <? - 2 ^ (bits - 1)) || (2 ^ (bits - 1) - 1 <? value));
    intros [= <-]. reflexivity.
Qed.

Lemma ResolveImmediate_error (labels : gmap string Z) (name : string)
    (bits lineno : Z) (err : asm.error) :
  1 <= bits <= 32 ->
  asm.ResolveImmediate labels name bits lineno = inr err ->
  asm.errors_Is err asm.ErrCannotEncode = true \/
  asm.errors_Is err asm.ErrOutOfRange = true.
Proof.
  intros Hb. unfold asm.ResolveImmediate.
  destruct (strconv.ParseInt name) as [v | e].
  - intros H. right. eapply CastToUint32_error; eassumption.
  - destruct (labels !! name) as [v |].
    + intros H. right. eapply CastToUint32_error; eassumption.
    + intros [= <-]. left. reflexivity.
Qed.

(** X5. [Encode] fails in two ways only: with [ErrCannotEncode], for a
    parse error or an operand that is neither a number nor a known label,
    and with [ErrOutOfRange], for an operand outside the field's range. It
    never panics, and [add], [nand], [jalr], [halt] and data words always
    encode. *)
Theorem Encode_errors (ia : asm.Instruction) (labels : gmap string Z)
    (pc : Z) (err : asm.error) :
  asm.Encode ia labels pc = inr err ->
  (asm.errors_Is err asm.ErrCannotEncode = true \/
   asm.errors_Is err asm.ErrOutOfRange = true) /\
  match ia with
  | asm.InstructionADD _ _ _ _ _ | asm.InstructionNAND _ _ _ _ _
  | asm.InstructionJALR _ _ _ _ | asm.InstructionHALT _ _
  | asm.InstructionDATA _ _ _ => False
  | _ => True
  end.
Proof.
  destruct ia; cbn [asm.Encode]; cbv zeta; try discriminate;
    try (intros [= <-]; split; [left; reflexivity | exact I]).
  all: destruct (asm.ResolveImmediate labels Imm _ Lineno) as [v | e] eqn:Hres;
    try (intros [= <-]; split; [| exact I];
         eapply ResolveImmediate_error; [| exact Hres]; lia).
  all: try discriminate.
  destruct (asm.CastToUint32 _ 17 Lineno) as [o | e] eqn:Hcast;
    [discriminate |].
  intros [= <-]. split; [| exact I]. right.
  eapply CastToUint32_error; [| exact Hcast]. lia.
Qed.

Lemma Encode_errors_witness :
  (asm.errors_Is (asm.Errorf asm.ErrOutOfRange "%w for %d-bit range on line %d")
     asm.ErrCannotEncode = true \/
   asm.errors_Is (asm.Errorf asm.ErrOutOfRange "%w for %d-bit range on line %d")
     asm.ErrOutOfRange = true) /\
  True.
Proof.
  apply (Encode_errors (asm.InstructionADDI 7 None 1 0 "65536") ∅ 0).
  reflexivity.
Defined.

Lemma add32_to_int32 (x y : Z) : add32 x y = wrap32 (x + to_int32 y).
Proof.
  unfold add32, wrap32, to_int32.
  destruct (y <? 2 ^ 31); [reflexivity |]. divmod.
Qed.

(** X6. The operand of [beq] is the address to branch to: the encoder
    stores its distance from the instruction after the branch, which must
    fit the signed 17-bit field, and the CPU's sum of that next address and
    the decoded immediate is the operand's address again. *)
Theorem Encode_beq (l : Z) (lb : option string) (ra rb : Z) (imm : string)
    (labels : gmap string Z) (pc t : Z) :
  asm.denotes labels imm t ->
  - 2 ^ 31 <= t < 2 ^ 31 ->
  is_uint32 pc ->
  (- 65536 <= wrap32 t - pc - 1 <= 65535 ->
   exists w, asm.Encode (asm.InstructionBEQ l lb ra rb imm) labels pc = inl w /\
     is_uint32 w /\ vm.DecodeOpcode w = vm.OpcodeBEQ /\
     vm.DecodeRA w = ra mod 32 /\ vm.DecodeRB w = rb mod 32 /\
     to_int32 (vm.DecodeImm17 w) = wrap32 t - (pc + 1) /\
     add32 (add32 pc 1) (vm.DecodeImm17 w) = wrap32 t) /\
  (wrap32 t - pc - 1 < - 65536 \/ 65535 < wrap32 t - pc - 1 ->
   exists err, asm.Encode (asm.InstructionBEQ l lb ra rb imm) labels pc = inr err /\
     asm.errors_Is err asm.ErrOutOfRange = true).
Proof.
  intros Hden Ht Hpc.
  assert (Hres : asm.ResolveImmediate labels imm 32 l = inl (wrap32 t)).
  { rewrite (ResolveImmediate_of_denotes _ _ _ _ _ Hden).
    apply CastToUint32_inside; [lia | pow2; lia]. }
  unfold asm.Encode. rewrite Hres. cbv zeta. split.
  - intros Hoff.
    rewrite CastToUint32_inside by (lia || (pow2; lia)).
    eexists. split; [reflexivity |].
    destruct (RRI_word asm.OpcodeBEQ ra rb (wrap32 t - pc - 1))
      as (Hw & Hop & Ha & Hb & Hi); [unfold asm.OpcodeBEQ; lia | lia |].
    repeat (split; [assumption |]).
    split; [rewrite Hi; lia |].
    rewrite add32_to_int32, Hi. unfold add32, wrap32, is_uint32 in *. divmod.
  - intros Hoff.
    rewrite CastToUint32_outside by (lia || (pow2; lia)).
    eexists. split; reflexivity.
Qed.

(** A backward branch: [beq r1 r2 loop] at address 9, with [loop] at 4. *)
Lemma Encode_beq_witness :
  exists w, asm.Encode (asm.InstructionBEQ 12 None 1 2 "loop")
              {[ "loop"%string := 4 ]} 9 = inl w /\
    is_uint32 w /\ vm.DecodeOpcode w = vm.OpcodeBEQ /\
    vm.DecodeRA w = 1 mod 32 /\ vm.DecodeRB w = 2 mod 32 /\
    to_int32 (vm.DecodeImm17 w) = wrap32 4 - (9 + 1) /\
    add32 (add32 9 1) (vm.DecodeImm17 w) = wrap32 4.
Proof.
  apply (proj1 (Encode_beq 12 None 1 2 "loop" {[ "loop"%string := 4 ]} 9 4
                  ltac:(right; split; [exists strconv.ErrSyntax |]; reflexivity)
                  ltac:(lia) ltac:(unfold is_uint32; lia))).
  vm_compute. split; discriminate.
Defined.

(** ** The CPU, instruction by instruction *)
Section CPU_more.
Import vm.

Ltac split_ifs :=
  repeat match goal with
         | |- context [if ?b then _ else _] => destruct b
         end.

Ltac opcodes :=
  unfold OpcodeJALR, OpcodeADD, OpcodeADDI, OpcodeNAND, OpcodeLUI, OpcodeSW,
    OpcodeLW, OpcodeBEQ, OpcodeWSR, OpcodeRSR, OpcodeIRET in *.

(** What [Interrupt] leaves alone, whatever it returns. *)
Lemma Interrupt_frame (vm : VM) (code : Z) :
  let vm' := fst (Interrupt vm code) in
  M vm' = M vm /\ CF vm' = CF vm /\ LTR vm' = LTR vm /\ TTY vm' = TTY vm /\
  (forall i, i <> 0 -> get (S vm') i = get (S vm) i) /\
  (forall i, i <> 29 -> get (GPR vm') i = get (GPR vm) i).
Proof.
  unfold Interrupt. split_ifs; cbn; repeat split; try reflexivity;
    intros i Hi; try reflexivity; apply get_set_ne; congruence.
Qed.

(** The clock block leaves the TTY alone, and whether the clock fires is
    a matter of its two registers. *)
Lemma poll_clock_TTY (vm : VM) (env : Env) :
  TTY (fst (poll_clock vm env)) = TTY vm.
Proof. unfold poll_clock. split_ifs; reflexivity. Qed.

Lemma poll_clock_ext (a b : VM) (env : Env) :
  CF a = CF b -> LTR a = LTR b ->
  snd (poll_clock a env) = snd (poll_clock b env).
Proof.
  intros HCF HLTR. unfold poll_clock. rewrite HCF, HLTR.
  destruct (0 <? CF b); [| reflexivity].
  destruct (LTR b =? 0); cbn [with_LTR CF LTR]; rewrite ?HCF, ?HLTR;
    split_ifs; reflexivity.
Qed.

Lemma poll_tty_ext (a b : VM) (env : Env) :
  TTY a = TTY b ->
  snd (fst (poll_tty a env)) = snd (fst (poll_tty b env)) /\
  snd (poll_tty a env) = snd (poll_tty b env).
Proof.
  intros HTTY. unfold poll_tty. rewrite HTTY.
  destruct (TTY b) as [tty |]; [| split; reflexivity].
  destruct (InterruptPending tty env) as [[tty' ok] err]. split; reflexivity.
Qed.

(** The poll reads the status word, the clock's two registers and the TTY,
    and nothing else. *)
Lemma poll_outcome_ext (a b : VM) (env : Env) :
  S a = S b -> CF a = CF b -> LTR a = LTR b -> TTY a = TTY b ->
  poll_outcome a env = poll_outcome b env.
Proof.
  intros HS HCF HLTR HTTY. unfold poll_outcome. rewrite HS.
  destruct (Z.land (get (S b) 0) StatusInterrupts =? 0); [reflexivity |].
  pose proof (poll_clock_ext a b env HCF HLTR) as Hfired.
  pose proof (poll_clock_TTY a env) as Ha.
  pose proof (poll_clock_TTY b env) as Hb.
  destruct (poll_clock a env) as [a1 fa], (poll_clock b env) as [b1 fb].
  cbn [fst snd] in *. subst fb. destruct fa; [reflexivity |].
  destruct (poll_tty_ext a1 b1 env) as [Hok Herr]; [congruence |].
  destruct (poll_tty a1 env) as [[a2 oka] erra],
    (poll_tty b1 env) as [[b2 okb] errb].
  cbn [fst snd] in *. subst okb errb. reflexivity.
Qed.

(** [Execute] when the switch returns no error and the poll after it
    comes to nothing. *)
Lemma Execute_quiet (vm : VM) (ci : Z) (env : Env) (vm1 : VM) :
  Execute_switch vm ci = (vm1, None) ->
  poll_outcome vm1 env = Quiet ->
  snd (Execute vm ci env) = None /\
  GPR (fst (Execute vm ci env)) = set (GPR vm1) 0 0 /\
  PC (fst (Execute vm ci env)) = PC vm1 /\
  M (fst (Execute vm ci env)) = M vm1 /\
  S (fst (Execute vm ci env)) = S vm1 /\
  CF (fst (Execute vm ci env)) = CF vm1.
Proof.
  intros Hsw Hq.
  destruct (MaybeInterrupt_no_raise vm1 env) as [Hcore Herr];
    [rewrite Hq; reflexivity |].
  rewrite Hq in Herr. unfold Execute. rewrite Hsw.
  destruct (MaybeInterrupt vm1 env) as [vm' err]. cbn [fst snd] in *.
  destruct Hcore as (Hc & Hg & _ & _ & _ & Hm & Hp & Hs).
  cbn [fst snd with_GPR PC M S GPR CF]. rewrite Hg.
  repeat split; assumption.
Qed.

(** X7. With paging off, an address that is not a device register is
    its own physical address: [Memory] returns the cell at that address
    when it is below [MemorySize] and the bare [ErrSIGSEGV] otherwise,
    whatever access flags are asked for. *)
Theorem Memory_unpaged (vm : VM) (off flags : Z) :
  Z.land (get (S vm) 0) StatusPaging = 0 ->
  is_mmio vm off = false ->
  Memory vm off flags
  = if MemorySize <=? off then inr ErrSIGSEGV else inl (RefM off).
Proof.
  unfold Memory, is_mmio. intros Hp Hm. rewrite Hp.
  destruct (off =? MMClockFrequency); [discriminate Hm |].
  destruct (attached vm); cbn [andb orb] in *; [| reflexivity].
  destruct (off =? MMTTYStatus); [discriminate Hm |].
  destruct (off =? MMTTYIn); [discriminate Hm |].
  destruct (off =? MMTTYOut); [discriminate Hm |].
  reflexivity.
Qed.

Lemma Memory_unpaged_witness :
  Memory new 1048575 MemoryExec
  = (if MemorySize <=? 1048575 then inr ErrSIGSEGV else inl (RefM 1048575)).
Proof. apply (Memory_unpaged new 1048575 MemoryExec); reflexivity. Defined.

Lemma Memory_device_register (vm : VM) (off flags : Z) :
  is_mmio vm off = true ->
  131072 <= off <= 131075 /\
  Memory vm off flags
  = inl (if off =? MMClockFrequency then RefCF
         else if off =? MMTTYStatus then RefTTYStatus
         else if off =? MMTTYIn then RefTTYIn else RefTTYOut).
Proof.
  unfold Memory, is_mmio. intros Hm.
  destruct (Z.eqb_spec off MMClockFrequency) as [-> | _];
    [split; [vm_compute; split; discriminate | reflexivity] |].
  destruct (attached vm); cbn [andb orb] in *; [| discriminate Hm].
  destruct (Z.eqb_spec off MMTTYStatus) as [-> | _];
    [split; [vm_compute; split; discriminate | reflexivity] |].
  destruct (Z.eqb_spec off MMTTYIn) as [-> | _];
    [split; [vm_compute; split; discriminate | reflexivity] |].
  destruct (Z.eqb_spec off MMTTYOut) as [-> | _];
    [split; [vm_compute; split; discriminate | reflexivity] |].
  discriminate Hm.
Qed.

Lemma Memory_cell_bounds (vm : VM) (off flags : Z) (r : ref) :
  is_mmio vm off = false -> 0 <= off ->
  Memory vm off flags = inl r ->
  exists a, r = RefM a /\ 0 <= a < MemorySize.
Proof.
  unfold Memory, is_mmio. intros Hm Hoff.
  destruct (off =? MMClockFrequency); [discriminate Hm |].
  assert (Hdev : attached vm && (off =? MMTTYStatus) = false /\
                 attached vm && (off =? MMTTYIn) = false /\
                 attached vm && (off =? MMTTYOut) = false).
  { destruct (attached vm); cbn [andb orb] in *; [| auto].
    destruct (off =? MMTTYStatus); [discriminate Hm |].
    destruct (off =? MMTTYIn); [discriminate Hm |].
    destruct (off =? MMTTYOut); [discriminate Hm |]. auto. }
  destruct Hdev as (-> & -> & ->).
  destruct (negb (Z.land (get (S vm) 0) StatusPaging =? 0)).
  - destruct (negb (Z.land (get (S vm) 1) 1023 =? 0)); [discriminate |].
    destruct (MemorySize <=? add32 (get (S vm) 1) (Z.shiftr off 10));
      [discriminate |].
    destruct (negb _); [discriminate |].
    match goal with
    | |- context [MemorySize <=? ?a] =>
        destruct (Z.leb_spec MemorySize a) as [Hge | Hlt]; [discriminate |];
        intros [= <-]; exists a; split; [reflexivity |]; split; [| exact Hlt];
        unfold add32, wrap32; apply Z.mod_pos_bound; lia
    end.
  - destruct (Z.leb_spec MemorySize off) as [Hge | Hlt]; [discriminate |].
    intros [= <-]. exists off. auto.
Qed.

(** X8. The device registers sit in front of the memory: at the
    clock's address, and at the TTY's three addresses while a TTY is
    attached, [Memory] returns the register whatever the paging state and
    the access flags; at any other address it returns a memory cell, and
    that cell is inside the memory array. *)
Theorem Memory_devices (vm : VM) (off flags : Z) :
  (is_mmio vm off = true ->
   131072 <= off <= 131075 /\
   Memory vm off flags
   = inl (if off =? MMClockFrequency then RefCF
          else if off =? MMTTYStatus then RefTTYStatus
          else if off =? MMTTYIn then RefTTYIn else RefTTYOut)) /\
  (is_mmio vm off = false -> 0 <= off ->
   forall r, Memory vm off flags = inl r ->
     exists a, r = RefM a /\ 0 <= a < MemorySize).
Proof.
  split.
  - apply Memory_device_register.
  - intros Hm Hoff r. apply Memory_cell_bounds; assumption.
Qed.

Lemma Interrupt_S (vm : VM) (code : Z) :
  S (fst (Interrupt vm code)) = S vm \/
  S (fst (Interrupt vm code))
  = set (S vm) 0
      (Z.ldiff (get (S vm) 0)
         (Z.lor (Z.lor StatusUserMode StatusInterrupts) StatusPaging)).
Proof. unfold Interrupt. split_ifs; cbn; auto. Qed.

(** What the poll leaves alone, whatever it returns. *)
Lemma MaybeInterrupt_frame (vm : VM) (env : Env) :
  let vm' := fst (MaybeInterrupt vm env) in
  M vm' = M vm /\ CF vm' = CF vm /\
  (S vm' = S vm \/
   S vm'
   = set (S vm) 0
       (Z.ldiff (get (S vm) 0)
          (Z.lor (Z.lor StatusUserMode StatusInterrupts) StatusPaging))) /\
  (forall i, i <> 29 -> get (GPR vm') i = get (GPR vm) i).
Proof.
  cbv zeta. destruct (poll_outcome vm env) as [| irq | err] eqn:Hp.
  1, 3: destruct (MaybeInterrupt_no_raise vm env) as [Hcore _];
    [rewrite Hp; reflexivity |];
    destruct Hcore as (Hc & Hg & _ & _ & _ & Hm & _ & Hs);
    rewrite Hm, Hc, Hs, Hg; auto.
  destruct (MaybeInterrupt_raise vm env irq Hp) as (vm1 & Hcore & ->).
  destruct Hcore as (Hc & Hg & _ & _ & _ & Hm & _ & Hs).
  destruct (Interrupt_frame vm1 irq) as (Hm' & Hc' & _ & _ & _ & Hg').
  pose proof (Interrupt_S vm1 irq) as Hs'.
  rewrite Hm', Hc', <- Hm, <- Hc, <- Hs, <- Hg. auto.
Qed.

(** X9. An instruction other than [sw] leaves the memory array as it
    is, with or without an interrupt delivered after it; [sw] changes at
    most one cell of it, inside the array, to the value of its register
    rA. *)
Theorem Execute_writes_memory (vm : VM) (ci : Z) (env : Env) :
  (DecodeOpcode ci <> OpcodeSW -> M (fst (Execute vm ci env)) = M vm) /\
  (DecodeOpcode ci = OpcodeSW ->
   M (fst (Execute vm ci env)) = M vm \/
   exists a, 0 <= a < MemorySize /\
     M (fst (Execute vm ci env)) = set (M vm) a (get (GPR vm) (DecodeRA ci))).
Proof.
  assert (Hexec : M (fst (Execute vm ci env)) = M (fst (Execute_switch vm ci))).
  { unfold Execute. destruct (Execute_switch vm ci) as [vm1 [err |]];
      [reflexivity |].
    destruct (MaybeInterrupt_frame vm1 env) as (Hm & _).
    destruct (MaybeInterrupt vm1 env) as [vm2 err]. exact Hm. }
  rewrite Hexec. split.
  - intros Hop. unfold Execute_switch, Decode.
    replace (DecodeOpcode ci =? OpcodeSW) with false
      by (symmetry; apply Z.eqb_neq; exact Hop).
    cbn [orb].
    destruct (DecodeOpcode ci =? OpcodeJALR).
    { split_ifs; try reflexivity. apply Interrupt_frame. }
    split_ifs; try reflexivity;
      destruct (Memory vm _ _); split_ifs; reflexivity.
  - intros Hop. unfold Execute_switch, Decode. rewrite Hop.
    cbn [Z.eqb OpcodeSW OpcodeJALR OpcodeADD OpcodeADDI OpcodeNAND OpcodeLUI
           Pos.eqb orb].
    cbv zeta.
    destruct (Memory vm _ _) as [r |] eqn:Hmem; [| left; reflexivity].
    destruct r; cbn; try (left; reflexivity).
    right. exists off. split; [| reflexivity].
    destruct (is_mmio vm (add32 (get (GPR vm) (DecodeRB ci)) (DecodeImm17 ci)))
      eqn:Hdev.
    + destruct (Memory_device_register vm _ (Z.lor 0 MemoryWrite) Hdev)
        as [_ Hr].
      rewrite Hr in Hmem.
      repeat match type of Hmem with
             | context [if ?b then _ else _] => destruct b
             end; discriminate Hmem.
    + destruct (Memory_cell_bounds vm _ (Z.lor 0 MemoryWrite) (RefM off) Hdev)
        as (a & [= ->] & Ha).
      * unfold add32, wrap32. apply Z.mod_pos_bound. lia.
      * exact Hmem.
      * exact Ha.
Qed.

(** After an entry into an interrupt, interrupts are disabled: the poll
    that follows does nothing. *)
Lemma Interrupt_then_poll (vm : VM) (code : Z) (vm1 : VM) (env : Env) :
  Interrupt vm code = (vm1, None) -> MaybeInterrupt vm1 env = (vm1, None).
Proof.
  intros H. apply Interrupt_inv in H.
  destruct H as [(_ & _ & [=]) | [(_ & _ & _ & [=]) | (_ & _ & H)]].
  cbv zeta in H. destruct H as [(_ & _ & [=]) | (_ & -> & _)].
  unfold MaybeInterrupt. cbn [with_PC S].
  rewrite get_set_eq.
  destruct (flags_cleared (get (S vm) 0)) as (_ & -> & _). reflexivity.
Qed.

(** X10. The privileged instructions fault without any effect: [wsr],
    [rsr] and [iret] in user mode, and [wsr] and [rsr] of a status register
    that does not exist, return [ErrNotPermitted] and leave the machine as
    it was but for GPR[0]; no interrupt is polled. *)
Theorem Execute_privileged (vm : VM) (ci : Z) (env : Env) :
  (Z.land (get (S vm) 0) StatusUserMode <> 0 /\
   (DecodeOpcode ci = OpcodeWSR \/ DecodeOpcode ci = OpcodeRSR \/
    DecodeOpcode ci = OpcodeIRET)) \/
  ((DecodeOpcode ci = OpcodeWSR \/ DecodeOpcode ci = OpcodeRSR) /\
   NumStatusRegisters <= DecodeImm22 ci) ->
  Execute vm ci env = (with_GPR vm (set (GPR vm) 0 0), Some ErrNotPermitted).
Proof.
  intros H.
  assert (Hsw : Execute_switch vm ci = (vm, Some ErrNotPermitted)).
  { unfold Execute_switch, Decode.
    destruct H as [[Hu [Hop | [Hop | Hop]]] | [[Hop | Hop] Hk]];
      rewrite Hop; opcodes; cbn [Z.eqb Pos.eqb orb];
      try (apply Z.eqb_neq in Hu; rewrite Hu; reflexivity).
    all: destruct (negb _); [reflexivity |].
    all: replace (NumStatusRegisters <=? DecodeImm22 ci) with true by lia.
    all: reflexivity. }
  unfold Execute. rewrite Hsw. reflexivity.
Qed.

Lemma Execute_privileged_witness :
  Execute entry_state 1073741824 quiet_env
  = (with_GPR entry_state (set (GPR entry_state) 0 0), Some ErrNotPermitted).
Proof.
  apply (Execute_privileged entry_state 1073741824 quiet_env).
  left. split; [vm_compute; discriminate | left; reflexivity].
Defined.

(** X11. A software trap ([jalr r0 r0 n] with interrupts enabled) is the
    entry into interrupt [n] and nothing more: [Execute] returns what
    [Interrupt] returns, with GPR[0] zeroed, and no hardware interrupt is
    delivered on top of it. *)
Theorem Execute_trap (vm : VM) (ci : Z) (env : Env) :
  DecodeOpcode ci = OpcodeJALR -> DecodeRA ci = 0 -> DecodeRB ci = 0 ->
  Z.land (get (S vm) 0) StatusInterrupts <> 0 ->
  Execute vm ci env
  = (with_GPR (fst (Interrupt vm (DecodeImm17 ci)))
       (set (GPR (fst (Interrupt vm (DecodeImm17 ci)))) 0 0),
     snd (Interrupt vm (DecodeImm17 ci))).
Proof.
  intros Hop Hra Hrb Hi. apply Z.eqb_neq in Hi.
  unfold Execute, Execute_switch, Decode. rewrite Hop, Hra, Hrb, Hi.
  cbn [Z.eqb OpcodeJALR negb orb].
  destruct (Interrupt vm (DecodeImm17 ci)) as [vm1 [err |]] eqn:Hint;
    [reflexivity |].
  rewrite (Interrupt_then_poll _ _ _ env Hint). reflexivity.
Qed.

Lemma Execute_trap_witness :
  Execute entry_state 1 quiet_env
  = (with_GPR (fst (Interrupt entry_state (DecodeImm17 1)))
       (set (GPR (fst (Interrupt entry_state (DecodeImm17 1)))) 0 0),
     snd (Interrupt entry_state (DecodeImm17 1))).
Proof.
  apply (Execute_trap entry_state 1 quiet_env); try reflexivity.
  vm_compute. discriminate.
Defined.

(** X12. In user mode no instruction changes the status registers: after
    [Execute] they are as before, or, when an interrupt or a trap was
    entered, as before but for the three flags that the entry clears in
    S[0]. *)
Theorem Execute_user_mode_S (vm : VM) (ci : Z) (env : Env) :
  Z.land (get (S vm) 0) StatusUserMode <> 0 ->
  S (fst (Execute vm ci env)) = S vm \/
  S (fst (Execute vm ci env))
  = set (S vm) 0
      (Z.ldiff (get (S vm) 0)
         (Z.lor (Z.lor StatusUserMode StatusInterrupts) StatusPaging)).
Proof.
  intros Hu. apply Z.eqb_neq in Hu.
  assert (Hpoll : forall vm1, Execute_switch vm ci = (vm1, None) ->
            S vm1 = S vm ->
            S (fst (Execute vm ci env)) = S vm \/
            S (fst (Execute vm ci env))
            = set (S vm) 0
                (Z.ldiff (get (S vm) 0)
                   (Z.lor (Z.lor StatusUserMode StatusInterrupts)
                      StatusPaging))).
  { intros vm1 Hsw Hs. unfold Execute. rewrite Hsw.
    destruct (MaybeInterrupt_frame vm1 env) as (_ & _ & Hs' & _).
    destruct (MaybeInterrupt vm1 env) as [vm2 err]. cbn [fst S with_GPR] in *.
    rewrite Hs in Hs'. exact Hs'. }
  assert (Hfault : forall err, Execute_switch vm ci = (vm, Some err) ->
            S (fst (Execute vm ci env)) = S vm).
  { intros err Hsw. unfold Execute. rewrite Hsw. reflexivity. }
  unfold Execute_switch, Decode in Hpoll, Hfault.
  destruct (Z.eqb_spec (DecodeOpcode ci) OpcodeJALR) as [Hop | Hop].
  { destruct (negb (DecodeRA ci =? 0) || negb (DecodeRB ci =? 0)) eqn:Hr.
    - eapply Hpoll; reflexivity.
    - destruct (Z.land (get (S vm) 0) StatusInterrupts =? 0) eqn:Hi.
      + left. eapply Hfault. reflexivity.
      + clear Hpoll Hfault. unfold Execute, Execute_switch, Decode.
        rewrite Hop, Hr, Hi. cbn [Z.eqb OpcodeJALR].
        pose proof (Interrupt_S vm (DecodeImm17 ci)) as Hs.
        destruct (Interrupt vm (DecodeImm17 ci)) as [vm1 [err |]] eqn:Hint;
          [exact Hs |].
        rewrite (Interrupt_then_poll _ _ _ env Hint). exact Hs. }
  rewrite Hu in Hpoll, Hfault. cbn [negb] in Hpoll, Hfault.
  repeat match type of Hpoll with
         | context [if ?b then _ else _] =>
             first [ destruct (Memory vm _ _) as [r |] eqn:Hmem | idtac ];
             destruct b
         end.
  all: try (left; eapply Hfault; reflexivity).
  all: try (eapply Hpoll; reflexivity).
  eapply Hpoll; [reflexivity | destruct r; reflexivity].
Qed.

Lemma MaybeInterrupt_disabled (vm : VM) (env : Env) :
  Z.land (get (S vm) 0) StatusInterrupts = 0 -> MaybeInterrupt vm env = (vm, None).
Proof. intros H. unfold MaybeInterrupt. rewrite H. reflexivity. Qed.

(** At [entry_state], a [wsr r0 1]. *)
Lemma Execute_user_mode_S_witness :
  S (fst (Execute entry_state 1073741825 quiet_env)) = S entry_state \/
  S (fst (Execute entry_state 1073741825 quiet_env))
  = set (S entry_state) 0
      (Z.ldiff (get (S entry_state) 0)
         (Z.lor (Z.lor StatusUserMode StatusInterrupts) StatusPaging)).
Proof.
  apply (Execute_user_mode_S entry_state 1073741825 quiet_env).
  vm_compute. discriminate.
Defined.

(** X13. [jalr rA rB] with a register other than r0: rA receives the
    program counter (which [Fetch] has already moved to the next
    instruction) and control goes to the address in rB, read after rA was
    written; so [jalr rA rA] links without jumping. Nothing else changes
    when the poll after the instruction comes to nothing. *)
Theorem Execute_jalr (vm : VM) (ci : Z) (env : Env) :
  DecodeOpcode ci = OpcodeJALR ->
  DecodeRA ci <> 0 \/ DecodeRB ci <> 0 ->
  poll_outcome vm env = Quiet ->
  snd (Execute vm ci env) = None /\
  PC (fst (Execute vm ci env))
  = (if DecodeRA ci =? DecodeRB ci then PC vm else get (GPR vm) (DecodeRB ci)) /\
  (DecodeRA ci <> 0 ->
   get (GPR (fst (Execute vm ci env))) (DecodeRA ci) = PC vm) /\
  (forall i, i <> DecodeRA ci -> i <> 0 ->
     get (GPR (fst (Execute vm ci env))) i = get (GPR vm) i) /\
  M (fst (Execute vm ci env)) = M vm /\
  S (fst (Execute vm ci env)) = S vm.
Proof.
  intros Hop Hr Hq.
  assert (Hsw : Execute_switch vm ci
    = (with_PC (with_GPR vm (set (GPR vm) (DecodeRA ci) (PC vm)))
         (get (set (GPR vm) (DecodeRA ci) (PC vm)) (DecodeRB ci)), None)).
  { unfold Execute_switch, Decode. rewrite Hop. cbn [Z.eqb OpcodeJALR].
    replace (negb (DecodeRA ci =? 0) || negb (DecodeRB ci =? 0)) with true
      by (symmetry; apply orb_true_iff; rewrite !negb_true_iff, !Z.eqb_neq;
          exact Hr).
    reflexivity. }
  destruct (Execute_quiet vm ci env _ Hsw) as (He & Hg & Hp & Hm & Hs & _).
  { rewrite <- Hq. apply poll_outcome_ext; reflexivity. }
  rewrite He, Hg, Hp, Hm, Hs. cbn [with_PC with_GPR GPR PC M S].
  repeat split.
  - destruct (Z.eqb_spec (DecodeRA ci) (DecodeRB ci)) as [<- | Hne].
    + apply get_set_eq.
    + apply get_set_ne. exact Hne.
  - intros Hra. rewrite get_set_ne by congruence. apply get_set_eq.
  - intros i Hi H0. rewrite !get_set_ne by congruence. reflexivity.
Qed.

(** [jalr r31 r1] at [entry_state], a call. *)
Lemma Execute_jalr_witness :
  snd (Execute entry_state 130154496 quiet_env) = None /\
  PC (fst (Execute entry_state 130154496 quiet_env))
  = (if DecodeRA 130154496 =? DecodeRB 130154496 then PC entry_state
     else get (GPR entry_state) (DecodeRB 130154496)) /\
  (DecodeRA 130154496 <> 0 ->
   get (GPR (fst (Execute entry_state 130154496 quiet_env)))
     (DecodeRA 130154496) = PC entry_state) /\
  (forall i, i <> DecodeRA 130154496 -> i <> 0 ->
     get (GPR (fst (Execute entry_state 130154496 quiet_env))) i
     = get (GPR entry_state) i) /\
  M (fst (Execute entry_state 130154496 quiet_env)) = M entry_state /\
  S (fst (Execute entry_state 130154496 quiet_env)) = S entry_state.
Proof.
  apply (Execute_jalr entry_state 130154496 quiet_env).
  - reflexivity.
  - left. vm_compute. discriminate.
  - vm_compute. reflexivity.
Defined.

(** Without paging the translation of an address reads S[0] and whether a
    TTY is attached, and nothing else. *)
Lemma unpaged_Memory_ext (a b : VM) (off f1 f2 : Z) :
  Z.land (get (S a) 0) StatusPaging = 0 ->
  S b = S a -> attached b = attached a ->
  Memory b off f2 = Memory a off f1.
Proof.
  intros Hp Hs Ha. unfold Memory. rewrite Hs, Ha, Hp. reflexivity.
Qed.

(** A cell below [MemorySize] can always be reached without paging, and
    reads back what was stored in it. *)
Lemma unpaged_Memory_cell (vm : VM) (off flags : Z) :
  Z.land (get (S vm) 0) StatusPaging = 0 ->
  off < MemorySize ->
  exists r, Memory vm off flags = inl r /\
    forall v g, load (with_GPR (store vm r v) g) r = v.
Proof.
  intros Hp Hoff. unfold Memory. rewrite Hp.
  change (negb (0 =? 0)) with false. cbv iota zeta.
  replace (MemorySize <=? off) with false by lia.
  unfold attached. destruct (TTY vm) as [tty |] eqn:Htty; cbn [andb];
    split_ifs; (eexists; split; [reflexivity |]); intros v g; cbn;
    rewrite ?Htty; try reflexivity; apply get_set_eq.
Qed.

Lemma store_frame (vm : VM) (r : ref) (v : Z) :
  GPR (store vm r v) = GPR vm /\ S (store vm r v) = S vm /\
  PC (store vm r v) = PC vm /\
  attached (store vm r v) = attached vm.
Proof.
  destruct r; cbn; repeat split; unfold attached; cbn;
    destruct (TTY vm); reflexivity.
Qed.

(** X14. A store followed by a load from the same address, with paging
    and interrupts off: [sw rA rB imm] then [lw rC rB imm] leaves in rC the
    value that rA held, whether the address below [MemorySize] is a memory
    cell or a device register. *)
Theorem Execute_sw_lw (vm : VM) (sw lw : Z) (env1 env2 : Env) :
  DecodeOpcode sw = OpcodeSW -> DecodeOpcode lw = OpcodeLW ->
  DecodeRB lw = DecodeRB sw -> DecodeImm17 lw = DecodeImm17 sw ->
  Z.land (get (S vm) 0) StatusPaging = 0 ->
  Z.land (get (S vm) 0) StatusInterrupts = 0 ->
  get (GPR vm) 0 = 0 ->
  add32 (get (GPR vm) (DecodeRB sw)) (DecodeImm17 sw) < MemorySize ->
  DecodeRA lw <> 0 ->
  snd (Execute vm sw env1) = None /\
  snd (Execute (fst (Execute vm sw env1)) lw env2) = None /\
  get (GPR (fst (Execute (fst (Execute vm sw env1)) lw env2))) (DecodeRA lw)
  = get (GPR vm) (DecodeRA sw).
Proof.
  intros Hsw Hlw Hrb Himm Hp Hi H0 Haddr Hra.
  set (addr := add32 (get (GPR vm) (DecodeRB sw)) (DecodeImm17 sw)) in *.
  destruct (unpaged_Memory_cell vm addr (Z.lor 0 MemoryWrite) Hp Haddr)
    as (r & Hmem & Hload).
  destruct (store_frame vm r (get (GPR vm) (DecodeRA sw)))
    as (Hg & Hs & _ & Ha).
  (* the store *)
  assert (H1 : Execute vm sw env1
    = (with_GPR (store vm r (get (GPR vm) (DecodeRA sw)))
         (set (GPR vm) 0 0), None)).
  { unfold Execute, Execute_switch, Decode. rewrite Hsw.
    cbn [Z.eqb Pos.eqb OpcodeSW OpcodeJALR OpcodeADD OpcodeADDI OpcodeNAND
           OpcodeLUI orb]. cbv zeta.
    fold addr. rewrite Hmem. cbv beta iota.
    rewrite (MaybeInterrupt_disabled
               (store vm r (get (GPR vm) (DecodeRA sw))) env1)
      by (rewrite Hs; exact Hi).
    rewrite Hg. reflexivity. }
  rewrite H1. cbn [fst snd].
  set (vm1 := with_GPR (store vm r (get (GPR vm) (DecodeRA sw)))
                (set (GPR vm) 0 0)).
  assert (Hbase : get (GPR vm1) (DecodeRB lw) = get (GPR vm) (DecodeRB sw)).
  { subst vm1. cbn [with_GPR GPR]. rewrite Hrb.
    destruct (Z.eq_dec (DecodeRB sw) 0) as [-> | Hne].
    - rewrite get_set_eq. symmetry. exact H0.
    - apply get_set_ne. congruence. }
  assert (Hmem1 : Memory vm1 addr (Z.lor 0 MemoryRead) = inl r).
  { rewrite <- Hmem. apply unpaged_Memory_ext; [exact Hp | exact Hs | exact Ha]. }
  assert (H2 : Execute vm1 lw env2
    = (with_GPR vm1 (set (set (GPR vm1) (DecodeRA lw) (load vm1 r)) 0 0), None)).
  { unfold Execute, Execute_switch, Decode. rewrite Hlw.
    cbn [Z.eqb Pos.eqb OpcodeSW OpcodeLW OpcodeJALR OpcodeADD OpcodeADDI
           OpcodeNAND OpcodeLUI orb]. cbv zeta.
    rewrite Hbase, Himm. fold addr. rewrite Hmem1. cbv beta iota.
    rewrite (MaybeInterrupt_disabled
               (with_GPR vm1 (set (GPR vm1) (DecodeRA lw) (load vm1 r))) env2)
      by (subst vm1; cbn [with_GPR S]; rewrite Hs; exact Hi).
    reflexivity. }
  rewrite H2. cbn [fst snd with_GPR GPR].
  repeat split.
  rewrite get_set_ne by congruence. rewrite get_set_eq.
  apply Hload.
Qed.

(** [sw r29 r0 5] then [lw r3 r0 5] on a machine that has just been
    created, with 999 in r29. *)
Lemma Execute_sw_lw_witness :
  snd (Execute (with_GPR new (set ∅ 29 999)) 792723461 quiet_env) = None /\
  snd (Execute (fst (Execute (with_GPR new (set ∅ 29 999)) 792723461 quiet_env))
         817889285 quiet_env) = None /\
  get (GPR (fst (Execute
                   (fst (Execute (with_GPR new (set ∅ 29 999)) 792723461
                           quiet_env))
                   817889285 quiet_env))) (DecodeRA 817889285)
  = get (GPR (with_GPR new (set ∅ 29 999))) (DecodeRA 792723461).
Proof.
  apply (Execute_sw_lw (with_GPR new (set ∅ 29 999)) 792723461 817889285
           quiet_env quiet_env); try reflexivity.
  vm_compute. discriminate.
Defined.

(** X15. The clock comes before the TTY: when interrupts are enabled
    and at least [CF] milliseconds have passed since the last tick,
    [MaybeInterrupt] records the tick and enters the clock's interrupt
    without polling the TTY, whose registers stay as they are. *)
Theorem MaybeInterrupt_clock_first (vm : VM) (env : Env) :
  Z.land (get (S vm) 0) StatusInterrupts <> 0 ->
  0 < CF vm -> LTR vm <> 0 ->
  CF vm <= Milliseconds (Sub (now env) (LTR vm)) ->
  MaybeInterrupt vm env = Interrupt (with_LTR vm (now env)) IrqClock /\
  TTY (fst (MaybeInterrupt vm env)) = TTY vm /\
  LTR (fst (MaybeInterrupt vm env)) = now env.
Proof.
  intros Hi Hcf Hltr Hdue.
  assert (Hm : MaybeInterrupt vm env = Interrupt (with_LTR vm (now env)) IrqClock).
  { unfold MaybeInterrupt, poll_clock.
    apply Z.eqb_neq in Hi. rewrite Hi.
    replace (0 <? CF vm) with true by lia.
    apply Z.eqb_neq in Hltr. rewrite Hltr.
    replace (CF vm <=? Milliseconds (Sub (now env) (LTR vm))) with true by lia.
    reflexivity. }
  rewrite Hm. split; [reflexivity |].
  destruct (Interrupt_frame (with_LTR vm (now env)) IrqClock)
    as (_ & _ & Hl & Ht & _).
  rewrite Hl, Ht. split; reflexivity.
Qed.

(** [entry_state] two seconds later, with a byte waiting on the TTY. *)
Lemma MaybeInterrupt_clock_first_witness :
  MaybeInterrupt entry_state
    {| now := 3000000000; conn_write := None; conn_read := inl 65 |}
  = Interrupt (with_LTR entry_state 3000000000) IrqClock /\
  TTY (fst (MaybeInterrupt entry_state
              {| now := 3000000000; conn_write := None; conn_read := inl 65 |}))
  = TTY entry_state /\
  LTR (fst (MaybeInterrupt entry_state
              {| now := 3000000000; conn_write := None; conn_read := inl 65 |}))
  = 3000000000.
Proof.
  apply (MaybeInterrupt_clock_first entry_state
           {| now := 3000000000; conn_write := None; conn_read := inl 65 |}).
  - vm_compute. discriminate.
  - reflexivity.
  - vm_compute. discriminate.
  - vm_compute. discriminate.
Defined.

(** The two flags of the TTY's status register. *)
Lemma testbit_1 (n : Z) : 0 <= n -> Z.testbit 1 n = (n =? 0).
Proof.
  intros Hn. destruct (Z.eqb_spec n 0) as [-> | Hne]; [reflexivity |].
  apply Z.bits_above_log2; cbn; lia.
Qed.

Lemma land_lor_1_1 (x : Z) : Z.land (Z.lor x 1) 1 = 1.
Proof.
  apply Z.bits_inj'. intros n Hn.
  rewrite Z.land_spec, Z.lor_spec, testbit_1 by exact Hn.
  destruct (n =? 0); [apply andb_true_iff; split; [apply orb_true_r | reflexivity]
                     | apply andb_false_r].
Qed.

Lemma land_lor_1_2 (x : Z) : Z.land (Z.lor x 1) 2 = Z.land x 2.
Proof.
  rewrite Z.land_lor_distr_l. change (Z.land 1 2) with 0. apply Z.lor_0_r.
Qed.

Lemma land_ldiff_2_1 (x : Z) : Z.land (Z.ldiff x 2) 1 = Z.land x 1.
Proof.
  apply Z.bits_inj'. intros n Hn.
  rewrite !Z.land_spec, Z.ldiff_spec, testbit_1 by exact Hn.
  destruct (Z.eqb_spec n 0) as [-> | Hne]; [| rewrite !andb_false_r; reflexivity].
  change (Z.testbit 2 0) with false. cbn [negb]. rewrite !andb_true_r.
  reflexivity.
Qed.

(** X16. What one poll of the TTY can do: it reports an interrupt only
    with no error and with an input byte waiting (the input flag set, the
    output flag clear); it never writes the output register; and it never
    replaces an input byte that the program has not yet taken. *)
Theorem InterruptPending_input (tty : SerialTTY) (env : Env) :
  let tty' := fst (fst (InterruptPending tty env)) in
  (snd (fst (InterruptPending tty env)) = true ->
   snd (InterruptPending tty env) = None /\
   Z.land (tty_statr tty') TTYIn <> 0 /\
   Z.land (tty_statr tty') TTYOut = 0) /\
  tty_outr tty' = tty_outr tty /\
  (Z.land (tty_statr tty) TTYIn <> 0 ->
   tty_inr tty' = tty_inr tty /\ Z.land (tty_statr tty') TTYIn <> 0).
Proof.
  cbv zeta. unfold InterruptPending, TTYIn, TTYOut.
  pose proof (land_ldiff_2_1 (tty_statr tty)) as Hin'.
  destruct (Z.eqb_spec (Z.land (tty_statr tty) 2) 0) as [Hout | Hout];
    cbn [negb];
    [| destruct (conn_write env) as [text |];
       [destruct (HasSuffix text "i/o timeout") |];
       cbn [tty_statr tty_inr tty_outr]; rewrite ?Hin'];
    try (destruct (Z.eqb_spec (Z.land (tty_statr tty) 1) 0) as [Hin | Hin];
         [destruct (conn_read env) as [c | text];
          [| destruct (HasSuffix text "i/o timeout")] |]);
    cbn [fst snd tty_statr tty_inr tty_outr];
    rewrite ?land_lor_1_1, ?land_lor_1_2, ?Z.land_ldiff, ?Hin';
    repeat split; intros; try assumption; try contradiction;
    try discriminate; try lia.
Qed.

End CPU_more.

(** ** Assembled instructions, executed *)
Section Assembled.
Import vm.

(** An instruction that writes one register and nothing else. *)
Lemma Execute_register (vm : VM) (ci : Z) (env : Env) (ra v : Z) :
  Execute_switch vm ci = (with_GPR vm (set (GPR vm) ra v), None) ->
  poll_outcome vm env = Quiet ->
  snd (Execute vm ci env) = None /\
  (ra <> 0 -> get (GPR (fst (Execute vm ci env))) ra = v) /\
  (forall i, i <> ra -> i <> 0 ->
     get (GPR (fst (Execute vm ci env))) i = get (GPR vm) i) /\
  PC (fst (Execute vm ci env)) = PC vm /\
  M (fst (Execute vm ci env)) = M vm /\
  S (fst (Execute vm ci env)) = S vm.
Proof.
  intros Hsw Hq.
  destruct (Execute_quiet vm ci env _ Hsw) as (He & Hg & Hp & Hm & Hs & _).
  { rewrite <- Hq. apply poll_outcome_ext; reflexivity. }
  rewrite He, Hg, Hp, Hm, Hs. cbn [with_GPR GPR PC M S].
  repeat split.
  - intros Hra. rewrite get_set_ne by congruence. apply get_set_eq.
  - intros i Hi H0. rewrite !get_set_ne by congruence. reflexivity.
Qed.

Lemma Execute_switch_add (vm : VM) (ci : Z) :
  DecodeOpcode ci = OpcodeADD ->
  Execute_switch vm ci
  = (with_GPR vm
       (set (GPR vm) (DecodeRA ci)
          (add32 (get (GPR vm) (DecodeRB ci)) (get (GPR vm) (DecodeRC ci)))),
     None).
Proof. intros H. unfold Execute_switch, Decode. rewrite H. reflexivity. Qed.

Lemma Execute_switch_nand (vm : VM) (ci : Z) :
  DecodeOpcode ci = OpcodeNAND ->
  Execute_switch vm ci
  = (with_GPR vm
       (set (GPR vm) (DecodeRA ci)
          (not32 (Z.land (get (GPR vm) (DecodeRB ci))
                    (get (GPR vm) (DecodeRC ci))))),
     None).
Proof. intros H. unfold Execute_switch, Decode. rewrite H. reflexivity. Qed.

Lemma Execute_switch_addi (vm : VM) (ci : Z) :
  DecodeOpcode ci = OpcodeADDI ->
  Execute_switch vm ci
  = (with_GPR vm
       (set (GPR vm) (DecodeRA ci)
          (add32 (get (GPR vm) (DecodeRB ci)) (DecodeImm17 ci))),
     None).
Proof. intros H. unfold Execute_switch, Decode. rewrite H. reflexivity. Qed.

Lemma Execute_switch_lui (vm : VM) (ci : Z) :
  DecodeOpcode ci = OpcodeLUI ->
  Execute_switch vm ci
  = (with_GPR vm (set (GPR vm) (DecodeRA ci) (shl32 (DecodeImm22 ci) 10)), None).
Proof. intros H. unfold Execute_switch, Decode. rewrite H. reflexivity. Qed.

Lemma Execute_switch_beq (vm : VM) (ci : Z) :
  DecodeOpcode ci = OpcodeBEQ ->
  Execute_switch vm ci
  = (if get (GPR vm) (DecodeRA ci) =? get (GPR vm) (DecodeRB ci)
     then with_PC vm (add32 (PC vm) (DecodeImm17 ci)) else vm, None).
Proof.
  intros H. unfold Execute_switch, Decode. rewrite H.
  cbn [Z.eqb Pos.eqb OpcodeBEQ OpcodeJALR OpcodeADD OpcodeADDI OpcodeNAND
         OpcodeLUI OpcodeSW OpcodeLW orb].
  destruct (_ =? _); reflexivity.
Qed.

(** X17. An assembled [addi rA rB v], executed: rA receives the sum of
    rB and the signed operand, modulo 2^32; no other register but r0, and
    neither PC, memory nor the status registers change when the poll after
    the instruction comes to nothing. *)
Theorem Execute_assembled_addi (l : Z) (lb : option string) (ra rb : Z)
    (imm : string) (labels : gmap string Z) (pc v : Z) (vm : VM) (env : Env) :
  asm.denotes labels imm v ->
  - 65536 <= v <= 65535 ->
  0 <= ra < 32 -> 0 <= rb < 32 ->
  poll_outcome vm env = Quiet ->
  exists w, asm.Encode (asm.InstructionADDI l lb ra rb imm) labels pc = inl w /\
    snd (Execute vm w env) = None /\
    (ra <> 0 ->
     get (GPR (fst (Execute vm w env))) ra = wrap32 (get (GPR vm) rb + v)) /\
    (forall i, i <> ra -> i <> 0 ->
       get (GPR (fst (Execute vm w env))) i = get (GPR vm) i) /\
    PC (fst (Execute vm w env)) = PC vm /\
    M (fst (Execute vm w env)) = M vm /\
    S (fst (Execute vm w env)) = S vm.
Proof.
  intros Hden Hv Hra Hrb Hq.
  assert (Hres : asm.ResolveImmediate labels imm 17 l = inl (wrap32 v)).
  { rewrite (ResolveImmediate_of_denotes _ _ _ _ _ Hden).
    apply CastToUint32_inside; [lia | pow2; lia]. }
  unfold asm.Encode. rewrite Hres. cbv zeta.
  eexists. split; [reflexivity |].
  destruct (RRI_word asm.OpcodeADDI ra rb v)
    as (_ & Hop & Ha & Hb & Hi); [unfold asm.OpcodeADDI; lia | lia |].
  rewrite (Z.mod_small ra 32) in Ha by lia.
  rewrite (Z.mod_small rb 32) in Hb by lia.
  match goal with
  | |- context [Execute vm ?w env] =>
      pose proof (Execute_switch_addi vm w Hop) as Hsw;
      rewrite Ha, Hb, add32_to_int32, Hi in Hsw;
      exact (Execute_register vm w env _ _ Hsw Hq)
  end.
Qed.

(** [addi r29 r29 -1] at [entry_state]: the stack pointer goes from 999
    to 998. *)
Lemma Execute_assembled_addi_witness :
  exists w, asm.Encode (asm.InstructionADDI 4 None 29 29 "-1") ∅ 9 = inl w /\
    snd (Execute entry_state w quiet_env) = None /\
    (29 <> 0 ->
     get (GPR (fst (Execute entry_state w quiet_env))) 29
     = wrap32 (get (GPR entry_state) 29 + -1)) /\
    (forall i, i <> 29 -> i <> 0 ->
       get (GPR (fst (Execute entry_state w quiet_env))) i
       = get (GPR entry_state) i) /\
    PC (fst (Execute entry_state w quiet_env)) = PC entry_state /\
    M (fst (Execute entry_state w quiet_env)) = M entry_state /\
    S (fst (Execute entry_state w quiet_env)) = S entry_state.
Proof.
  apply (Execute_assembled_addi 4 None 29 29 "-1" ∅ 9 (-1) entry_state
           quiet_env); try lia.
  - left. reflexivity.
  - vm_compute. reflexivity.
Defined.

(** X18. An assembled [add] or [nand], executed: rA receives the sum
    modulo 2^32, or the complement of the bitwise and, of rB and rC, and
    nothing else changes but r0 when the poll after the instruction comes
    to nothing. *)
Theorem Execute_assembled_add_nand (l : Z) (lb : option string) (ra rb rc : Z)
    (labels : gmap string Z) (pc : Z) (vm : VM) (env : Env) :
  0 <= ra < 32 -> 0 <= rb < 32 -> 0 <= rc < 32 ->
  poll_outcome vm env = Quiet ->
  (exists w, asm.Encode (asm.InstructionADD l lb ra rb rc) labels pc = inl w /\
     snd (Execute vm w env) = None /\
     (ra <> 0 ->
      get (GPR (fst (Execute vm w env))) ra
      = wrap32 (get (GPR vm) rb + get (GPR vm) rc)) /\
     (forall i, i <> ra -> i <> 0 ->
        get (GPR (fst (Execute vm w env))) i = get (GPR vm) i) /\
     PC (fst (Execute vm w env)) = PC vm /\
     M (fst (Execute vm w env)) = M vm /\
     S (fst (Execute vm w env)) = S vm) /\
  (exists w, asm.Encode (asm.InstructionNAND l lb ra rb rc) labels pc = inl w /\
     snd (Execute vm w env) = None /\
     (ra <> 0 ->
      get (GPR (fst (Execute vm w env))) ra
      = wrap32 (Z.lnot (Z.land (get (GPR vm) rb) (get (GPR vm) rc)))) /\
     (forall i, i <> ra -> i <> 0 ->
        get (GPR (fst (Execute vm w env))) i = get (GPR vm) i) /\
     PC (fst (Execute vm w env)) = PC vm /\
     M (fst (Execute vm w env)) = M vm /\
     S (fst (Execute vm w env)) = S vm).
Proof.
  intros Hra Hrb Hrc Hq.
  assert (Hfields : forall op, 0 <= op < 32 ->
    let w := Z.lor (Z.lor (Z.lor (Z.lor 0 (shl32 (Z.land op 31) 27))
                             (shl32 (Z.land ra 31) 22))
                      (shl32 (Z.land rb 31) 17)) (Z.land rc 31) in
    DecodeOpcode w = op /\ DecodeRA w = ra /\ DecodeRB w = rb /\
    DecodeRC w = rc).
  { intros op Hop w. subst w. rewrite !land_31_mod.
    rewrite !Z.mod_small by lia. rewrite pack_fields by (pow2; lia).
    destruct (packed_fields op ra rb rc) as (_ & Ho & Ha & Hb & _);
      try (pow2; lia).
    repeat (split; [assumption |]).
    unfold DecodeRC. rewrite land_31_mod. divmod. }
  split; unfold asm.Encode; cbv zeta; eexists; (split; [reflexivity |]).
  - destruct (Hfields asm.OpcodeADD) as (Hop & Ha & Hb & Hc);
      [unfold asm.OpcodeADD; lia |].
    match goal with
    | |- context [Execute vm ?w env] =>
        pose proof (Execute_switch_add vm w Hop) as Hsw;
        rewrite Ha, Hb, Hc in Hsw;
        exact (Execute_register vm w env _ _ Hsw Hq)
    end.
  - destruct (Hfields asm.OpcodeNAND) as (Hop & Ha & Hb & Hc);
      [unfold asm.OpcodeNAND; lia |].
    match goal with
    | |- context [Execute vm ?w env] =>
        pose proof (Execute_switch_nand vm w Hop) as Hsw;
        rewrite Ha, Hb, Hc in Hsw;
        exact (Execute_register vm w env _ _ Hsw Hq)
    end.
Qed.


(** [add r3 r29 r29] and [nand r3 r29 r29] at [entry_state]. *)
Lemma Execute_assembled_add_nand_witness :
  (exists w, asm.Encode (asm.InstructionADD 4 None 3 29 29) ∅ 9 = inl w /\
     snd (Execute entry_state w quiet_env) = None /\
     (3 <> 0 ->
      get (GPR (fst (Execute entry_state w quiet_env))) 3
      = wrap32 (get (GPR entry_state) 29 + get (GPR entry_state) 29)) /\
     (forall i, i <> 3 -> i <> 0 ->
        get (GPR (fst (Execute entry_state w quiet_env))) i
        = get (GPR entry_state) i) /\
     PC (fst (Execute entry_state w quiet_env)) = PC entry_state /\
     M (fst (Execute entry_state w quiet_env)) = M entry_state /\
     S (fst (Execute entry_state w quiet_env)) = S entry_state) /\
  (exists w, asm.Encode (asm.InstructionNAND 4 None 3 29 29) ∅ 9 = inl w /\
     snd (Execute entry_state w quiet_env) = None /\
     (3 <> 0 ->
      get (GPR (fst (Execute entry_state w quiet_env))) 3
      = wrap32 (Z.lnot (Z.land (get (GPR entry_state) 29)
                          (get (GPR entry_state) 29)))) /\
     (forall i, i <> 3 -> i <> 0 ->
        get (GPR (fst (Execute entry_state w quiet_env))) i
        = get (GPR entry_state) i) /\
     PC (fst (Execute entry_state w quiet_env)) = PC entry_state /\
     M (fst (Execute entry_state w quiet_env)) = M entry_state /\
     S (fst (Execute entry_state w quiet_env)) = S entry_state).
Proof.
  apply (Execute_assembled_add_nand 4 None 3 29 29 ∅ 9 entry_state quiet_env);
    try lia.
  vm_compute. reflexivity.
Defined.

(** X19. An assembled [beq rA rB target], executed right after it was
    fetched from address [pc]: when the two registers are equal, control
    goes to [target]; otherwise it goes on at [pc + 1]. Registers other
    than r0, memory and status registers stay as they are. *)
Theorem Execute_assembled_beq (l : Z) (lb : option string) (ra rb : Z)
    (imm : string) (labels : gmap string Z) (pc t : Z) (vm : VM) (env : Env) :
  asm.denotes labels imm t ->
  0 <= t < 2 ^ 31 ->
  is_uint32 pc ->
  - 65536 <= t - pc - 1 <= 65535 ->
  0 <= ra < 32 -> 0 <= rb < 32 ->
  PC vm = add32 pc 1 ->
  poll_outcome vm env = Quiet ->
  exists w, asm.Encode (asm.InstructionBEQ l lb ra rb imm) labels pc = inl w /\
    snd (Execute vm w env) = None /\
    PC (fst (Execute vm w env))
    = (if get (GPR vm) ra =? get (GPR vm) rb then t else add32 pc 1) /\
    (forall i, i <> 0 -> get (GPR (fst (Execute vm w env))) i = get (GPR vm) i) /\
    M (fst (Execute vm w env)) = M vm /\
    S (fst (Execute vm w env)) = S vm.
Proof.
  intros Hden Ht Hpc Hoff Hra Hrb Hfetch Hq.
  assert (Hwrap : wrap32 t = t) by (unfold wrap32; apply Z.mod_small; lia).
  assert (Hres : asm.ResolveImmediate labels imm 32 l = inl (wrap32 t)).
  { rewrite (ResolveImmediate_of_denotes _ _ _ _ _ Hden).
    apply CastToUint32_inside; [lia | pow2; lia]. }
  unfold asm.Encode. rewrite Hres, Hwrap. cbv zeta.
  rewrite CastToUint32_inside by (lia || (pow2; lia)).
  eexists. split; [reflexivity |].
  destruct (RRI_word asm.OpcodeBEQ ra rb (t - pc - 1))
    as (_ & Hop & Ha & Hb & Hi); [unfold asm.OpcodeBEQ; lia | lia |].
  rewrite (Z.mod_small ra 32) in Ha by lia.
  rewrite (Z.mod_small rb 32) in Hb by lia.
  match goal with
  | |- context [Execute vm ?w env] =>
      pose proof (Execute_switch_beq vm w Hop) as Hsw;
      rewrite Ha, Hb, Hfetch, add32_to_int32, Hi in Hsw;
      destruct (Execute_quiet vm w env _ Hsw) as (He & Hg & Hp & Hm & Hs & _)
  end.
  { rewrite <- Hq. apply poll_outcome_ext;
      destruct (get (GPR vm) ra =? get (GPR vm) rb); reflexivity. }
  rewrite He, Hg, Hp, Hm, Hs.
  split; [reflexivity |].
  destruct (get (GPR vm) ra =? get (GPR vm) rb); cbn [with_PC PC GPR M S].
  - repeat split.
    + unfold add32, wrap32, is_uint32 in *. divmod.
    + intros i Hi0. apply get_set_ne. congruence.
  - repeat split; [exact Hfetch |].
    intros i Hi0. apply get_set_ne. congruence.
Qed.

(** [beq r1 r2 4096] fetched from address 76 at [entry_state], whose r1
    and r2 are both zero. *)
Lemma Execute_assembled_beq_witness :
  exists w, asm.Encode (asm.InstructionBEQ 4 None 1 2 "4096") ∅ 76 = inl w /\
    snd (Execute entry_state w quiet_env) = None /\
    PC (fst (Execute entry_state w quiet_env))
    = (if get (GPR entry_state) 1 =? get (GPR entry_state) 2
       then 4096 else add32 76 1) /\
    (forall i, i <> 0 ->
       get (GPR (fst (Execute entry_state w quiet_env))) i
       = get (GPR entry_state) i) /\
    M (fst (Execute entry_state w quiet_env)) = M entry_state /\
    S (fst (Execute entry_state w quiet_env)) = S entry_state.
Proof.
  apply (Execute_assembled_beq 4 None 1 2 "4096" ∅ 76 4096 entry_state
           quiet_env); try lia.
  - left. reflexivity.
  - unfold is_uint32. lia.
  - reflexivity.
  - vm_compute. reflexivity.
Defined.

(** The word of an instruction with one register and a 22-bit field. *)
Lemma RI_word (op ra lo : Z) :
  0 <= op < 32 -> 0 <= lo < 2 ^ 22 ->
  let w :=
    Z.lor (Z.lor (Z.lor 0 (shl32 (Z.land op 31) 27)) (shl32 (Z.land ra 31) 22))
      lo in
  DecodeOpcode w = op /\ DecodeRA w = ra mod 32 /\ DecodeImm22 w = lo.
Proof.
  intros Hop Hlo w. subst w.
  assert (Hra : 0 <= ra mod 32 < 32) by (apply Z.mod_pos_bound; lia).
  rewrite !land_31_mod. rewrite (Z.mod_small op 32) by lia.
  rewrite pack_fields_RI by assumption.
  unfold DecodeOpcode, DecodeRA, DecodeImm22.
  rewrite !Z.shiftr_div_pow2 by lia. rewrite !land_31_mod.
  change 4194303 with (2 ^ 22 - 1). rewrite land_mask by lia.
  repeat split; divmod.
Qed.

(** X20. Loading a 32-bit constant: [lui rA x] followed by [lli rA x],
    assembled from the same operand and executed one after the other with
    interrupts disabled, leave in rA the operand's value modulo 2^32; the
    other registers keep their values. *)
Theorem Execute_lui_lli (l1 l2 : Z) (lb1 lb2 : option string) (ra : Z)
    (imm : string) (labels : gmap string Z) (pc1 pc2 v : Z) (vm : VM)
    (env1 env2 : Env) :
  asm.denotes labels imm v ->
  - 2 ^ 31 <= v < 2 ^ 31 ->
  0 < ra < 32 ->
  Z.land (get (S vm) 0) StatusInterrupts = 0 ->
  exists w1 w2,
    asm.Encode (asm.InstructionLUI l1 lb1 ra imm) labels pc1 = inl w1 /\
    asm.Encode (asm.InstructionLLI l2 lb2 ra imm) labels pc2 = inl w2 /\
    snd (Execute vm w1 env1) = None /\
    snd (Execute (fst (Execute vm w1 env1)) w2 env2) = None /\
    get (GPR (fst (Execute (fst (Execute vm w1 env1)) w2 env2))) ra
    = wrap32 v /\
    (forall i, i <> ra -> i <> 0 ->
       get (GPR (fst (Execute (fst (Execute vm w1 env1)) w2 env2))) i
       = get (GPR vm) i).
Proof.
  intros Hden Hv Hra Hi.
  assert (Hres : forall l, asm.ResolveImmediate labels imm 32 l = inl (wrap32 v)).
  { intros l. rewrite (ResolveImmediate_of_denotes _ _ _ _ _ Hden).
    apply CastToUint32_inside; [lia | pow2; lia]. }
  assert (Himm : is_uint32 (wrap32 v))
    by (unfold is_uint32, wrap32; apply Z.mod_pos_bound; lia).
  set (x := wrap32 v) in *. unfold is_uint32 in Himm.
  unfold asm.Encode. rewrite !Hres. cbv zeta.
  eexists. eexists. split; [reflexivity |]. split; [reflexivity |].
  (* lui *)
  destruct (RI_word asm.OpcodeLUI ra (Z.shiftr x 10)) as (Hop1 & Ha1 & Hhi);
    [unfold asm.OpcodeLUI; lia
    | rewrite Z.shiftr_div_pow2 by lia; divmod |].
  rewrite (Z.mod_small ra 32) in Ha1 by lia.
  (* lli *)
  assert (Hlo : Z.land x 1023 = Z.land (wrap32 (x mod 2 ^ 10)) 131071).
  { change 1023 with (2 ^ 10 - 1). change 131071 with (2 ^ 17 - 1).
    rewrite !land_mask by lia. unfold wrap32. divmod. }
  rewrite Hlo.
  destruct (RRI_word asm.OpcodeADDI ra ra (x mod 2 ^ 10))
    as (_ & Hop2 & Ha2 & Hb2 & Hi2); [unfold asm.OpcodeADDI; lia | divmod |].
  rewrite (Z.mod_small ra 32) in Ha2, Hb2 by lia.
  match goal with
  | |- context [Execute (fst (Execute vm ?w1 env1)) ?w2 env2] =>
      set (lui := w1) in *; set (lli := w2) in *
  end.
  pose proof (Execute_switch_lui vm lui Hop1) as Hsw1.
  rewrite Ha1, Hhi in Hsw1.
  destruct (Execute_register vm lui env1 _ _ Hsw1)
    as (He1 & Hg1 & Hf1 & _ & _ & Hs1).
  { apply poll_outcome_Quiet. left. exact Hi. }
  set (vm1 := fst (Execute vm lui env1)) in *.
  pose proof (Execute_switch_addi vm1 lli Hop2) as Hsw2.
  rewrite Ha2, Hb2, add32_to_int32, Hi2, Hg1 in Hsw2 by lia.
  destruct (Execute_register vm1 lli env2 _ _ Hsw2)
    as (He2 & Hg2 & Hf2 & _).
  { apply poll_outcome_Quiet. left. rewrite Hs1. exact Hi. }
  split; [exact He1 |]. split; [exact He2 |]. split.
  - rewrite Hg2 by lia. unfold shl32, wrap32.
    rewrite Z.shiftl_mul_pow2, Z.shiftr_div_pow2 by lia. divmod.
  - intros i Hne H0. rewrite Hf2, Hf1 by assumption. reflexivity.
Qed.

(** [lui r29 1048575; lli r29 1048575] on a new machine: the stack
    pointer of the repository's test programs. *)
Lemma Execute_lui_lli_witness :
  exists w1 w2,
    asm.Encode (asm.InstructionLUI 1 None 29 "1048575") ∅ 0 = inl w1 /\
    asm.Encode (asm.InstructionLLI 1 None 29 "1048575") ∅ 1 = inl w2 /\
    snd (Execute new w1 quiet_env) = None /\
    snd (Execute (fst (Execute new w1 quiet_env)) w2 quiet_env) = None /\
    get (GPR (fst (Execute (fst (Execute new w1 quiet_env)) w2 quiet_env))) 29
    = wrap32 1048575 /\
    (forall i, i <> 29 -> i <> 0 ->
       get (GPR (fst (Execute (fst (Execute new w1 quiet_env)) w2 quiet_env))) i
       = get (GPR new) i).
Proof.
  apply (Execute_lui_lli 1 1 None None 29 "1048575" ∅ 0 1 1048575 new
           quiet_env quiet_env); try lia.
  - left. reflexivity.
  - reflexivity.
Defined.

End Assembled.

(** ** The two passes of the assembler *)
Section Assembler.
Import asm.

Lemma assign_labels_ok (parsed : list Instruction) :
  forall (idx : Z) (labels : gmap string Z) (acc : list Instruction),
    Forall (fun instr => Err instr = None) parsed ->
    exists labels',
      assign_labels parsed idx labels acc = inl (labels', acc ++ parsed).
Proof.
  induction parsed as [| instr parsed IH]; intros idx labels acc Hok.
  - exists labels. cbn. rewrite app_nil_r. reflexivity.
  - inversion Hok as [| ? ? Hinstr Hrest]; subst.
    cbn [assign_labels]. rewrite Hinstr.
    destruct (IH (idx + 1)
                (match Label instr with
                 | Some name => <[name := idx]> labels
                 | None => labels
                 end) (acc ++ [instr]) Hrest) as [labels' Heq].
    exists labels'. rewrite Heq, <- app_assoc. reflexivity.
Qed.

Lemma assign_labels_stops (pre post : list Instruction) (err : error)
    (lineno : Z) :
  forall (idx : Z) (labels : gmap string Z) (acc : list Instruction),
    Forall (fun instr => Err instr = None) pre ->
    assign_labels (pre ++ InstructionErr err lineno :: post) idx labels acc
    = inr {| ioe_Instruction := 0; ioe_Error := Some err;
             ioe_Lineno := lineno |}.
Proof.
  induction pre as [| instr pre IH]; intros idx labels acc Hok.
  - reflexivity.
  - inversion Hok as [| ? ? Hinstr Hrest]; subst.
    cbn [app assign_labels]. rewrite Hinstr. apply IH. exact Hrest.
Qed.

Lemma encode_all_imap (labels : gmap string Z) (instructions : list Instruction) :
  forall pc : Z,
    0 <= pc -> pc + Z.of_nat (length instructions) <= 2 ^ 32 ->
    encode_all labels instructions pc
    = imap (fun i instr => encoded_at labels (pc + Z.of_nat i) instr)
        instructions.
Proof.
  induction instructions as [| instr instructions IH]; intros pc Hpc Hlen.
  - reflexivity.
  - cbn [encode_all imap]. cbn [length] in Hlen.
    replace (2 ^ 32 - 1 <? pc) with false by lia.
    rewrite IH by lia.
    replace (pc + Z.of_nat 0) with pc by lia.
    assert (Htail :
      imap (fun i instr0 => encoded_at labels (pc + 1 + Z.of_nat i) instr0)
        instructions
      = imap ((fun i instr0 => encoded_at labels (pc + Z.of_nat i) instr0)
                ∘ Datatypes.S) instructions).
    { apply imap_ext. intros i x _. cbn. f_equal. lia. }
    rewrite Htail. unfold encoded_at.
    destruct (Encode instr labels (wrap32 pc)); reflexivity.
Qed.

(** X21. A parse error stops the assembler before it encodes anything:
    the output is one record, carrying the error and the line of the first
    instruction that the parser could not read. *)
Theorem AssemblerAsync_parse_error (pre post : list Instruction)
    (err : error) (lineno : Z) :
  Forall (fun instr => Err instr = None) pre ->
  AssemblerAsync (pre ++ InstructionErr err lineno :: post)
  = [{| ioe_Instruction := 0; ioe_Error := Some err; ioe_Lineno := lineno |}].
Proof.
  intros Hok. unfold AssemblerAsync.
  rewrite assign_labels_stops by exact Hok. reflexivity.
Qed.

Lemma AssemblerAsync_parse_error_witness :
  AssemblerAsync
    ([InstructionADDI 1 None 1 0 "6"]
     ++ InstructionErr ErrCannotEncode 2 :: [InstructionHALT 3 None])
  = [{| ioe_Instruction := 0; ioe_Error := Some ErrCannotEncode;
        ioe_Lineno := 2 |}].
Proof.
  apply (AssemblerAsync_parse_error [InstructionADDI 1 None 1 0 "6"]
           [InstructionHALT 3 None] ErrCannotEncode 2).
  repeat constructor.
Defined.

(** X22. Without a parse error the assembler sends one record for each
    instruction, in order: the instruction at index [i] encoded at address
    [i] against the complete label table, so that a label may be used
    before the line that defines it; an instruction that cannot be encoded
    yields a record with its error and the assembly goes on. *)
Theorem AssemblerAsync_records (parsed : list Instruction) :
  Forall (fun instr => Err instr = None) parsed ->
  Z.of_nat (length parsed) <= 2 ^ 32 ->
  AssemblerAsync parsed
  = imap (fun i instr => encoded_at (labels_of parsed) (Z.of_nat i) instr)
      parsed.
Proof.
  intros Hok Hlen. unfold AssemblerAsync, labels_of.
  destruct (assign_labels_ok parsed 0 ∅ [] Hok) as [labels Heq].
  rewrite Heq. cbn [app].
  rewrite encode_all_imap by lia.
  apply imap_ext. intros i x _. reflexivity.
Qed.

(** A forward reference, and an operand that does not fit. *)
Lemma AssemblerAsync_records_witness :
  AssemblerAsync
    [InstructionADDI 1 None 1 0 "_end"; InstructionADDI 2 None 1 0 "65536";
     InstructionHALT 3 (Some "_end"%string)]
  = imap (fun i instr =>
            encoded_at
              (labels_of
                 [InstructionADDI 1 None 1 0 "_end";
                  InstructionADDI 2 None 1 0 "65536";
                  InstructionHALT 3 (Some "_end"%string)])
              (Z.of_nat i) instr)
      [InstructionADDI 1 None 1 0 "_end"; InstructionADDI 2 None 1 0 "65536";
       InstructionHALT 3 (Some "_end"%string)].
Proof.
  apply (AssemblerAsync_records
           [InstructionADDI 1 None 1 0 "_end";
            InstructionADDI 2 None 1 0 "65536";
            InstructionHALT 3 (Some "_end"%string)]).
  - repeat constructor.
  - cbn. lia.
Defined.

Lemma assign_labels_lookup (name : string) (parsed : list Instruction) :
  forall (idx : Z) (labels labels' : gmap string Z)
         (acc acc' : list Instruction),
    assign_labels parsed idx labels acc = inl (labels', acc') ->
    ((forall i instr, parsed !! i = Some instr -> Label instr <> Some name) ->
     labels' !! name = labels !! name) /\
    (forall (i : nat) instr,
       parsed !! i = Some instr -> Label instr = Some name ->
       (forall (j : nat) instr', (i < j)%nat -> parsed !! j = Some instr' ->
          Label instr' <> Some name) ->
       labels' !! name = Some (idx + Z.of_nat i)).
Proof.
  induction parsed as [| instr0 parsed IH];
    intros idx labels labels' acc acc' Heq.
  - cbn in Heq. injection Heq as <- <-. split; [reflexivity |].
    intros i instr Hi. discriminate Hi.
  - cbn [assign_labels] in Heq.
    destruct (Err instr0) as [e |]; [discriminate Heq |].
    destruct (IH _ _ _ _ _ Heq) as [IHnone IHlast]. split.
    + intros Hnone. rewrite IHnone.
      * pose proof (Hnone 0%nat instr0 eq_refl) as H0.
        destruct (Label instr0) as [n |]; [| reflexivity].
        apply lookup_insert_ne. congruence.
      * intros i instr Hi. apply (Hnone (Datatypes.S i) instr Hi).
    + intros [| i] instr Hi Hlabel Hlast.
      * injection Hi as ->. rewrite IHnone.
        -- rewrite Hlabel. rewrite lookup_insert_eq. f_equal. lia.
        -- intros j instr' Hj.
           apply (Hlast (Datatypes.S j) instr'); [lia | exact Hj].
      * rewrite (IHlast i instr Hi Hlabel).
        -- f_equal. lia.
        -- intros j instr' Hij Hj.
           apply (Hlast (Datatypes.S j) instr'); [lia | exact Hj].
Qed.

(** X23. The label table of the first pass: a name that labels no
    instruction is absent, and a name that labels one or more is bound to
    the index of the last instruction that carries it; a label defined
    twice is not an error. *)
Theorem labels_of_last (parsed : list Instruction) (name : string) :
  Forall (fun instr => Err instr = None) parsed ->
  ((forall i instr, parsed !! i = Some instr -> Label instr <> Some name) ->
   labels_of parsed !! name = None) /\
  (forall (i : nat) instr,
     parsed !! i = Some instr -> Label instr = Some name ->
     (forall (j : nat) instr', (i < j)%nat -> parsed !! j = Some instr' ->
        Label instr' <> Some name) ->
     labels_of parsed !! name = Some (Z.of_nat i)).
Proof.
  intros Hok. unfold labels_of.
  destruct (assign_labels_ok parsed 0 ∅ [] Hok) as [labels Heq].
  rewrite Heq.
  destruct (assign_labels_lookup name parsed _ _ _ _ _ Heq) as [Hnone Hlast].
  split.
  - intros H. rewrite (Hnone H). apply lookup_empty.
  - intros i instr Hi Hlabel H. rewrite (Hlast i instr Hi Hlabel H).
    f_equal.
Qed.

(** A label defined on two lines. *)
Lemma labels_of_last_witness :
  labels_of
    [InstructionHALT 1 (Some "a"%string); InstructionHALT 2 None;
     InstructionHALT 3 (Some "a"%string)] !! "a"%string
  = Some (Z.of_nat 2).
Proof.
  apply (proj2 (labels_of_last
                  [InstructionHALT 1 (Some "a"%string); InstructionHALT 2 None;
                   InstructionHALT 3 (Some "a"%string)] "a"
                  ltac:(repeat constructor))
           2%nat (InstructionHALT 3 (Some "a"%string))).
  - reflexivity.
  - reflexivity.
  - intros [| [| [| j]]] instr' Hlt Hj; try lia. discriminate Hj.
Defined.

End Assembler.

(** ** The loader of the interpreter *)

Lemma load_words_cells (out : list asm.InstructionOrError) :
  forall (addr : Z) (machine : vm.VM),
    0 <= addr -> addr + Z.of_nat (length out) <= vm.MemorySize ->
    Forall (fun rec => asm.ioe_Error rec = None) out ->
    exists loaded,
      interp.load_words out addr machine = inl loaded /\
      (forall (i : nat) rec, out !! i = Some rec ->
         get (vm.M loaded) (addr + Z.of_nat i) = asm.ioe_Instruction rec) /\
      (forall a, a < addr -> get (vm.M loaded) a = get (vm.M machine) a) /\
      (forall a, addr + Z.of_nat (length out) <= a ->
         get (vm.M loaded) a = get (vm.M machine) a) /\
      vm.GPR loaded = vm.GPR machine /\ vm.PC loaded = vm.PC machine /\
      vm.S loaded = vm.S machine /\ vm.TTY loaded = vm.TTY machine.
Proof.
  induction out as [| rec0 out IH]; intros addr machine Haddr Hlen Hok.
  - exists machine. cbn. repeat split; try reflexivity.
    intros i rec Hi. discriminate Hi.
  - inversion Hok as [| ? ? Hrec Hrest]; subst. cbn [length] in Hlen.
    cbn [interp.load_words]. rewrite Hrec.
    replace (vm.MemorySize <=? addr) with false by lia.
    assert (Hnext : add32 addr 1 = addr + 1).
    { unfold add32, wrap32. apply Z.mod_small.
      unfold vm.MemorySize in Hlen. change (Z.shiftl 1 20) with 1048576 in Hlen.
      pow2. lia. }
    rewrite Hnext.
    destruct (IH (addr + 1)
                (vm.with_M machine
                   (set (vm.M machine) addr (asm.ioe_Instruction rec0))))
      as (loaded & Heq & Hcells & Hbelow & Habove & Hg & Hp & Hs & Ht);
      [lia | lia | exact Hrest |].
    exists loaded. split; [exact Heq |].
    cbn [vm.with_M vm.M vm.GPR vm.PC vm.S vm.TTY] in *.
    repeat split; try assumption.
    + intros [| i] rec Hi.
      * injection Hi as ->. rewrite Z.add_0_r, Hbelow by lia.
        apply get_set_eq.
      * rewrite <- (Hcells i rec Hi). f_equal. lia.
    + intros a Ha. rewrite Hbelow by lia. apply get_set_ne. lia.
    + intros a Ha. cbn [length] in Ha. rewrite Habove by lia.
      apply get_set_ne. lia.
Qed.

Lemma load_words_stops (pre post : list asm.InstructionOrError)
    (rec : asm.InstructionOrError) (err : asm.error) :
  forall (addr : Z) (machine : vm.VM),
    0 <= addr -> addr + Z.of_nat (length pre) <= vm.MemorySize ->
    Forall (fun rec => asm.ioe_Error rec = None) pre ->
    asm.ioe_Error rec = Some err ->
    interp.load_words (pre ++ rec :: post) addr machine = inr err.
Proof.
  induction pre as [| rec0 pre IH]; intros addr machine Haddr Hlen Hok Herr.
  - cbn. rewrite Herr. reflexivity.
  - inversion Hok as [| ? ? Hrec Hrest]; subst. cbn [length] in Hlen.
    cbn [app interp.load_words]. rewrite Hrec.
    replace (vm.MemorySize <=? addr) with false by lia.
    assert (Hnext : add32 addr 1 = addr + 1).
    { unfold add32, wrap32. apply Z.mod_small.
      unfold vm.MemorySize in Hlen. change (Z.shiftl 1 20) with 1048576 in Hlen.
      pow2. lia. }
    rewrite Hnext. apply IH; [lia | lia | exact Hrest | exact Herr].
Qed.

(** X24. The interpreter's loader: records without an error, no more
    than the memory holds, are stored from address 0 in order, one word
    each, and the rest of the machine is untouched; the first record with
    an error stops the load with that error. *)
Theorem load_words_image (out : list asm.InstructionOrError)
    (machine : vm.VM) :
  Z.of_nat (length out) <= vm.MemorySize ->
  (Forall (fun rec => asm.ioe_Error rec = None) out ->
   exists loaded,
     interp.load_words out 0 machine = inl loaded /\
     (forall (i : nat) rec, out !! i = Some rec ->
        get (vm.M loaded) (Z.of_nat i) = asm.ioe_Instruction rec) /\
     (forall a, Z.of_nat (length out) <= a ->
        get (vm.M loaded) a = get (vm.M machine) a) /\
     vm.GPR loaded = vm.GPR machine /\ vm.PC loaded = vm.PC machine /\
     vm.S loaded = vm.S machine /\ vm.TTY loaded = vm.TTY machine) /\
  (forall pre rec post err,
     out = pre ++ rec :: post ->
     Forall (fun rec => asm.ioe_Error rec = None) pre ->
     asm.ioe_Error rec = Some err ->
     interp.load_words out 0 machine = inr err).
Proof.
  intros Hlen. split.
  - intros Hok.
    destruct (load_words_cells out 0 machine)
      as (loaded & Heq & Hcells & _ & Habove & Hrest);
      [lia | lia | exact Hok |].
    exists loaded. split; [exact Heq |]. split; [| split].
    + intros i rec Hi. rewrite <- (Hcells i rec Hi). f_equal.
    + intros a Ha. apply Habove. lia.
    + exact Hrest.
  - intros pre rec post err -> Hok Herr.
    apply load_words_stops; try assumption; [lia |].
    rewrite length_app in Hlen. lia.
Qed.

(** The assembled [sum_program], loaded into a new machine. *)
Lemma load_words_image_witness :
  exists loaded,
    interp.load_words (asm.AssemblerAsync sum_program) 0 vm.new = inl loaded /\
    (forall (i : nat) rec, asm.AssemblerAsync sum_program !! i = Some rec ->
       get (vm.M loaded) (Z.of_nat i) = asm.ioe_Instruction rec) /\
    (forall a, Z.of_nat (length (asm.AssemblerAsync sum_program)) <= a ->
       get (vm.M loaded) a = get (vm.M vm.new) a) /\
    vm.GPR loaded = vm.GPR vm.new /\ vm.PC loaded = vm.PC vm.new /\
    vm.S loaded = vm.S vm.new /\ vm.TTY loaded = vm.TTY vm.new.
Proof.
  apply (proj1 (load_words_image (asm.AssemblerAsync sum_program) vm.new
                  ltac:(vm_compute; discriminate))).
  vm_compute. repeat constructor.
Defined.

(** ** The disassembler *)

(** X25. Disassembling an assembled [addi], [sw] or [lw] prints the
    instruction back: the mnemonic, the two registers by number and the
    operand's value in decimal. *)
Theorem Disassemble_assembled (l : Z) (lb : option string) (ra rb : Z)
    (imm : string) (labels : gmap string Z) (pc v : Z) :
  asm.denotes labels imm v ->
  - 65536 <= v <= 65535 ->
  0 <= ra < 32 -> 0 <= rb < 32 ->
  (exists w, asm.Encode (asm.InstructionADDI l lb ra rb imm) labels pc = inl w /\
     vm.Disassemble w
     = ("addi r" +:+ strconv.FormatInt ra +:+ " r" +:+ strconv.FormatInt rb
        +:+ " " +:+ strconv.FormatInt v)%string) /\
  (exists w, asm.Encode (asm.InstructionSW l lb ra rb imm) labels pc = inl w /\
     vm.Disassemble w
     = ("sw r" +:+ strconv.FormatInt ra +:+ " r" +:+ strconv.FormatInt rb
        +:+ " " +:+ strconv.FormatInt v)%string) /\
  (exists w, asm.Encode (asm.InstructionLW l lb ra rb imm) labels pc = inl w /\
     vm.Disassemble w
     = ("lw r" +:+ strconv.FormatInt ra +:+ " r" +:+ strconv.FormatInt rb
        +:+ " " +:+ strconv.FormatInt v)%string).
Proof.
  intros Hden Hv Hra Hrb.
  assert (Hres : asm.ResolveImmediate labels imm 17 l = inl (wrap32 v)).
  { rewrite (ResolveImmediate_of_denotes _ _ _ _ _ Hden).
    apply CastToUint32_inside; [lia | pow2; lia]. }
  assert (Hdis : forall op, 0 <= op < 32 ->
    let w := Z.lor (Z.lor (Z.lor (Z.lor 0 (shl32 (Z.land op 31) 27))
                             (shl32 (Z.land ra 31) 22))
                      (shl32 (Z.land rb 31) 17)) (Z.land (wrap32 v) 131071) in
    vm.Decode w
    = (op, ra, rb, vm.DecodeRC w, vm.DecodeImm17 w, vm.DecodeImm22 w) /\
    to_int32 (vm.DecodeImm17 w) = v).
  { intros op Hop w.
    destruct (RRI_word op ra rb v) as (_ & Ho & Ha & Hb & Hi); [lia | lia |].
    fold w in Ho, Ha, Hb, Hi.
    rewrite (Z.mod_small ra 32) in Ha by lia.
    rewrite (Z.mod_small rb 32) in Hb by lia.
    unfold vm.Decode. rewrite Ho, Ha, Hb. split; [reflexivity | exact Hi]. }
  unfold asm.Encode. rewrite Hres. cbv zeta.
  split; [| split]; (eexists; split; [reflexivity |]); unfold vm.Disassemble.
  - destruct (Hdis asm.OpcodeADDI) as [-> ->]; [unfold asm.OpcodeADDI; lia |].
    reflexivity.
  - destruct (Hdis asm.OpcodeSW) as [-> ->]; [unfold asm.OpcodeSW; lia |].
    reflexivity.
  - destruct (Hdis asm.OpcodeLW) as [-> ->]; [unfold asm.OpcodeLW; lia |].
    reflexivity.
Qed.

Lemma Disassemble_assembled_witness :
  (exists w, asm.Encode (asm.InstructionADDI 4 None 29 29 "-1") ∅ 9 = inl w /\
     vm.Disassemble w
     = ("addi r" +:+ strconv.FormatInt 29 +:+ " r" +:+ strconv.FormatInt 29
        +:+ " " +:+ strconv.FormatInt (-1))%string) /\
  (exists w, asm.Encode (asm.InstructionSW 4 None 29 29 "-1") ∅ 9 = inl w /\
     vm.Disassemble w
     = ("sw r" +:+ strconv.FormatInt 29 +:+ " r" +:+ strconv.FormatInt 29
        +:+ " " +:+ strconv.FormatInt (-1))%string) /\
  (exists w, asm.Encode (asm.InstructionLW 4 None 29 29 "-1") ∅ 9 = inl w /\
     vm.Disassemble w
     = ("lw r" +:+ strconv.FormatInt 29 +:+ " r" +:+ strconv.FormatInt 29
        +:+ " " +:+ strconv.FormatInt (-1))%string).
Proof.
  apply (Disassemble_assembled 4 None 29 29 "-1" ∅ 9 (-1)); try lia.
  left. reflexivity.
Defined.

(** ** Sign extension *)

(** X26. [SignExtend17] turns a 17-bit field into the 32-bit word with
    the same two's complement value: bit 16 is copied into bits 17 to
    31. *)
Theorem SignExtend17_signed (v : Z) :
  0 <= v < 2 ^ 17 ->
  is_uint32 (vm.SignExtend17 v) /\
  to_int32 (vm.SignExtend17 v) = signed_field 17 v /\
  vm.SignExtend17 v mod 2 ^ 17 = v /\
  vm.SignExtend17 v / 2 ^ 17 = (if v <? 2 ^ 16 then 0 else 2 ^ 15 - 1).
Proof.
  intros Hv. unfold vm.SignExtend17, signed_field, to_int32, is_uint32.
  rewrite land_bit16 by exact Hv. rewrite (Z.mod_small v) by lia.
  change (17 - 1) with 16. change (2 ^ 16) with 65536.
  destruct (Z.ltb_spec v 65536) as [Hlt | Hge]; cbn [Z.eqb negb].
  - replace (v <? 2 ^ 31) with true by (pow2; lia).
    repeat split; divmod.
  - rewrite Z.lor_comm.
    rewrite (lor_disjoint_add 17) by (lia || reflexivity || exact Hv).
    replace (4294836224 + v <? 2 ^ 31) with false by (pow2; lia).
    repeat split; divmod.
Qed.

Lemma SignExtend17_signed_witness :
  is_uint32 (vm.SignExtend17 131071) /\
  to_int32 (vm.SignExtend17 131071) = signed_field 17 131071 /\
  vm.SignExtend17 131071 mod 2 ^ 17 = 131071 /\
  vm.SignExtend17 131071 / 2 ^ 17 = (if 131071 <? 2 ^ 16 then 0 else 2 ^ 15 - 1).
Proof. apply (SignExtend17_signed 131071). lia. Defined.

(** ** The status registers *)
Section CPU_status.
Import vm.

(** X27. In kernel mode [rsr rA n] copies the status register [n], one
    of the four, into rA, and [wsr rA n] copies rA into it. The poll that
    follows a [wsr] reads the status word just written. *)
Theorem Execute_wsr_rsr (vm : VM) (ci : Z) (env : Env) :
  Z.land (get (S vm) 0) StatusUserMode = 0 ->
  DecodeImm22 ci < NumStatusRegisters ->
  (DecodeOpcode ci = OpcodeRSR ->
   poll_outcome vm env = Quiet ->
   snd (Execute vm ci env) = None /\
   (DecodeRA ci <> 0 ->
    get (GPR (fst (Execute vm ci env))) (DecodeRA ci)
    = get (S vm) (DecodeImm22 ci)) /\
   (forall i, i <> DecodeRA ci -> i <> 0 ->
      get (GPR (fst (Execute vm ci env))) i = get (GPR vm) i) /\
   PC (fst (Execute vm ci env)) = PC vm /\
   M (fst (Execute vm ci env)) = M vm /\
   S (fst (Execute vm ci env)) = S vm) /\
  (DecodeOpcode ci = OpcodeWSR ->
   poll_outcome
     (with_S vm (set (S vm) (DecodeImm22 ci) (get (GPR vm) (DecodeRA ci))))
     env = Quiet ->
   snd (Execute vm ci env) = None /\
   S (fst (Execute vm ci env))
   = set (S vm) (DecodeImm22 ci) (get (GPR vm) (DecodeRA ci)) /\
   GPR (fst (Execute vm ci env)) = set (GPR vm) 0 0 /\
   PC (fst (Execute vm ci env)) = PC vm /\
   M (fst (Execute vm ci env)) = M vm).
Proof.
  intros Hk Hn. split; intros Hop Hq.
  - assert (Hsw : Execute_switch vm ci
      = (with_GPR vm
           (set (GPR vm) (DecodeRA ci) (get (S vm) (DecodeImm22 ci))), None)).
    { unfold Execute_switch, Decode. rewrite Hop, Hk.
      cbn [Z.eqb Pos.eqb negb orb OpcodeRSR OpcodeJALR OpcodeADD OpcodeADDI
             OpcodeNAND OpcodeLUI OpcodeSW OpcodeLW OpcodeBEQ OpcodeWSR].
      replace (NumStatusRegisters <=? DecodeImm22 ci) with false by lia.
      reflexivity. }
    exact (Execute_register vm ci env _ _ Hsw Hq).
  - assert (Hsw : Execute_switch vm ci
      = (with_S vm
           (set (S vm) (DecodeImm22 ci) (get (GPR vm) (DecodeRA ci))), None)).
    { unfold Execute_switch, Decode. rewrite Hop, Hk.
      cbn [Z.eqb Pos.eqb negb orb OpcodeRSR OpcodeJALR OpcodeADD OpcodeADDI
             OpcodeNAND OpcodeLUI OpcodeSW OpcodeLW OpcodeBEQ OpcodeWSR].
      replace (NumStatusRegisters <=? DecodeImm22 ci) with false by lia.
      reflexivity. }
    destruct (Execute_quiet vm ci env _ Hsw Hq) as (He & Hg & Hp & Hm & Hs & _).
    rewrite He, Hg, Hp, Hm, Hs. repeat split.
Qed.

(** [rsr r1 2] in a kernel whose vector table is at 1024. *)
Lemma Execute_wsr_rsr_witness :
  snd (Execute (with_S new (set ∅ 2 1024)) 1212153858 quiet_env) = None /\
  (DecodeRA 1212153858 <> 0 ->
   get (GPR (fst (Execute (with_S new (set ∅ 2 1024)) 1212153858 quiet_env)))
     (DecodeRA 1212153858)
   = get (S (with_S new (set ∅ 2 1024))) (DecodeImm22 1212153858)) /\
  (forall i, i <> DecodeRA 1212153858 -> i <> 0 ->
     get (GPR (fst (Execute (with_S new (set ∅ 2 1024)) 1212153858 quiet_env)))
       i
     = get (GPR (with_S new (set ∅ 2 1024))) i) /\
  PC (fst (Execute (with_S new (set ∅ 2 1024)) 1212153858 quiet_env))
  = PC (with_S new (set ∅ 2 1024)) /\
  M (fst (Execute (with_S new (set ∅ 2 1024)) 1212153858 quiet_env))
  = M (with_S new (set ∅ 2 1024)) /\
  S (fst (Execute (with_S new (set ∅ 2 1024)) 1212153858 quiet_env))
  = S (with_S new (set ∅ 2 1024)).
Proof.
  destruct (Execute_wsr_rsr (with_S new (set ∅ 2 1024)) 1212153858 quiet_env)
    as [H _].
  - vm_compute. reflexivity.
  - vm_compute. reflexivity.
  - apply H; vm_compute; reflexivity.
Defined.

End CPU_status.

(** ** The software trap of the revision before hardware interrupts *)
Section Trap.
Import vm_trap.

Lemma DecodeImm17_nonneg (ci : Z) : 0 <= vm.DecodeImm17 ci.
Proof.
  unfold vm.DecodeImm17, vm.SignExtend17.
  assert (H : 0 <= Z.land ci 131071) by (apply Z.land_nonneg; lia).
  destruct (negb _); [apply Z.lor_nonneg; lia | exact H].
Qed.

(** X28. In the revision of the CPU whose only interrupt is the
    software trap, [jalr r0 r0 n] with interrupts enabled and the two
    tables aligned saves S[0] in r26 and the program counter in r27, swaps
    r29 with S[3], clears the user mode, interrupts and paging flags, and
    continues at the address stored in entry [n] of the vector table
    (entry 0 when [n] is 16 or more); memory and the other registers are
    untouched. *)
Theorem trap_entry (vm : VM) (ci : Z) :
  vm.DecodeOpcode ci = OpcodeJALR ->
  vm.DecodeRA ci = 0 -> vm.DecodeRB ci = 0 ->
  Z.land (get (S vm) 0) StatusInterrupts <> 0 ->
  Z.land (get (S vm) 2) 1023 = 0 ->
  Z.land (get (S vm) 3) 1023 = 0 ->
  add32 (get (S vm) 2)
    (if 16 <=? vm.DecodeImm17 ci then 0 else vm.DecodeImm17 ci) < MemorySize ->
  snd (Execute vm ci) = None /\
  get (GPR (fst (Execute vm ci))) 26 = get (S vm) 0 /\
  get (GPR (fst (Execute vm ci))) 27 = PC vm /\
  get (GPR (fst (Execute vm ci))) 29 = get (S vm) 3 /\
  get (S (fst (Execute vm ci))) 3 = get (GPR vm) 29 /\
  Z.land (get (S (fst (Execute vm ci))) 0) StatusUserMode = 0 /\
  Z.land (get (S (fst (Execute vm ci))) 0) StatusInterrupts = 0 /\
  Z.land (get (S (fst (Execute vm ci))) 0) StatusPaging = 0 /\
  PC (fst (Execute vm ci))
  = get (M vm)
      (add32 (get (S vm) 2)
         (if 16 <=? vm.DecodeImm17 ci then 0 else vm.DecodeImm17 ci)) /\
  M (fst (Execute vm ci)) = M vm /\
  get (S (fst (Execute vm ci))) 1 = get (S vm) 1 /\
  get (S (fst (Execute vm ci))) 2 = get (S vm) 2 /\
  (forall i, i <> 0 -> i <> 26 -> i <> 27 -> i <> 29 ->
     get (GPR (fst (Execute vm ci))) i = get (GPR vm) i).
Proof.
  intros Hop Hra Hrb Hi Ht Hs Hoff. apply Z.eqb_neq in Hi.
  pose proof (DecodeImm17_nonneg ci) as Hn.
  unfold Execute, Execute_switch, vm.Decode.
  rewrite Hop, Hra, Hrb, Hi, Ht, Hs.
  cbn [Z.eqb OpcodeJALR negb orb].
  replace (vm.DecodeImm17 ci <? 0) with false by lia. cbn [orb].
  cbn [with_GPR with_S with_PC GPR S M PC].
  assert (H2 : forall a b, get (set (set (S vm) 3 a) 0 b) 2 = get (S vm) 2)
    by (intros a b; rewrite !get_set_ne by lia; reflexivity).
  rewrite H2.
  replace (MemorySize <=? _) with false by lia.
  cbn [fst snd with_GPR with_S with_PC GPR S M PC].
  destruct (flags_cleared (get (S vm) 0)) as (Hu & Hii & Hp).
  assert (H29 : get (set (set (GPR vm) 26 (get (S vm) 0)) 27 (PC vm)) 29
                = get (GPR vm) 29)
    by (rewrite !get_set_ne by lia; reflexivity).
  rewrite H29.
  repeat split;
    try (intros i H0 H26 H27 Hi29);
    repeat first [ rewrite get_set_eq | rewrite get_set_ne by lia ];
    try reflexivity; first [exact Hu | exact Hii | exact Hp].
Qed.

End Trap.

(** [jalr r0 r0 1] in user mode with interrupts enabled, the vector table
    at 2048 and its entry 1 pointing to 4096. *)
Lemma trap_entry_witness :
  let vm :=
    {| vm_trap.GPR := set ∅ 29 999; vm_trap.M := set ∅ 2049 4096;
       vm_trap.PC := 77; vm_trap.S := set (set ∅ 0 5) 2 2048 |} in
  snd (vm_trap.Execute vm 1) = None /\
  get (vm_trap.GPR (fst (vm_trap.Execute vm 1))) 26 = 5 /\
  get (vm_trap.GPR (fst (vm_trap.Execute vm 1))) 27 = 77 /\
  get (vm_trap.GPR (fst (vm_trap.Execute vm 1))) 29 = 0 /\
  get (vm_trap.S (fst (vm_trap.Execute vm 1))) 3 = 999 /\
  vm_trap.PC (fst (vm_trap.Execute vm 1)) = 4096.
Proof.
  cbv zeta.
  destruct (trap_entry
              {| vm_trap.GPR := set ∅ 29 999; vm_trap.M := set ∅ 2049 4096;
                 vm_trap.PC := 77; vm_trap.S := set (set ∅ 0 5) 2 2048 |} 1)
    as (He & H26 & H27 & H29 & H3 & _ & _ & _ & Hpc & _);
    try (vm_compute; reflexivity).
  - vm_compute. discriminate.
  - rewrite He, H26, H27, H29, H3, Hpc. vm_compute. repeat split.
Defined.

(** ** The errors of [Execute], and [halt] *)
Section CPU_errors.
Import vm.

Lemma errors_Is_unique (err a b : error) :
  errors_Is err a = true -> errors_Is err b = true -> a = b.
Proof.
  induction err as [| | | | base IH text]; cbn.
  5: exact IH.
  all: destruct a; try discriminate; destruct b; try discriminate; reflexivity.
Qed.

Lemma Execute_switch_attached (vm : VM) (ci : Z) :
  attached (fst (Execute_switch vm ci)) = attached vm.
Proof.
  unfold Execute_switch, Decode.
  repeat match goal with
         | |- context [if ?b then _ else _] => destruct b
         end; try reflexivity.
  - unfold attached. destruct (Interrupt_frame vm (DecodeImm17 ci))
      as (_ & _ & _ & -> & _). reflexivity.
  - destruct (Memory vm _ _) as [r |]; [| reflexivity].
    apply store_frame.
  - destruct (Memory vm _ _) as [r |]; reflexivity.
  - destruct (Memory vm _ _) as [r |]; reflexivity.
Qed.

Lemma Execute_switch_error (vm : VM) (ci : Z) (vm1 : VM) (err : error) :
  Execute_switch vm ci = (vm1, Some err) ->
  errors_Is err ErrHalted = true \/ errors_Is err ErrNotPermitted = true \/
  errors_Is err ErrSIGSEGV = true.
Proof.
  unfold Execute_switch, Decode.
  repeat match goal with
         | |- context [if ?b then _ else _] => destruct b
         end; try discriminate;
    try (intros [= <- <-]; cbn; auto).
  - intros H. apply Interrupt_error in H. auto.
  - destruct (Memory vm _ _) as [r | e] eqn:Hm; [discriminate |].
    intros [= <- <-]. destruct (Memory_error _ _ _ _ Hm); auto.
  - destruct (Memory vm _ _) as [r | e] eqn:Hm; [discriminate |].
    intros [= <- <-]. destruct (Memory_error _ _ _ _ Hm); auto.
  - destruct (Memory vm _ _) as [r | e] eqn:Hm; [discriminate |].
    intros [= <- <-]. destruct (Memory_error _ _ _ _ Hm); auto.
Qed.

(** X29. The errors that [Execute] can return are of four kinds:
    [ErrHalted], [ErrNotPermitted], [ErrSIGSEGV] and [ErrTTYDetach]; the
    last one only on a machine with a TTY attached, and only from the poll
    after an instruction, with interrupts enabled. *)
Theorem Execute_errors (vm : VM) (ci : Z) (env : Env) (err : error) :
  snd (Execute vm ci env) = Some err ->
  (errors_Is err ErrHalted = true \/ errors_Is err ErrNotPermitted = true \/
   errors_Is err ErrSIGSEGV = true \/ errors_Is err ErrTTYDetach = true) /\
  (errors_Is err ErrTTYDetach = true ->
   attached vm = true /\
   Z.land (get (S (fst (Execute_switch vm ci))) 0) StatusInterrupts <> 0).
Proof.
  unfold Execute.
  pose proof (Execute_switch_attached vm ci) as Hatt.
  destruct (Execute_switch vm ci) as [vm1 [e |]] eqn:Hsw; cbn [fst] in *.
  - cbn. intros [= ->].
    destruct (Execute_switch_error _ _ _ _ Hsw) as [H | [H | H]];
      (split; [auto |]); intros Ht;
      pose proof (errors_Is_unique _ _ _ H Ht); discriminate.
  - destruct (MaybeInterrupt vm1 env) as [vm2 e] eqn:Hm. cbn. intros ->.
    pose proof (MaybeInterrupt_error vm1 env err) as Hkind.
    rewrite Hm in Hkind. destruct (Hkind eq_refl) as [H | H];
      (split; [auto |]); intros Ht.
    + pose proof (errors_Is_unique _ _ _ H Ht). discriminate.
    + clear Hkind H. unfold MaybeInterrupt in Hm.
      destruct (Z.eqb_spec (Z.land (get (S vm1) 0) StatusInterrupts) 0)
        as [Hi | Hi]; [discriminate Hm |].
      split; [| exact Hi].
      pose proof (poll_clock_TTY vm1 env) as Hclock.
      destruct (poll_clock vm1 env) as [vm1' fired]. cbn [fst] in Hclock.
      destruct fired.
      * apply Interrupt_error in Hm.
        pose proof (errors_Is_unique _ _ _ Hm Ht). discriminate.
      * unfold poll_tty in Hm. rewrite <- Hatt. unfold attached.
        rewrite <- Hclock. destruct (TTY vm1') as [tty |]; [reflexivity |].
        discriminate Hm.
Qed.

(** A machine without a TTY that executes [lw r1 r0 -1], a load from the
    last address of the 32-bit space. *)
Lemma Execute_errors_witness :
  (errors_Is ErrSIGSEGV ErrHalted = true \/
   errors_Is ErrSIGSEGV ErrNotPermitted = true \/
   errors_Is ErrSIGSEGV ErrSIGSEGV = true \/
   errors_Is ErrSIGSEGV ErrTTYDetach = true) /\
  (errors_Is ErrSIGSEGV ErrTTYDetach = true ->
   attached new = true /\
   Z.land (get (S (fst (Execute_switch new 809631743))) 0) StatusInterrupts
   <> 0).
Proof.
  apply (Execute_errors new 809631743 quiet_env ErrSIGSEGV).
  vm_compute. reflexivity.
Defined.

(** X30. An assembled [halt] is the all-zero word. Executed with
    interrupts disabled it stops the machine with [ErrHalted], changing
    nothing but GPR[0]; with interrupts enabled it is a trap into
    interrupt 0, which leaves the decision to the kernel. *)
Theorem Execute_assembled_halt (l : Z) (lb : option string)
    (labels : gmap string Z) (pc : Z) (vm : VM) (env : Env) :
  asm.Encode (asm.InstructionHALT l lb) labels pc = inl 0 /\
  (Z.land (get (S vm) 0) StatusInterrupts = 0 ->
   Execute vm 0 env = (with_GPR vm (set (GPR vm) 0 0), Some ErrHalted)) /\
  (Z.land (get (S vm) 0) StatusInterrupts <> 0 ->
   Execute vm 0 env
   = (with_GPR (fst (Interrupt vm IrqHALT))
        (set (GPR (fst (Interrupt vm IrqHALT))) 0 0),
      snd (Interrupt vm IrqHALT))).
Proof.
  split; [reflexivity |]. split; intros Hi.
  - unfold Execute, Execute_switch, Decode.
    change (DecodeOpcode 0) with 0. change (DecodeRA 0) with 0.
    change (DecodeRB 0) with 0. rewrite Hi. reflexivity.
  - apply Z.eqb_neq in Hi. unfold Execute, Execute_switch, Decode.
    change (DecodeOpcode 0) with 0. change (DecodeRA 0) with 0.
    change (DecodeRB 0) with 0. change (DecodeImm17 0) with 0.
    rewrite Hi. cbn [Z.eqb OpcodeJALR negb orb]. unfold IrqHALT.
    destruct (Interrupt vm 0) as [vm1 [err |]] eqn:Hint; [reflexivity |].
    rewrite (Interrupt_then_poll _ _ _ env Hint). reflexivity.
Qed.

End CPU_errors.
